(** * GAIA CANSAT flight-data analyzer: cleaning, statistics and air-quality
      pipeline

    A shallow embedding of the data pipeline of the analyzer script
    ([cleanData], [calculateStats], [classifyAirQuality],
    [processAltitudeData], and the predominant-quality reduction of
    [generateQualityMetrics]) together with the properties its specification
    states about it.

    Conventions of the embedding:
    - a JavaScript Number is an IEEE 754 binary64 value, modelled by
      [spec_float] at precision 53 and maximal exponent 1024; arithmetic and
      comparisons are the correctly rounded operations of [SpecFloat];
    - [undefined] is [None] in an [option]; a CSV cell is a [value];
    - a row is an object: a finite map from column names to values;
    - row objects are shared between [originalData], [csvData] and
      [cleanedData]; the store of row objects is the list of rows itself and a
      reference to a row is its position in [originalData] (PapaParse
      allocates one fresh object per CSV line). *)

From Stdlib Require Import ZArith Lia Bool Ascii Sorted Permutation.
From Stdlib Require Import SpecFloat.
From stdpp Require Import gmap strings list fin_maps.

(* ===================================================================== *)
(** * Part I: definitions *)
(* ===================================================================== *)

(** ** JavaScript numbers *)

Module JS.

Local Open Scope Z_scope.

Abbreviation number := spec_float.

Definition prec : Z := 53.
Definition emax : Z := 1024.

Definition NaN : number := S754_nan.
Definition Infinity : number := S754_infinity false.
Definition zero : number := S754_zero false.

(** An integer literal, an array index or an array length as a Number. *)
Definition of_Z (z : Z) : number := binary_normalize prec emax z 0 false.
Definition of_nat (n : nat) : number := of_Z (Z.of_nat n).

Definition add : number -> number -> number := SFadd prec emax.
Definition sub : number -> number -> number := SFsub prec emax.
Definition mul : number -> number -> number := SFmul prec emax.
Definition div : number -> number -> number := SFdiv prec emax.
Definition sqrt : number -> number := SFsqrt prec emax.

(** [Math.pow(x, 2)], taken as the correctly rounded square. *)
Definition pow2 (x : number) : number := mul x x.

(** [a < b], [a > b], [a >= b], [a <= b]: every comparison with NaN is
    false. *)
Definition lt (a b : number) : bool := SFltb a b.
Definition gt (a b : number) : bool := SFltb b a.
Definition ge (a b : number) : bool := SFleb b a.
Definition le (a b : number) : bool := SFleb a b.

Definition isNaN (x : number) : bool :=
  match x with S754_nan => true | _ => false end.

(** [Number.isFinite]. *)
Definition isFinite (x : number) : bool :=
  match x with S754_zero _ | S754_finite _ _ _ => true | _ => false end.

(** ToBoolean on a Number: [+0], [-0] and [NaN] are falsy. *)
Definition truthy (x : number) : bool :=
  match x with S754_zero _ | S754_nan => false | _ => true end.

(** [a || b] where [a] may be [undefined]. *)
Definition or_else (a : option number) (b : number) : number :=
  match a with
  | Some x => if truthy x then x else b
  | None => b
  end.

(** Representation invariant of a binary64 value. *)
Definition valid (x : number) : bool := valid_binary prec emax x.

(** A number that can be compared: a well-formed binary64 other than NaN. *)
Definition comparable (x : number) : Prop :=
  valid x = true /\ isNaN x = false.

(** [a <= b] as a relation. *)
Definition ascending (a b : number) : Prop := le a b = true.

(** [x] is a zero, a finite number or an infinity whose sign bit is [s]. *)
Definition has_sign (s : bool) (x : number) : Prop :=
  match x with
  | S754_zero s' | S754_infinity s' | S754_finite s' _ _ => s' = s
  | S754_nan => False
  end.

(** [x] is a non-zero finite number or an infinity whose sign bit is [s]. *)
Definition pos_sign (s : bool) (x : number) : Prop :=
  match x with
  | S754_infinity s' | S754_finite s' _ _ => s' = s
  | _ => False
  end.

(** *** [parseFloat] on strings

    The longest prefix of the input, after leading white space, that is a
    [StrDecimalLiteral] is converted to the nearest binary64 value (ties to
    even).  A string holds the UTF-8 encoding of its text, so the white
    space of the language ([WhiteSpace] and [LineTerminator]) is recognised
    on one, two or three bytes. *)

(** TAB, LF, VT, FF, CR and the space. *)
Definition is_whitespace (c : ascii) : bool :=
  let n := N_of_ascii c in
  ((9 <=? n)%N && (n <=? 13)%N) || (n =? 32)%N.

(** U+00A0, the no-break space. *)
Definition is_whitespace2 (c1 c2 : ascii) : bool :=
  ((N_of_ascii c1 =? 194) && (N_of_ascii c2 =? 160))%N.

(** U+1680, U+2000 to U+200A, U+2028, U+2029, U+202F, U+205F, U+3000 and
    U+FEFF. *)
Definition is_whitespace3 (c1 c2 c3 : ascii) : bool :=
  let n1 := N_of_ascii c1 in
  let n2 := N_of_ascii c2 in
  let n3 := N_of_ascii c3 in
  ((n1 =? 225) && (n2 =? 154) && (n3 =? 128)
   || (n1 =? 226) && (n2 =? 128)
      && ((128 <=? n3) && (n3 <=? 138) || (n3 =? 168) || (n3 =? 169)
          || (n3 =? 175))
   || (n1 =? 226) && (n2 =? 129) && (n3 =? 159)
   || (n1 =? 227) && (n2 =? 128) && (n3 =? 128)
   || (n1 =? 239) && (n2 =? 187) && (n3 =? 191))%N.

Fixpoint skip_whitespace (s : string) : string :=
  match s with
  | String c1 s1 =>
      if is_whitespace c1 then skip_whitespace s1
      else
        match s1 with
        | String c2 s2 =>
            if is_whitespace2 c1 c2 then skip_whitespace s2
            else
              match s2 with
              | String c3 s3 =>
                  if is_whitespace3 c1 c2 c3 then skip_whitespace s3 else s
              | EmptyString => s
              end
        | EmptyString => s
        end
  | EmptyString => s
  end.

Definition digit (c : ascii) : option Z :=
  let n := Z.of_N (N_of_ascii c) in
  if (48 <=? n) && (n <=? 57) then Some (n - 48) else None.

(** Reads decimal digits: accumulated value, number of digits read, rest. *)
Fixpoint digits (s : string) (acc count : Z) : Z * Z * string :=
  match s with
  | String c s' =>
      match digit c with
      | Some d => digits s' (10 * acc + d) (count + 1)
      | None => (acc, count, s)
      end
  | EmptyString => (acc, count, s)
  end.

Definition read_sign (s : string) : bool * string :=
  match s with
  | String "-" t => (true, t)
  | String "+" t => (false, t)
  | _ => (false, s)
  end.

(** An exponent part counts only when at least one digit follows. *)
Definition exponent_part (s : string) : Z :=
  match s with
  | String c s' =>
      if (Ascii.eqb c "e" || Ascii.eqb c "E")%bool then
        let '(neg, t) := read_sign s' in
        let '(v, n, _) := digits t 0 0 in
        if n =? 0 then 0 else if neg then - v else v
      else 0
  | EmptyString => 0
  end.

(** The binary64 value nearest to [(-1)^neg * m * 10^e10]. *)
Definition decimal_to_number (neg : bool) (m e10 : Z) : number :=
  match m with
  | Zpos p =>
      if 0 <=? e10 then
        binary_round prec emax neg (p * Z.to_pos (10 ^ e10)) 0
      else
        let '(q, e, l) :=
          SFdiv_core_binary prec emax (Zpos p) 0 (10 ^ (- e10)) 0 in
        binary_round_aux prec emax neg q e l
  | _ => S754_zero neg
  end.

Definition parseFloat_string (input : string) : number :=
  let '(neg, s) := read_sign (skip_whitespace input) in
  if String.prefix "Infinity" s then S754_infinity neg else
  let '(ip, n1, r1) := digits s 0 0 in
  let '(m, n2, r2) :=
    match r1 with
    | String "." t => digits t ip 0
    | _ => (ip, 0, r1)
    end in
  if n1 + n2 =? 0 then NaN
  else decimal_to_number neg m (exponent_part r2 - n2).

End JS.

Import JS.

(** ** Cell values and rows *)

(** What a property of a row object can hold: a string (every cell as
    PapaParse delivers it, [dynamicTyping] being off), a number (the altitude
    once [cleanData] has rewritten it) or [null].  [undefined], a missing
    property, is [None]. *)
Inductive value :=
  | VStr (s : string)
  | VNum (x : number)
  | VNull.

Abbreviation undefined := (@None value).

Abbreviation Row := (gmap string value).

(** [parseFloat(v)]: a non-string argument is first converted with ToString;
    ["undefined"] and ["null"] parse to NaN and the decimal rendering of a
    number parses back to that number, [-0] being rendered as ["0"]. *)
Definition parseFloat (v : option value) : number :=
  match v with
  | Some (VStr s) => parseFloat_string s
  | Some (VNum (S754_zero _)) => zero
  | Some (VNum x) => x
  | Some VNull => NaN
  | None => NaN
  end.

(** SameValueZero, the key equality of a [Map]. *)
Definition sameValueZero (a b : option value) : bool :=
  match a, b with
  | None, None => true
  | Some VNull, Some VNull => true
  | Some (VStr s), Some (VStr t) => String.eqb s t
  | Some (VNum S754_nan), Some (VNum S754_nan) => true
  | Some (VNum x), Some (VNum y) => SFeqb x y
  | _, _ => false
  end.

(** A [Map] used as a set of keys ([timeMap.set(time, true)]). *)
Definition Map_has (m : list (option value)) (k : option value) : bool :=
  existsb (sameValueZero k) m.

Definition Map_set (m : list (option value)) (k : option value)
  : list (option value) :=
  if Map_has m k then m else m ++ [k].

(** [v !== undefined && v !== null]. *)
Definition present (v : option value) : bool :=
  match v with
  | Some VNull | None => false
  | Some _ => true
  end.

(** The row object PapaParse builds for one CSV line: every field is kept as
    the string read from the file, under the name of its column. *)
Definition csvRow (cells : list (string * string)) : Row :=
  list_to_map (prod_map id VStr <$> cells).

(** ** The cleaning engine: [cleanData] *)

Module Cleaning.

(** An entry of [duplicatesRemoved]: [{index, time, reason}]. *)
Record DuplicateEntry := {
  dup_index : nat;
  dup_time : option value;
  dup_reason : string
}.

(** The [reason] of an outlier entry is a template string built from the
    parsed value and the violated bound; its three shapes are kept apart
    and the two interpolated numbers are recorded instead of their decimal
    rendering. *)
Inductive OutlierReason :=
  | NotNumeric                          (* 'Valor no numerico' *)
  | TooLow (value bound : number)       (* `Valor muy bajo (${value} < ${range[0]})` *)
  | TooHigh (value bound : number).     (* `Valor muy alto (${value} > ${range[1]})` *)

(** An entry of [outliersRemoved]:
    [{index, column, value, minRange, maxRange, reason}]. *)
Record OutlierEntry := {
  out_index : nat;
  out_column : string;
  out_value : number;
  out_minRange : number;
  out_maxRange : number;
  out_reason : OutlierReason
}.

(** [physicalRanges], in the order [Object.entries] enumerates it. *)
Definition physicalRanges : list (string * (number * number)) :=
  [ ("Temperatura_C", (of_Z (-50), of_Z 85));
    ("Presion_hPa", (of_Z 300, of_Z 1100));
    ("Humedad_%", (of_Z 0, of_Z 100));
    ("Accel_X_m_s2", (of_Z (-160), of_Z 160));
    ("Accel_Y_m_s2", (of_Z (-160), of_Z 160));
    ("Accel_Z_m_s2", (of_Z (-160), of_Z 160));
    ("Gyro_X_deg_s", (of_Z (-2000), of_Z 2000));
    ("Gyro_Y_deg_s", (of_Z (-2000), of_Z 2000));
    ("Gyro_Z_deg_s", (of_Z (-2000), of_Z 2000));
    ("Altitud_m", (of_Z (-500), of_Z 100000)) ].

(** The row object a reference denotes.  References held by [data] are
    always positions of [originalData]; the default is never reached. *)
Definition deref (store : list Row) (r : nat) : Row :=
  default ∅ (store !! r).

(** Step 1, the callback of the first [data.filter] threaded over the
    array: [index] is the position in the array being filtered, [timeMap]
    the keys seen so far.  Returns the retained references and the entries
    pushed on [duplicatesRemoved]. *)
Fixpoint filterDuplicates (store : list Row) (data : list nat) (index : nat)
    (timeMap : list (option value)) : list nat * list DuplicateEntry :=
  match data with
  | [] => ([], [])
  | r :: rest =>
      let time := deref store r !! "Tiempo_ms" in
      if Map_has timeMap time then
        let '(kept, dups) := filterDuplicates store rest (S index) timeMap in
        (kept,
         {| dup_index := index; dup_time := time;
            dup_reason := "Duplicado de tiempo" |} :: dups)
      else
        let '(kept, dups) :=
          filterDuplicates store rest (S index) (Map_set timeMap time) in
        (r :: kept, dups)
  end.

(** The [for (const [column, range] of Object.entries(physicalRanges))]
    loop of the second callback: the entry pushed for the first violated
    column, if any. *)
Fixpoint firstViolation (row : Row) (index : nat)
    (ranges : list (string * (number * number))) : option OutlierEntry :=
  match ranges with
  | [] => None
  | (column, (lo, hi)) :: rest =>
      if present (row !! column) then
        let value := parseFloat (row !! column) in
        if isNaN value || lt value lo || gt value hi then
          Some {| out_index := index; out_column := column;
                  out_value := value;
                  out_minRange := lo; out_maxRange := hi;
                  out_reason :=
                    if isNaN value then NotNumeric
                    else if lt value lo then TooLow value lo
                    else TooHigh value hi |}
        else firstViolation row index rest
      else firstViolation row index rest
  end.

(** Step 2, the second [data.filter]: [index] is again the position in the
    array being filtered, which now is the array left by step 1. *)
Fixpoint filterOutliers (store : list Row) (data : list nat) (index : nat)
    : list nat * list OutlierEntry :=
  match data with
  | [] => ([], [])
  | r :: rest =>
      let '(kept, outs) := filterOutliers store rest (S index) in
      match firstViolation (deref store r) index physicalRanges with
      | Some entry => (kept, entry :: outs)
      | None => (r :: kept, outs)
      end
  end.

(** Step 3, the body of [data.forEach]: the assignment to
    [row['Altitud_m']]. *)
Definition adjustAltitude (baseAltitude : number) (row : Row) : Row :=
  if present (row !! "Altitud_m") then
    <["Altitud_m" := VNum (sub (parseFloat (row !! "Altitud_m")) baseAltitude)]> row
  else row.

(** [data.forEach(row => ...)]: every write goes to the shared row object. *)
Definition adjustAll (baseAltitude : number) (store : list Row)
    (data : list nat) : list Row :=
  fold_left
    (fun st r => <[r := adjustAltitude baseAltitude (deref st r)]> st)
    data store.

(** [parseFloat(document.getElementById('baseAltitude').value) || 571]. *)
Definition baseAltitudeOf (input : string) : number :=
  or_else (Some (parseFloat_string input)) (of_Z 571).

(** What a run of [cleanData] leaves behind: the row objects as
    [originalData] now shows them, the new [cleanedData] array and the
    arguments handed to [displayCleaningSummary] and
    [displayCleaningDetails]. *)
Record Outcome := {
  originalData : list Row;
  cleanedData : list nat;
  isDataCleaned : bool;
  originalCount : nat;
  cleanedCount : nat;
  duplicatesRemoved : list DuplicateEntry;
  outliersRemoved : list OutlierEntry;
  baseAltitude : number
}.

(** The rows of the cleaned dataset, read through the references. *)
Definition cleanedRows (o : Outcome) : list Row :=
  map (deref (originalData o)) (cleanedData o).

(** [cleanData()], with the two things it reads from its environment as
    arguments: the global [originalData] ([None] when it is still [null])
    and the text of the [baseAltitude] input field. *)
Definition cleanData (original : option (list Row)) (baseInput : string)
    : option Outcome :=
  match original with
  | None => None
  | Some store =>
      let baseAltitude := baseAltitudeOf baseInput in
      let data := seq 0 (length store) in
      let originalCount := length data in
      let '(data, duplicatesRemoved) := filterDuplicates store data 0 [] in
      let '(data, outliersRemoved) := filterOutliers store data 0 in
      let store := adjustAll baseAltitude store data in
      Some {| originalData := store;
              cleanedData := data;
              isDataCleaned := true;
              originalCount := originalCount;
              cleanedCount := length data;
              duplicatesRemoved := duplicatesRemoved;
              outliersRemoved := outliersRemoved;
              baseAltitude := baseAltitude |}
  end.

End Cleaning.

(** ** Sample datasets *)

Module Samples.

(** The scenario of the specification: [Tiempo_ms = [0,100,100,200]],
    [Temperatura_C = [20,21,21,999]]. *)
Definition scenario : list Row :=
  [ csvRow [("Tiempo_ms", "0"); ("Temperatura_C", "20")];
    csvRow [("Tiempo_ms", "100"); ("Temperatura_C", "21")];
    csvRow [("Tiempo_ms", "100"); ("Temperatura_C", "21")];
    csvRow [("Tiempo_ms", "200"); ("Temperatura_C", "999")] ].

(** One row whose raw altitude is 600. *)
Definition altitude600 : Row :=
  csvRow [("Tiempo_ms", "0"); ("Altitud_m", "600")].

(** Two of the three rows came from CSV lines too short to hold a time. *)
Definition missingTime : list Row :=
  [ csvRow [("Temperatura_C", "20")];
    csvRow [("Tiempo_ms", "5"); ("Temperatura_C", "21")];
    csvRow [("Temperatura_C", "22")] ].

Definition profileHeaders : list string := ["Resistencia_kOhms"; "Altitud_m"].

(** Three rows with numeric resistance and non-zero altitude. *)
Definition profileRows : list Row :=
  [ csvRow [("Resistencia_kOhms", "100"); ("Altitud_m", "5")];
    csvRow [("Resistencia_kOhms", "200"); ("Altitud_m", "20")];
    csvRow [("Resistencia_kOhms", "300"); ("Altitud_m", "30")] ].

(** A non-numeric resistance in the first row and an altitude of 0 in the
    second. *)
Definition raggedRows : list Row :=
  [ csvRow [("Resistencia_kOhms", "x"); ("Altitud_m", "10")];
    csvRow [("Resistencia_kOhms", "200"); ("Altitud_m", "0")];
    csvRow [("Resistencia_kOhms", "300"); ("Altitud_m", "30")] ].

(** Two readings, a very poor one and an excellent one, and no altitude
    column. *)
Definition twoReadings : list Row :=
  [ csvRow [("Resistencia_kOhms", "10")];
    csvRow [("Resistencia_kOhms", "390")] ].

End Samples.

(** ** The air-quality classifier *)

Module AirQuality.

(** The keys of [airQualityMetrics] and of a classification object, in
    insertion order. *)
Inductive Tier := excellent | good | moderate | poor | veryPoor.

#[export] Instance Tier_eq_dec : EqDecision Tier.
Proof. solve_decision. Defined.

(** The classification object: one array per key. *)
Record Classification := {
  cl_excellent : list number;
  cl_good : list number;
  cl_moderate : list number;
  cl_poor : list number;
  cl_veryPoor : list number
}.

(** [qualityAnalysis[key]]. *)
Definition members (c : Classification) (key : Tier) : list number :=
  match key with
  | excellent => cl_excellent c
  | good => cl_good c
  | moderate => cl_moderate c
  | poor => cl_poor c
  | veryPoor => cl_veryPoor c
  end.

(** [qualityAnalysis[key].length]. *)
Definition count (qualityAnalysis : Classification) (key : Tier) : nat :=
  length (members qualityAnalysis key).

(** [Object.keys(qualityAnalysis)]. *)
Definition keys : list Tier := [excellent; good; moderate; poor; veryPoor].

(** The position of a key in that order. *)
Definition position (key : Tier) : nat :=
  match key with
  | excellent => 0
  | good => 1
  | moderate => 2
  | poor => 3
  | veryPoor => 4
  end.

(** [totalData] in [generateQualityOverview]:
    [Object.values(qualityAnalysis).reduce((sum, arr) => sum + arr.length, 0)]. *)
Definition totalData (qualityAnalysis : Classification) : nat :=
  fold_left (fun sum arr => (sum + length arr)%nat)
            (map (members qualityAnalysis) keys) 0%nat.

(** [classification[key].push(value)]. *)
Definition push (c : Classification) (key : Tier) (value : number)
    : Classification :=
  match key with
  | excellent =>
      {| cl_excellent := cl_excellent c ++ [value]; cl_good := cl_good c;
         cl_moderate := cl_moderate c; cl_poor := cl_poor c;
         cl_veryPoor := cl_veryPoor c |}
  | good =>
      {| cl_excellent := cl_excellent c; cl_good := cl_good c ++ [value];
         cl_moderate := cl_moderate c; cl_poor := cl_poor c;
         cl_veryPoor := cl_veryPoor c |}
  | moderate =>
      {| cl_excellent := cl_excellent c; cl_good := cl_good c;
         cl_moderate := cl_moderate c ++ [value]; cl_poor := cl_poor c;
         cl_veryPoor := cl_veryPoor c |}
  | poor =>
      {| cl_excellent := cl_excellent c; cl_good := cl_good c;
         cl_moderate := cl_moderate c; cl_poor := cl_poor c ++ [value];
         cl_veryPoor := cl_veryPoor c |}
  | veryPoor =>
      {| cl_excellent := cl_excellent c; cl_good := cl_good c;
         cl_moderate := cl_moderate c; cl_poor := cl_poor c;
         cl_veryPoor := cl_veryPoor c ++ [value] |}
  end.

(** The [if / else if] chain of the [forEach] callback. *)
Definition tierOf (value : number) : Tier :=
  if ge value (of_Z 300) then excellent
  else if ge value (of_Z 200) then good
  else if ge value (of_Z 100) then moderate
  else if ge value (of_Z 50) then poor
  else veryPoor.

Definition emptyClassification : Classification :=
  {| cl_excellent := []; cl_good := []; cl_moderate := []; cl_poor := [];
     cl_veryPoor := [] |}.

Definition classifyAirQuality (resistanceData : list number)
    : Classification :=
  fold_left (fun classification value =>
               push classification (tierOf value) value)
            resistanceData emptyClassification.

(** [Array.prototype.reduce] without an initial value; [None] stands for
    the TypeError raised on an empty array. *)
Definition reduce {A} (f : A -> A -> A) (l : list A) : option A :=
  match l with
  | [] => None
  | a :: rest => Some (fold_left f rest a)
  end.

(** [predominantQuality] in [generateQualityMetrics]:
    [Object.keys(qualityAnalysis).reduce((a, b) =>
       qualityAnalysis[a].length > qualityAnalysis[b].length ? a : b)]. *)
Definition predominantQuality (qualityAnalysis : Classification)
    : option Tier :=
  reduce (fun a b =>
            if (length (members qualityAnalysis b)
                <? length (members qualityAnalysis a))%nat
            then a else b)
         keys.

(** A point of the vertical profile: [{altitude, resistance}]. *)
Record Point := { altitude : number; resistance : number }.

(** [csvData.map(row => parseFloat(row[column])).filter(val => !isNaN(val))],
    the expression every caller uses to read a numeric column. *)
Definition numericColumn (csvData : list Row) (column : string)
    : list number :=
  filter (fun val => isNaN val = false)
         (map (fun row : Row => parseFloat (row !! column)) csvData).

(** [csvHeaders.includes(name)]. *)
Definition includes (csvHeaders : list string) (name : string) : bool :=
  existsb (String.eqb name) csvHeaders.

(** [processAltitudeData(resistanceData, interval)] on the branch
    [interval === 'all'], with the globals [csvHeaders] and [csvData] as
    arguments. *)
Definition processAltitudeData_all (csvHeaders : list string)
    (csvData : list Row) (resistanceData : list number) : list Point :=
  let altitudeData :=
    if includes csvHeaders "Altitud_m"
    then numericColumn csvData "Altitud_m"
    else replicate (length resistanceData) (of_Z 0) in
  imap (fun index resistance =>
          {| altitude := or_else (altitudeData !! index) (of_nat index);
             resistance := resistance |})
       resistanceData.

(** The vertical profile as [updateAirQualityAnalysis] requests it for the
    interval ['all']. *)
Definition profileAll (csvHeaders : list string) (csvData : list Row)
    : list Point :=
  processAltitudeData_all csvHeaders csvData
    (numericColumn csvData "Resistencia_kOhms").

End AirQuality.

(** ** The statistics engine: [calculateStats] *)

Module Stats.

(** [Array.prototype.sort(compareFn)].  The element [x] is placed after
    [y] when [compareFn(x, y) > 0]; equal elements keep their order, as the
    language requires of a sort.  With a consistent comparator every
    sorting algorithm returns this list. *)
Fixpoint insert (compareFn : number -> number -> number) (x : number)
    (l : list number) : list number :=
  match l with
  | [] => [x]
  | y :: l' =>
      if gt (compareFn x y) zero then y :: insert compareFn x l'
      else x :: l
  end.

Definition sort (compareFn : number -> number -> number)
    (l : list number) : list number :=
  fold_right (insert compareFn) [] l.

(** The comparator [(a, b) => a - b]. *)
Definition compareFn (a b : number) : number := sub a b.

(** The object [calculateStats] returns; indexing an empty array gives
    [undefined]. *)
Record Stats := {
  min : option number;
  max : option number;
  mean : number;
  median : option number;
  stdDev : number
}.

(** [calculateStats(values)].  Array lengths are below [2^32], so
    [sorted.length - 1] and [Math.floor(sorted.length / 2)] are computed on
    natural numbers; on the empty array both indices select nothing. *)
Definition calculateStats (values : list number) : Stats :=
  let sorted := sort compareFn values in
  let sum := fold_left (fun acc val => add acc val) values (of_Z 0) in
  let mean := div sum (of_nat (length values)) in
  let variance :=
    div (fold_left (fun acc val => add acc (pow2 (sub val mean)))
                   values (of_Z 0))
        (of_nat (length values)) in
  let stdDev := sqrt variance in
  {| min := sorted !! 0%nat;
     max := sorted !! (length sorted - 1)%nat;
     mean := mean;
     median := sorted !! (length sorted / 2)%nat;
     stdDev := stdDev |}.

End Stats.

(** ** Well-formed numbers in rows *)

(** The mantissa [m] stands at its canonical exponent [e]. *)
Definition canonical_pair (prec emax m e : Z) : Prop :=
  (0 <= m)%Z /\ SpecFloat.fexp prec emax (Zdigits2 m + e) = e.

(** Every number held by a cell is a well-formed binary64. *)
Definition wf_value (v : value) : Prop :=
  match v with
  | VNum x => valid x = true
  | _ => True
  end.

Definition wf_row (row : Row) : Prop :=
  forall column v, row !! column = Some v -> wf_value v.

(** ** Built-ins used by the remaining functions *)

Module Builtins.

Local Open Scope Z_scope.

(** [Math.max(...values)]: [-Infinity] for no argument, NaN as soon as one
    argument is NaN, and [+0] ranks above [-0]. *)
Fixpoint max_from (highest : number) (coerced : list number) : number :=
  match coerced with
  | [] => highest
  | x :: rest =>
      if isNaN x then NaN
      else
        match x, highest with
        | S754_zero false, S754_zero true => max_from x rest
        | _, _ => max_from (if gt x highest then x else highest) rest
        end
  end.

Definition Math_max (values : list number) : number :=
  max_from (S754_infinity true) values.

(** [Math.min(...values)]: [+Infinity] for no argument, NaN as soon as one
    argument is NaN, and [-0] ranks below [+0]. *)
Fixpoint min_from (lowest : number) (coerced : list number) : number :=
  match coerced with
  | [] => lowest
  | x :: rest =>
      if isNaN x then NaN
      else
        match x, lowest with
        | S754_zero true, S754_zero false => min_from x rest
        | _, _ => min_from (if lt x lowest then x else lowest) rest
        end
  end.

Definition Math_min (values : list number) : number :=
  min_from (S754_infinity false) values.

(** [Math.floor(x)].  A finite number with a fractional part has magnitude
    below [2^53], so its floor is an integer that [of_Z] represents
    exactly. *)
Definition Math_floor (x : number) : number :=
  match x with
  | S754_finite s m e =>
      if 0 <=? e then x
      else
        let q := Zpos m / 2 ^ (- e) in
        let exact := Zpos m mod 2 ^ (- e) =? 0 in
        if s then (if exact then of_Z (- q) else of_Z (- (q + 1)))
        else of_Z q
  | _ => x
  end.

(** The value of a digit in radix 10 or 16. *)
Definition radix_digit (radix : Z) (c : ascii) : option Z :=
  let n := Z.of_N (N_of_ascii c) in
  let v :=
    if (48 <=? n) && (n <=? 57) then n - 48
    else if (97 <=? n) && (n <=? 102) then n - 87
    else if (65 <=? n) && (n <=? 70) then n - 55
    else 99 in
  if v <? radix then Some v else None.

Fixpoint radix_digits (radix : Z) (s : string) (acc count : Z) : Z * Z :=
  match s with
  | String c s' =>
      match radix_digit radix c with
      | Some d => radix_digits radix s' (radix * acc + d) (count + 1)
      | None => (acc, count)
      end
  | EmptyString => (acc, count)
  end.

(** [parseInt(s)] without a radix argument: leading white space, a sign, an
    optional [0x] prefix selecting radix 16, then the longest run of digits,
    whose value is rounded to the nearest number; NaN when there is no
    digit. *)
Definition parseInt (input : string) : number :=
  let '(neg, s) := read_sign (skip_whitespace input) in
  let '(radix, s) :=
    match s with
    | String "0" (String "x" t) | String "0" (String "X" t) => (16, t)
    | _ => (10, s)
    end in
  let '(v, n) := radix_digits radix s 0 0 in
  if n =? 0 then NaN
  else if v =? 0 then S754_zero neg
  else of_Z (if neg then - v else v).

(** [haystack.includes(needle)] on strings. *)
Fixpoint String_includes (haystack needle : string) : bool :=
  if String.prefix needle haystack then true
  else
    match haystack with
    | String _ rest => String_includes rest needle
    | EmptyString => false
    end.

(** The integer a number denotes, when it denotes one. *)
Definition to_integer (x : number) : option Z :=
  match x with
  | S754_zero _ => Some 0
  | S754_finite s m e =>
      if 0 <=? e then Some ((if s then -1 else 1) * (Zpos m * 2 ^ e))
      else if Zpos m mod 2 ^ (- e) =? 0
           then Some ((if s then -1 else 1) * (Zpos m / 2 ^ (- e)))
           else None
  | _ => None
  end.

(** The array index a property key [ToString(x)] is, when it is one: the
    canonical decimal rendering of an integer from 0 to [2^32 - 2]. *)
Definition array_index (x : number) : option Z :=
  match to_integer x with
  | Some z => if (0 <=? z) && (z <=? 4294967294) then Some z else None
  | None => None
  end.

(** Two numbers give the same property key: [ToString] renders both zeros as
    ["0"] and NaN as ["NaN"], and distinct numbers differently. *)
Definition same_key (a b : number) : bool :=
  sameValueZero (Some (VNum a)) (Some (VNum b)).

End Builtins.

Import Builtins.

(** ** Loading: [validateCSVStructure] *)

Module Loading.

Definition expectedVariables : list string :=
  [ "Tiempo_ms"; "Temperatura_C"; "Humedad_%"; "Presion_hPa";
    "Resistencia_kOhms"; "Accel_X_m_s2"; "Accel_Y_m_s2"; "Accel_Z_m_s2";
    "Gyro_X_deg_s"; "Gyro_Y_deg_s"; "Gyro_Z_deg_s"; "Roll_deg"; "Pitch_deg";
    "Altitud_m" ].

(** [missingVariables] in [validateCSVStructure].  [toLowerCase] is the
    string method of the language, taken as it is. *)
Definition missingVariables (toLowerCase : string -> string)
    (csvHeaders : list string) : list string :=
  filter (fun variable =>
            existsb (fun header =>
                       String_includes (toLowerCase header)
                                       (toLowerCase variable))
                    csvHeaders = false)
         expectedVariables.

(** What [toLowerCase] does on text made of ASCII characters only: the
    letters A to Z are lower-cased and every other character is kept.  On
    other text this is not the method of the language; it is applied to
    ASCII text only. *)
Fixpoint asciiLowerCase (s : string) : string :=
  match s with
  | EmptyString => EmptyString
  | String c rest =>
      let n := N_of_ascii c in
      String (if ((65 <=? n) && (n <=? 90))%N then ascii_of_N (n + 32) else c)
             (asciiLowerCase rest)
  end.

End Loading.

(** ** Chart and statistics cards *)

Module Cards.

Import AirQuality Stats.

(** [isValid] in [validateChartOptions()], as a truth value: the generate
    button is enabled exactly when it holds. *)
Definition validateChartOptions (xAxis yAxis : string) : bool :=
  negb (String.eqb xAxis "") && negb (String.eqb yAxis "")
  && negb (String.eqb xAxis yAxis).

(** The data arrays of [generateChart]; [None] when an axis is not selected
    and the function returns after its alert. *)
Definition generateChart (xAxis yAxis : string) (csvData : list Row)
    : option (list number * list number) :=
  if String.eqb xAxis "" || String.eqb yAxis "" then None
  else Some (numericColumn csvData xAxis, numericColumn csvData yAxis).

(** What a card of [generateStatistics] shows: the column, its statistics
    and the number of points; the rendering of the numbers is left out. *)
Record StatCard := {
  card_header : string;
  card_stats : Stats;
  card_points : nat
}.

(** The body of [csvHeaders.forEach] in [generateStatistics]. *)
Definition statCard (csvData : list Row) (header : string)
    : option StatCard :=
  let values := numericColumn csvData header in
  if (0 <? length values)%nat then
    Some {| card_header := header;
            card_stats := calculateStats values;
            card_points := length values |}
  else None.

Definition generateStatistics (csvHeaders : list string)
    (csvData : list Row) : list StatCard :=
  omap (statCard csvData) csvHeaders.

End Cards.

(** ** Air-quality analysis *)

Module Quality.

Import AirQuality.

(** An entry of [airQualityMetrics]. *)
Record Metric := {
  m_min : number;
  m_max : number;
  m_label : string;
  m_color : string
}.

Definition airQualityMetrics (key : Tier) : Metric :=
  match key with
  | excellent => {| m_min := of_Z 300; m_max := Infinity;
                    m_label := "Excelente"; m_color := "#00ff88" |}
  | good => {| m_min := of_Z 200; m_max := of_Z 300;
               m_label := "Buena"; m_color := "#00ccff" |}
  | moderate => {| m_min := of_Z 100; m_max := of_Z 200;
                   m_label := "Moderada"; m_color := "#ffaa00" |}
  | poor => {| m_min := of_Z 50; m_max := of_Z 100;
               m_label := "Mala"; m_color := "#ff6600" |}
  | veryPoor => {| m_min := of_Z 0; m_max := of_Z 50;
                   m_label := "Muy mala"; m_color := "#ff0000" |}
  end.

(** The colour [generateQualityChart] gives a point. *)
Definition pointColor (resistance : number) : string :=
  if ge resistance (of_Z 300) then "#00ff88"
  else if ge resistance (of_Z 200) then "#00ccff"
  else if ge resistance (of_Z 100) then "#ffaa00"
  else if ge resistance (of_Z 50) then "#ff6600"
  else "#ff0000".

(** The quality named in the hover text of a point. *)
Definition pointQuality (resistance : number) : string :=
  if ge resistance (of_Z 300) then "Excelente"
  else if ge resistance (of_Z 200) then "Buena"
  else if ge resistance (of_Z 100) then "Moderada"
  else if ge resistance (of_Z 50) then "Mala"
  else "Muy mala".

(** A point returned by [processAltitudeData]; [count] exists only on the
    averaged points. *)
Record Reading := {
  r_altitude : number;
  r_resistance : number;
  r_count : option nat
}.

(** [groups[groupKey]]: the object [groups] as the list of its entries in
    creation order. *)
Fixpoint addToGroup (groups : list (number * list Point)) (groupKey : number)
    (point : Point) : list (number * list Point) :=
  match groups with
  | [] => [(groupKey, [point])]
  | (key, points) :: rest =>
      if same_key key groupKey then (key, points ++ [point]) :: rest
      else (key, points) :: addToGroup rest groupKey point
  end.

(** Insertion of an entry among entries sorted by array index. *)
Fixpoint insertIndexed {A} (z : Z) (entry : A) (l : list (Z * A))
    : list (Z * A) :=
  match l with
  | [] => [(z, entry)]
  | (z', entry') :: rest =>
      if (z <? z')%Z then (z, entry) :: l
      else (z', entry') :: insertIndexed z entry rest
  end.

(** [Object.keys(groups)], as the entries in that order: the keys that are
    array indices in ascending order, then the other keys in creation
    order. *)
Definition orderedEntries (groups : list (number * list Point))
    : list (number * list Point) :=
  let indexed :=
    fold_right (fun entry acc =>
                  match array_index entry.1 with
                  | Some z => insertIndexed z entry acc
                  | None => acc
                  end) [] groups in
  let named :=
    filter (fun entry => array_index entry.1 = None) groups in
  indexed.*2 ++ named.

(** [Array.prototype.sort] with the comparator
    [(a, b) => a.altitude - b.altitude]: a point is placed after another
    when the comparator is positive, and points of equal altitude keep
    their order, as the language requires of a sort. *)
Fixpoint insertByAltitude (x : Reading) (l : list Reading) : list Reading :=
  match l with
  | [] => [x]
  | y :: l' =>
      if gt (sub (r_altitude x) (r_altitude y)) zero
      then y :: insertByAltitude x l'
      else x :: l
  end.

Definition sortByAltitude (l : list Reading) : list Reading :=
  fold_right insertByAltitude [] l.

(** The averaged point of one group. *)
Definition averageGroup (group : list Point) : Reading :=
  {| r_altitude :=
       div (fold_left (fun sum point => add sum (altitude point)) group
                      (of_Z 0))
           (of_nat (length group));
     r_resistance :=
       div (fold_left (fun sum point => add sum (resistance point)) group
                      (of_Z 0))
           (of_nat (length group));
     r_count := Some (length group) |}.

(** The [altitudeData] both branches of [processAltitudeData] compute. *)
Definition altitudeDataOf (csvHeaders : list string) (csvData : list Row)
    (resistanceData : list number) : list number :=
  if includes csvHeaders "Altitud_m"
  then numericColumn csvData "Altitud_m"
  else replicate (length resistanceData) (of_Z 0).

(** The [groups] object built by the [forEach] of the averaging branch. *)
Definition groupReadings (altitudeData resistanceData : list number)
    (intervalSize : number) : list (number * list Point) :=
  fold_left
    (fun groups '(index, resistance) =>
       let altitude := or_else (altitudeData !! index) (of_nat index) in
       let groupKey :=
         mul (Math_floor (div altitude intervalSize)) intervalSize in
       addToGroup groups groupKey
                  {| altitude := altitude; resistance := resistance |})
    (imap (fun index resistance => (index, resistance)) resistanceData)
    [].

(** [processAltitudeData(resistanceData, interval)], with the globals
    [csvHeaders] and [csvData] as arguments. *)
Definition processAltitudeData (csvHeaders : list string) (csvData : list Row)
    (resistanceData : list number) (interval : string) : list Reading :=
  if String.eqb interval "all" then
    let altitudeData := altitudeDataOf csvHeaders csvData resistanceData in
    imap (fun index resistance =>
            {| r_altitude := or_else (altitudeData !! index) (of_nat index);
               r_resistance := resistance;
               r_count := None |})
         resistanceData
  else
    let intervalSize := parseInt interval in
    let altitudeData := altitudeDataOf csvHeaders csvData resistanceData in
    let groups := groupReadings altitudeData resistanceData intervalSize in
    sortByAltitude (map (fun entry => averageGroup entry.2)
                        (orderedEntries groups)).

(** What [generateQualityChart] hands to Plotly for the points: the two
    coordinates, the colour of every marker and the quality named in every
    hover text. *)
Record Trace := {
  trace_x : list number;
  trace_y : list number;
  trace_color : list string;
  trace_quality : list string
}.

(** [generateQualityChart(resistanceData)], with the globals and the value
    of the [altitudeInterval] selector as arguments; the layout is left
    out. *)
Definition generateQualityChart (csvHeaders : list string)
    (csvData : list Row) (resistanceData : list number) (interval : string)
    : Trace :=
  let processedData :=
    processAltitudeData csvHeaders csvData resistanceData interval in
  {| trace_x := map r_altitude processedData;
     trace_y := map r_resistance processedData;
     trace_color :=
       map (fun point => pointColor (r_resistance point)) processedData;
     trace_quality :=
       map (fun point => pointQuality (r_resistance point)) processedData |}.

(** The numbers [generateQualityMetrics] shows, before they are rendered. *)
Record QualityMetrics := {
  avgResistance : number;
  maxResistance : number;
  minResistance : number;
  predominant : option Tier;
  predominantPercent : option number
}.

Definition generateQualityMetrics (qualityAnalysis : Classification)
    (resistanceData : list number) : QualityMetrics :=
  let totalData := of_nat (length resistanceData) in
  let p := predominantQuality qualityAnalysis in
  {| avgResistance :=
       div (fold_left (fun sum val => add sum val) resistanceData (of_Z 0))
           totalData;
     maxResistance := Math_max resistanceData;
     minResistance := Math_min resistanceData;
     predominant := p;
     predominantPercent :=
       (fun key =>
          mul (div (of_nat (length (members qualityAnalysis key))) totalData)
              (of_Z 100)) <$> p |}.

(** What an analysis leaves for display. *)
Record Analysis := {
  qualityAnalysis : Classification;
  chartPoints : list Reading;
  metrics : QualityMetrics
}.

(** [generateAirQualityAnalysis()], with the globals [csvData] and
    [csvHeaders] and the value of the [altitudeInterval] selector as
    arguments; [None] when it returns after its alert. *)
Definition generateAirQualityAnalysis (csvData : option (list Row))
    (csvHeaders : list string) (interval : string) : option Analysis :=
  match csvData with
  | None => None
  | Some csvData =>
      if includes csvHeaders "Resistencia_kOhms" then
        let resistanceData := numericColumn csvData "Resistencia_kOhms" in
        let qualityAnalysis := classifyAirQuality resistanceData in
        Some {| qualityAnalysis := qualityAnalysis;
                chartPoints :=
                  processAltitudeData csvHeaders csvData resistanceData
                                      interval;
                metrics :=
                  generateQualityMetrics qualityAnalysis resistanceData |}
      else None
  end.

(** [updateAirQualityAnalysis()]: the classification and the metrics are
    taken over the processed points. *)
Definition updateAirQualityAnalysis (csvData : option (list Row))
    (csvHeaders : list string) (interval : string) : option Analysis :=
  match csvData with
  | None => None
  | Some csvData =>
      if includes csvHeaders "Resistencia_kOhms" then
        let resistanceData := numericColumn csvData "Resistencia_kOhms" in
        let processedData :=
          processAltitudeData csvHeaders csvData resistanceData interval in
        let qualityAnalysis :=
          classifyAirQuality (map r_resistance processedData) in
        Some {| qualityAnalysis := qualityAnalysis;
                chartPoints :=
                  processAltitudeData csvHeaders csvData resistanceData
                                      interval;
                metrics :=
                  generateQualityMetrics qualityAnalysis
                                         (map r_resistance processedData) |}
      else None
  end.

End Quality.

(* ===================================================================== *)
(** * Part II: properties *)
(* ===================================================================== *)

(** ** Facts about binary floating-point rounding

    Stated for any format; instantiated at binary64 below. *)

Section Binary.

Local Open Scope Z_scope.

Variables prec emax : Z.
Hypothesis prec_gt_0 : 0 < prec.
Hypothesis prec_lt_emax : prec < emax.

Local Abbreviation emin := (SpecFloat.emin prec emax).
Local Abbreviation fexp := (SpecFloat.fexp prec emax).

Lemma fexp_ge_emin k : emin <= fexp k.
Proof. unfold SpecFloat.fexp. lia. Qed.

Lemma digits2_pos_size p : digits2_pos p = Pos.size p.
Proof. induction p; simpl; congruence. Qed.

Lemma digits2_pos_bounds p :
  2 ^ (Zpos (digits2_pos p) - 1) <= Zpos p < 2 ^ Zpos (digits2_pos p).
Proof.
  rewrite digits2_pos_size. split.
  - pose proof (Pos.size_le p) as H.
    apply Pos2Z.pos_le_pos in H. rewrite Pos2Z.inj_pow in H.
    assert (E : 2 ^ Zpos (Pos.size p) = 2 * 2 ^ (Zpos (Pos.size p) - 1)).
    { rewrite <- Z.pow_succ_r by lia. f_equal. lia. }
    rewrite E in H. lia.
  - pose proof (Pos.size_gt p) as H.
    apply Pos2Z.pos_lt_pos in H. now rewrite Pos2Z.inj_pow in H.
Qed.

Lemma iter_xO_Z m k : Zpos (Pos.iter xO m k) = Zpos m * 2 ^ Zpos k.
Proof.
  revert m. induction k using Pos.peano_ind; intros m.
  - simpl. lia.
  - rewrite Pos.iter_succ, Pos2Z.inj_xO, IHk, Pos2Z.inj_succ, Z.pow_succ_r by lia. lia.
Qed.

Lemma digits2_pos_iter_xO m k :
  Zpos (digits2_pos (Pos.iter xO m k)) = Zpos (digits2_pos m) + Zpos k.
Proof.
  induction k using Pos.peano_ind.
  - simpl. lia.
  - rewrite Pos.iter_succ. simpl. lia.
Qed.

Section IterPos.

Context {A : Type} (f : A -> A) (P : A -> Prop).
Hypothesis P_step : forall x, P x -> P (f x).

Lemma iter_pos_invariant n : forall x, P x -> P (SpecFloat.iter_pos f n x).
Proof. induction n; simpl; auto. Qed.

End IterPos.

Lemma shr_1_div2 r : 0 <= shr_m r -> shr_m (shr_1 r) = shr_m r / 2.
Proof.
  destruct r as [m b s]. simpl. intros Hm.
  destruct m as [|p|p]; [reflexivity| |lia].
  destruct p; simpl shr_m.
  - rewrite Pos2Z.inj_xI. apply (Z.div_unique _ _ _ 1); lia.
  - rewrite Pos2Z.inj_xO. apply (Z.div_unique _ _ _ 0); lia.
  - reflexivity.
Qed.

Lemma shr_1_nonneg r : 0 <= shr_m r -> 0 <= shr_m (shr_1 r).
Proof. intros H. rewrite shr_1_div2 by exact H. apply Z.div_pos; lia. Qed.

Lemma iter_shr_1_nonneg n r : 0 <= shr_m r -> 0 <= shr_m (SpecFloat.iter_pos shr_1 n r).
Proof. apply (iter_pos_invariant shr_1 (fun r => 0 <= shr_m r)), shr_1_nonneg. Qed.

Lemma iter_shr_1_div n : forall r,
  0 <= shr_m r -> shr_m (SpecFloat.iter_pos shr_1 n r) = shr_m r / 2 ^ Zpos n.
Proof.
  induction n as [n IH|n IH|]; intros r Hr; simpl SpecFloat.iter_pos.
  - rewrite IH by (apply iter_shr_1_nonneg, shr_1_nonneg, Hr).
    rewrite IH by (apply shr_1_nonneg, Hr).
    rewrite shr_1_div2 by exact Hr.
    rewrite !Z.div_div by lia.
    f_equal. rewrite <- Z.pow_add_r, <- Z.pow_succ_r by lia.
    f_equal. lia.
  - rewrite IH by (apply iter_shr_1_nonneg, Hr).
    rewrite IH by exact Hr.
    rewrite !Z.div_div by lia.
    f_equal. rewrite <- Z.pow_add_r by lia.
    f_equal. lia.
  - rewrite shr_1_div2 by exact Hr. reflexivity.
Qed.




Lemma shr_record_of_loc_m m l : shr_m (shr_record_of_loc m l) = m.
Proof. destruct l as [|[]]; reflexivity. Qed.

Lemma round_nearest_even_ge m l : m <= round_nearest_even m l.
Proof. destruct l as [|[]]; simpl; try destruct (Z.even m); lia. Qed.

Lemma shr_fexp_nonneg m e l : 0 <= m -> 0 <= shr_m (fst (shr_fexp prec emax m e l)).
Proof.
  intros Hm. unfold shr_fexp, shr.
  destruct (_ - e); simpl; rewrite ?shr_record_of_loc_m; auto.
  apply iter_shr_1_nonneg. now rewrite shr_record_of_loc_m.
Qed.

Lemma binary_round_aux_sign s mx ex lx :
  0 <= mx -> has_sign s (binary_round_aux prec emax s mx ex lx).
Proof.
  intros Hm. unfold binary_round_aux.
  pose proof (shr_fexp_nonneg mx ex lx Hm) as H1.
  destruct (shr_fexp prec emax mx ex lx) as [mrs' e']. simpl in H1.
  pose proof (round_nearest_even_ge (shr_m mrs') (loc_of_shr_record mrs')) as H2.
  pose proof (shr_fexp_nonneg (round_nearest_even (shr_m mrs') (loc_of_shr_record mrs'))
                e' loc_Exact ltac:(lia)) as H3.
  destruct (shr_fexp prec emax _ e' loc_Exact) as [mrs'' e'']. simpl in H3.
  destruct (shr_m mrs'') as [|p|p]; simpl; [reflexivity| |lia].
  destruct (e'' <=? emax - prec); reflexivity.
Qed.

Lemma shr_fexp_pos m e l :
  0 < m -> emin <= e ->
  0 < shr_m (fst (shr_fexp prec emax m e l)) /\ emin <= snd (shr_fexp prec emax m e l).
Proof.
  intros Hm He. destruct m as [|p|p]; try lia.
  unfold shr_fexp, shr. simpl Zdigits2.
  pose proof (digits2_pos_bounds p) as [Hlo _].
  set (d := Zpos (digits2_pos p)) in *.
  destruct (fexp (d + e) - e) as [|k|k] eqn:En; simpl;
    rewrite ?shr_record_of_loc_m; try (split; lia).
  rewrite iter_shr_1_div by (rewrite shr_record_of_loc_m; lia).
  rewrite shr_record_of_loc_m.
  unfold SpecFloat.fexp in *.
  assert (Hk : Zpos k = d - prec) by lia.
  split; [|lia].
  apply Z.div_str_pos. split; [apply Z.pow_pos_nonneg; lia|].
  etransitivity; [|exact Hlo].
  apply Z.pow_le_mono_r; lia.
Qed.

Lemma binary_round_aux_pos s mx ex lx :
  0 < mx -> emin <= ex -> pos_sign s (binary_round_aux prec emax s mx ex lx).
Proof.
  intros Hm He. unfold binary_round_aux.
  pose proof (shr_fexp_pos mx ex lx Hm He) as [H1 H1e].
  destruct (shr_fexp prec emax mx ex lx) as [mrs' e']. simpl in H1, H1e.
  pose proof (round_nearest_even_ge (shr_m mrs') (loc_of_shr_record mrs')) as H2.
  pose proof (shr_fexp_pos (round_nearest_even (shr_m mrs') (loc_of_shr_record mrs'))
                e' loc_Exact ltac:(lia) H1e) as [H3 _].
  destruct (shr_fexp prec emax _ e' loc_Exact) as [mrs'' e'']. simpl in H3.
  destruct (shr_m mrs'') as [|p|p]; simpl; try lia.
  destruct (e'' <=? emax - prec); reflexivity.
Qed.

Lemma binary_round_sign s mx ex : has_sign s (binary_round prec emax s mx ex).
Proof.
  unfold binary_round. destruct (shl_align mx ex _) as [mz ez].
  apply binary_round_aux_sign. lia.
Qed.

Lemma binary_round_pos s mx ex :
  emin <= ex -> pos_sign s (binary_round prec emax s mx ex).
Proof.
  intros He. unfold binary_round.
  destruct (shl_align mx ex _) as [mz ez] eqn:E.
  apply binary_round_aux_pos; [lia|].
  unfold shl_align in E.
  destruct (_ - ex); injection E as _ <-; first [exact He | apply fexp_ge_emin].
Qed.

Lemma binary_round_aux_canonical s m e :
  canonical_mantissa prec emax m e = true -> e <= emax - prec ->
  binary_round_aux prec emax s (Zpos m) e loc_Exact = S754_finite s m e.
Proof.
  unfold canonical_mantissa. intros Hc He. apply Z.eqb_eq in Hc.
  unfold binary_round_aux, shr_fexp. simpl Zdigits2.
  rewrite Hc, Z.sub_diag.
  cbn [shr shr_record_of_loc shr_m loc_of_shr_record round_nearest_even Zdigits2].
  rewrite Hc, Z.sub_diag.
  cbn [shr shr_record_of_loc shr_m].
  apply Z.leb_le in He. now rewrite He.
Qed.

Lemma binary_round_small s p :
  Zpos (digits2_pos p) <= prec ->
  exists m e, binary_round prec emax s p 0 = S754_finite s m e.
Proof.
  intros Hd. unfold binary_round.
  assert (Hf : fexp (Zpos (digits2_pos p) + 0) <= 0)
    by (unfold SpecFloat.fexp, SpecFloat.emin; lia).
  unfold shl_align.
  destruct (fexp (Zpos (digits2_pos p) + 0) - 0) as [|k|k] eqn:Ek; try lia.
  - exists p, 0. apply binary_round_aux_canonical; [|lia].
    unfold canonical_mantissa. apply Z.eqb_eq. lia.
  - exists (Pos.iter xO p k), (fexp (Zpos (digits2_pos p) + 0)).
    apply binary_round_aux_canonical; [|lia].
    unfold canonical_mantissa. apply Z.eqb_eq.
    rewrite digits2_pos_iter_xO. f_equal. lia.
Qed.




Lemma has_sign_not_nan s x : has_sign s x -> isNaN x = false.
Proof. destruct x; simpl; tauto. Qed.

Lemma has_sign_false_ge0 x :
  has_sign false x -> SFleb (S754_zero false) x = true.
Proof. destruct x as [s|s| |s m e]; simpl; intros H; subst; tauto. Qed.

Lemma pos_sign_gt0 s x :
  pos_sign s x -> SFltb (S754_zero false) x = negb s.
Proof. destruct x as [?|s'| |s' m e]; simpl; intros H; subst; try tauto; now destruct s. Qed.

(** *** Alignment of two finite operands (the integer sum of [SFadd]/[SFsub]) *)

Lemma shl_align_fst mx ex ez :
  ez <= ex -> Zpos (fst (shl_align mx ex ez)) = Zpos mx * 2 ^ (ex - ez).
Proof.
  intros H. unfold shl_align.
  destruct (ez - ex) as [|k|k] eqn:E; simpl fst.
  - replace (ex - ez) with 0 by lia. simpl. lia.
  - lia.
  - rewrite iter_xO_Z. do 2 f_equal. lia.
Qed.

Lemma bounded_digits m e :
  bounded prec emax m e = true -> Zpos (digits2_pos m) <= prec /\ emin <= e.
Proof.
  unfold bounded, canonical_mantissa, SpecFloat.fexp.
  intros H. apply andb_true_iff in H as [H _]. apply Z.eqb_eq in H. lia.
Qed.

Lemma bounded_normal m e :
  bounded prec emax m e = true -> emin < e -> Zpos (digits2_pos m) = prec.
Proof.
  unfold bounded, canonical_mantissa, SpecFloat.fexp.
  intros H. apply andb_true_iff in H as [H _]. apply Z.eqb_eq in H. lia.
Qed.

Lemma aligned_lt mx ex my ey :
  bounded prec emax mx ex = true -> bounded prec emax my ey = true ->
  ex < ey -> Zpos mx < Zpos my * 2 ^ (ey - ex).
Proof.
  intros Hx Hy Hlt.
  destruct (bounded_digits _ _ Hx) as [Hdx Hex].
  pose proof (bounded_normal _ _ Hy ltac:(lia)) as Hdy.
  destruct (digits2_pos_bounds mx) as [_ Hmx].
  destruct (digits2_pos_bounds my) as [Hmy _].
  rewrite Hdy in Hmy.
  assert (H1 : Zpos mx < 2 ^ prec).
  { eapply Z.lt_le_trans; [exact Hmx|]. apply Z.pow_le_mono_r; lia. }
  assert (H2 : 2 ^ 1 <= 2 ^ (ey - ex)) by (apply Z.pow_le_mono_r; lia).
  assert (H3 : 2 ^ prec = 2 ^ (prec - 1) * 2 ^ 1).
  { rewrite <- Z.pow_add_r by lia. f_equal. lia. }
  assert (H4 : 0 < 2 ^ (prec - 1)) by (apply Z.pow_pos_nonneg; lia).
  nia.
Qed.

Lemma binary_normalize_gt0 m e :
  emin <= e ->
  SFltb (S754_zero false) (binary_normalize prec emax m e false) = (0 <? m).
Proof.
  intros He. destruct m as [|p|p]; simpl binary_normalize.
  - reflexivity.
  - now rewrite (pos_sign_gt0 false) by (apply binary_round_pos, He).
  - now rewrite (pos_sign_gt0 true) by (apply binary_round_pos, He).
Qed.

Lemma finite_compare_lt mx ex my ey :
  bounded prec emax mx ex = true -> bounded prec emax my ey = true ->
  match (match ey ?= ex with
         | Eq => Pos.compare_cont Eq my mx
         | Lt => Lt
         | Gt => Gt
         end) with
  | Lt => true
  | _ => false
  end
  = (Zpos my * 2 ^ (ey - Z.min ex ey) <? Zpos mx * 2 ^ (ex - Z.min ex ey)).
Proof.
  intros Hx Hy.
  change (Pos.compare_cont Eq my mx) with (Pos.compare my mx).
  destruct (Z.compare_spec ey ex) as [E|E|E].
  - subst. rewrite Z.min_id, Z.sub_diag, !Z.mul_1_r.
    rewrite Pos2Z.inj_compare.
    destruct (Z.compare_spec (Zpos my) (Zpos mx)); symmetry;
      [apply Z.ltb_ge|apply Z.ltb_lt|apply Z.ltb_ge]; lia.
  - rewrite Z.min_r by lia. rewrite Z.sub_diag, Z.mul_1_r.
    symmetry. apply Z.ltb_lt. now apply aligned_lt.
  - rewrite Z.min_l by lia. rewrite Z.sub_diag, Z.mul_1_r.
    symmetry. apply Z.ltb_ge. pose proof (aligned_lt _ _ _ _ Hx Hy E). lia.
Qed.

Lemma finite_compare_gt mx ex my ey :
  bounded prec emax mx ex = true -> bounded prec emax my ey = true ->
  match (match ey ?= ex with
         | Eq => CompOpp (Pos.compare_cont Eq my mx)
         | Lt => Gt
         | Gt => Lt
         end) with
  | Lt => true
  | _ => false
  end
  = (Zpos mx * 2 ^ (ex - Z.min ex ey) <? Zpos my * 2 ^ (ey - Z.min ex ey)).
Proof.
  intros Hx Hy.
  change (Pos.compare_cont Eq my mx) with (Pos.compare my mx).
  destruct (Z.compare_spec ey ex) as [E|E|E].
  - subst. rewrite Z.min_id, Z.sub_diag, !Z.mul_1_r.
    rewrite Pos2Z.inj_compare.
    destruct (Z.compare_spec (Zpos my) (Zpos mx)); symmetry;
      [apply Z.ltb_ge|apply Z.ltb_ge|apply Z.ltb_lt]; lia.
  - rewrite Z.min_r by lia. rewrite Z.sub_diag, Z.mul_1_r.
    symmetry. apply Z.ltb_ge. pose proof (aligned_lt _ _ _ _ Hy Hx E). lia.
  - rewrite Z.min_l by lia. rewrite Z.sub_diag, Z.mul_1_r.
    symmetry. apply Z.ltb_lt. now apply aligned_lt.
Qed.

(** The comparator [a - b] is positive exactly when [b < a]. *)
Lemma SFsub_gt0 x y :
  valid_binary prec emax x = true -> valid_binary prec emax y = true ->
  isNaN x = false -> isNaN y = false ->
  SFltb (S754_zero false) (SFsub prec emax x y) = SFltb y x.
Proof.
  intros Vx Vy Nx Ny.
  destruct x as [sx|sx| |sx mx ex], y as [sy|sy| |sy my ey];
    try discriminate; try (destruct sx, sy; reflexivity);
    try (destruct sx; reflexivity); try (destruct sy; reflexivity).
  simpl in Vx, Vy.
  destruct (bounded_digits _ _ Vx) as [_ Hex], (bounded_digits _ _ Vy) as [_ Hey].
  unfold SFsub. rewrite binary_normalize_gt0 by lia.
  rewrite !shl_align_fst by lia.
  pose proof (finite_compare_lt mx ex my ey Vx Vy) as Hpos.
  pose proof (finite_compare_gt mx ex my ey Vx Vy) as Hneg.
  assert (0 < Zpos mx * 2 ^ (ex - Z.min ex ey)) by (apply Z.mul_pos_pos; [lia|apply Z.pow_pos_nonneg; lia]).
  assert (0 < Zpos my * 2 ^ (ey - Z.min ex ey)) by (apply Z.mul_pos_pos; [lia|apply Z.pow_pos_nonneg; lia]).
  unfold SFltb, SFcompare. destruct sx, sy; unfold cond_Zopp;
    rewrite ?Hneg, ?Hpos;
    repeat match goal with
           | |- context [?a <? ?b] => destruct (Z.ltb_spec a b)
           end; try reflexivity; lia.
Qed.


(** *** [SFcompare] is a total preorder on numbers other than NaN *)

Lemma SFcompare_not_nan x y :
  isNaN x = false -> isNaN y = false -> exists c, SFcompare x y = Some c.
Proof. destruct x, y; simpl; intros; try discriminate; eauto. Qed.

Lemma SFcompare_swap x y :
  SFcompare y x = option_map CompOpp (SFcompare x y).
Proof.
  destruct x as [sx|sx| |sx mx ex], y as [sy|sy| |sy my ey]; simpl;
    try reflexivity; try (destruct sx, sy; reflexivity);
    try (destruct sx; reflexivity); try (destruct sy; reflexivity).
  change (Pos.compare_cont Eq my mx) with (Pos.compare my mx).
  change (Pos.compare_cont Eq mx my) with (Pos.compare mx my).
  rewrite (Z.compare_antisym ex ey), (Pos.compare_antisym mx my).
  destruct sx, sy; try reflexivity;
    destruct (ex ?= ey); simpl; try reflexivity;
    destruct (mx ?= my)%positive; reflexivity.
Qed.

Lemma SFltb_false_SFleb x y :
  isNaN x = false -> isNaN y = false ->
  SFltb y x = false -> SFleb x y = true.
Proof.
  intros Nx Ny. unfold SFltb, SFleb. rewrite (SFcompare_swap x y).
  destruct (SFcompare_not_nan x y Nx Ny) as [c ->].
  destruct c; simpl; congruence.
Qed.

Lemma SFleb_not_nan x y : SFleb x y = true -> isNaN x = false /\ isNaN y = false.
Proof. destruct x, y; simpl; intros; try discriminate; auto. Qed.

Lemma SFleb_trans x y z :
  SFleb x y = true -> SFleb y z = true -> SFleb x z = true.
Proof.
  unfold SFleb.
  destruct x as [sx|sx| |sx mx ex], y as [sy|sy| |sy my ey], z as [sz|sz| |sz mz ez];
    simpl; try discriminate; try reflexivity;
    try (destruct sx, sy, sz; simpl; congruence);
    try (destruct sx, sy; simpl; congruence);
    try (destruct sx, sz; simpl; congruence);
    try (destruct sy, sz; simpl; congruence).
  change (Pos.compare_cont Eq mx my) with (Pos.compare mx my).
  change (Pos.compare_cont Eq my mz) with (Pos.compare my mz).
  change (Pos.compare_cont Eq mx mz) with (Pos.compare mx mz).
  destruct sx, sy, sz; try discriminate; try reflexivity;
    destruct (Z.compare_spec ex ey), (Z.compare_spec ey ez), (Z.compare_spec ex ez);
    try lia; try discriminate; try reflexivity; subst;
    destruct (Pos.compare_spec mx my), (Pos.compare_spec my mz), (Pos.compare_spec mx mz);
    simpl; try lia; try discriminate; try reflexivity.
Qed.

(** *** Signs of sums, squares, quotients and square roots *)

Lemma SFadd_nonneg x y :
  has_sign false x -> has_sign false y -> has_sign false (SFadd prec emax x y).
Proof.
  destruct x as [sx|sx| |sx mx ex], y as [sy|sy| |sy my ey]; simpl;
    intros Hx Hy; subst; first [reflexivity | tauto | apply binary_round_sign].
Qed.

Lemma SFadd_finite_not_nan x y :
  isNaN x = false -> isFinite y = true -> isNaN (SFadd prec emax x y) = false.
Proof.
  destruct x as [sx|sx| |sx mx ex], y as [sy|sy| |sy my ey]; simpl;
    intros Hx Hy; try discriminate; try reflexivity;
    try (destruct sx, sy; reflexivity).
  destruct (_ + _)%Z; simpl; try reflexivity;
    eapply has_sign_not_nan, binary_round_sign.
Qed.

Lemma SFsub_finite_not_nan x y :
  isFinite x = true -> isNaN y = false -> isNaN (SFsub prec emax x y) = false.
Proof.
  destruct x as [sx|sx| |sx mx ex], y as [sy|sy| |sy my ey]; simpl;
    intros Hx Hy; try discriminate; try reflexivity;
    try (destruct sx, sy; reflexivity).
  destruct (_ - _)%Z; simpl; try reflexivity;
    eapply has_sign_not_nan, binary_round_sign.
Qed.

Lemma SFmul_self_nonneg x :
  isNaN x = false -> has_sign false (SFmul prec emax x x).
Proof.
  destruct x as [s|s| |s m e]; intros H; try discriminate; destruct s;
    first [reflexivity | apply binary_round_aux_sign; lia].
Qed.

Lemma SFdiv_core_binary_nonneg mx ex my ey :
  0 <= fst (fst (SFdiv_core_binary prec emax (Zpos mx) ex (Zpos my) ey)).
Proof.
  unfold SFdiv_core_binary.
  set (m' := match _ - _ - _ with Zpos _ => _ | Z0 => _ | Zneg _ => _ end).
  assert (Hm' : 0 <= m').
  { subst m'. destruct (_ - _ - _); try lia. apply Z.shiftl_nonneg. lia. }
  pose proof (Z.div_pos m' (Zpos my) Hm' ltac:(lia)) as Hq.
  unfold Z.div in Hq. destruct (Z.div_eucl m' (Zpos my)) as [q r]. exact Hq.
Qed.

Lemma SFdiv_finite_sign s x sy my ey :
  has_sign s x ->
  has_sign (xorb s sy) (SFdiv prec emax x (S754_finite sy my ey)).
Proof.
  destruct x as [sx|sx| |sx mx ex]; simpl; intros Hx; subst; try tauto.
  pose proof (SFdiv_core_binary_nonneg mx ex my ey) as Hq.
  destruct (SFdiv_core_binary prec emax (Zpos mx) ex (Zpos my) ey) as [[mz ez] lz].
  now apply binary_round_aux_sign.
Qed.

Lemma SFsqrt_nonneg x :
  has_sign false x -> has_sign false (SFsqrt prec emax x).
Proof.
  destruct x as [s|s| |s m e]; simpl; intros Hx; subst;
    try tauto; try reflexivity.
  unfold SFsqrt_core_binary.
  match goal with
  | |- context [Z.sqrtrem ?m'] =>
      pose proof (Z.sqrtrem_sqrt m') as Hq; pose proof (Z.sqrt_nonneg m') as Hs;
      destruct (Z.sqrtrem m') as [q r]
  end.
  simpl in Hq. subst q. apply binary_round_aux_sign, Hs.
Qed.

End Binary.

(** ** Binary64 arithmetic of the analyzer *)

Section Numbers.

Local Open Scope Z_scope.

Lemma prec_gt_0 : 0 < JS.prec.
Proof. reflexivity. Qed.

Lemma prec_lt_emax : JS.prec < JS.emax.
Proof. reflexivity. Qed.

(** [a - b > 0] holds exactly when [a > b]: the comparator of
    [calculateStats] orders numbers as [<] does. *)
Lemma sub_gt0 x y :
  valid x = true -> valid y = true -> isNaN x = false -> isNaN y = false ->
  gt (sub x y) zero = gt x y.
Proof. apply SFsub_gt0; first [exact prec_gt_0 | exact prec_lt_emax]. Qed.

Lemma not_gt_le x y :
  isNaN x = false -> isNaN y = false -> gt x y = false -> le x y = true.
Proof. apply SFltb_false_SFleb. Qed.

Lemma gt_le x y : gt x y = true -> le y x = true.
Proof.
  unfold gt, le, SFltb, SFleb. now destruct (SFcompare y x) as [[]|].
Qed.

Lemma le_refl x : isNaN x = false -> le x x = true.
Proof.
  unfold le, SFleb. destruct x as [s|s| |s m e]; simpl; try discriminate;
    intros _; try (destruct s; reflexivity).
  change (Pos.compare_cont Eq m m) with (Pos.compare m m).
  rewrite Z.compare_refl, Pos.compare_refl. now destruct s.
Qed.

Lemma le_trans x y z : le x y = true -> le y z = true -> le x z = true.
Proof. apply SFleb_trans. Qed.

Lemma not_nan_has_sign x : isNaN x = false -> exists s, has_sign s x.
Proof. destruct x as [s|s| |s m e]; simpl; try discriminate; eauto. Qed.

(** An array length is a positive finite number. *)
Lemma of_nat_finite n :
  (0 < n)%nat -> Z.of_nat n < 2 ^ 32 ->
  exists m e, of_nat n = S754_finite false m e.
Proof.
  intros Hpos Hlt. unfold of_nat, of_Z.
  destruct (Z.of_nat n) as [|p|p] eqn:E; try lia.
  simpl binary_normalize.
  apply binary_round_small; try first [exact prec_gt_0 | exact prec_lt_emax].
  destruct (digits2_pos_bounds p) as [Hlo _].
  destruct (Z.le_gt_cases (Zpos (digits2_pos p)) JS.prec) as [H|H]; [exact H|].
  exfalso.
  assert (2 ^ 32 <= 2 ^ (Zpos (digits2_pos p) - 1))
    by (apply Z.pow_le_mono_r; unfold JS.prec in H; lia).
  lia.
Qed.

Lemma sum_not_nan (values : list number) acc :
  Forall (fun v => isFinite v = true) values -> isNaN acc = false ->
  isNaN (fold_left (fun acc val => add acc val) values acc) = false.
Proof.
  intros Hf. revert acc. induction Hf as [|v values Hv _ IH]; intros acc Hacc.
  - exact Hacc.
  - simpl. apply IH. now apply SFadd_finite_not_nan.
Qed.

Lemma sum_nonneg {A} (f : A -> number) (l : list A) acc :
  Forall (fun v => has_sign false (f v)) l -> has_sign false acc ->
  has_sign false (fold_left (fun acc val => add acc (f val)) l acc).
Proof.
  intros Hf. revert acc. induction Hf as [|v l Hv _ IH]; intros acc Hacc.
  - exact Hacc.
  - simpl. apply IH. apply SFadd_nonneg; assumption.
Qed.

End Numbers.

(** ** Statistics engine *)

Section Statistics.

Import Stats.

Lemma insert_perm x l : Permutation (insert compareFn x l) (x :: l).
Proof.
  induction l as [|y l IH]; simpl.
  - reflexivity.
  - destruct (gt (compareFn x y) zero).
    + rewrite IH. apply perm_swap.
    + reflexivity.
Qed.

Lemma sort_perm l : Permutation (sort compareFn l) l.
Proof.
  induction l as [|x l IH]; simpl.
  - reflexivity.
  - rewrite insert_perm. now constructor.
Qed.

Lemma insert_HdRel y x l :
  ascending y x -> HdRel ascending y l -> HdRel ascending y (insert compareFn x l).
Proof.
  intros Hyx Hl. destruct l as [|z l]; simpl.
  - now constructor.
  - destruct (gt (compareFn x z) zero); constructor; [|exact Hyx].
    now inversion Hl.
Qed.

Lemma insert_sorted x l :
  comparable x -> Forall comparable l ->
  Sorted ascending l -> Sorted ascending (insert compareFn x l).
Proof.
  intros [Vx Nx] Hl Hs. induction Hs as [|y l Hs IH Hhd]; simpl.
  - repeat constructor.
  - apply Forall_cons in Hl as [[Vy Ny] Hl].
    unfold compareFn at 1. rewrite sub_gt0 by assumption.
    destruct (gt x y) eqn:E.
    + constructor; [now apply IH|].
      apply insert_HdRel; [|exact Hhd]. now apply gt_le.
    + constructor; [now constructor|].
      constructor. now apply not_gt_le.
Qed.

Lemma sort_sorted l :
  Forall comparable l -> Sorted ascending (sort compareFn l).
Proof.
  induction 1 as [|x l Hx Hl IH]; simpl.
  - constructor.
  - apply insert_sorted; [exact Hx| |exact IH].
    now rewrite sort_perm.
Qed.

Lemma sort_strongly_sorted l :
  Forall comparable l -> StronglySorted ascending (sort compareFn l).
Proof.
  intros Hl. apply Sorted_StronglySorted; [|now apply sort_sorted].
  intros x y z. apply le_trans.
Qed.

Lemma strongly_sorted_lookup (l : list number) i j a b :
  StronglySorted ascending l -> Forall comparable l -> (i <= j)%nat ->
  l !! i = Some a -> l !! j = Some b -> ascending a b.
Proof.
  intros Hs. revert i j a b.
  induction Hs as [|x l Hs IH Hx]; intros i j a b Hc Hij Ha Hb.
  - discriminate.
  - apply Forall_cons in Hc as [[_ Nx] Hc].
    destruct i as [|i], j as [|j]; simpl in *; try lia.
    + injection Ha as <-. injection Hb as <-. now apply le_refl.
    + injection Ha as <-. rewrite Forall_forall in Hx.
      apply Hx. eapply list_elem_of_lookup_2, Hb.
    + apply (IH i j a b); [exact Hc | lia | exact Ha | exact Hb].
Qed.

(** The mean is a number as soon as every value is finite. *)
Lemma mean_not_nan values :
  values <> [] -> (Z.of_nat (length values) < 2 ^ 32)%Z ->
  Forall (fun v => isFinite v = true) values ->
  isNaN (mean (calculateStats values)) = false.
Proof.
  intros Hne Hlen Hf. simpl mean.
  destruct (of_nat_finite (length values)) as (m & e & ->);
    [destruct values; simpl; [congruence|lia] | exact Hlen |].
  pose proof (sum_not_nan values (of_Z 0) Hf eq_refl) as Hsum.
  apply not_nan_has_sign in Hsum as [s Hs].
  eapply has_sign_not_nan, SFdiv_finite_sign, Hs.
Qed.

Lemma stdDev_nonneg values :
  values <> [] -> (Z.of_nat (length values) < 2 ^ 32)%Z ->
  Forall (fun v => isFinite v = true) values ->
  le zero (stdDev (calculateStats values)) = true.
Proof.
  intros Hne Hlen Hf.
  pose proof (mean_not_nan values Hne Hlen Hf) as Hmean.
  simpl stdDev. simpl mean in Hmean.
  set (mu := div _ _) in *.
  destruct (of_nat_finite (length values)) as (m & e & ->);
    [destruct values; simpl; [congruence|lia] | exact Hlen |].
  apply has_sign_false_ge0, SFsqrt_nonneg.
  change false with (xorb false false) at 1.
  apply SFdiv_finite_sign.
  apply (sum_nonneg (fun val => pow2 (sub val mu))); [|reflexivity].
  eapply Forall_impl; [exact Hf|]. intros v Hv. simpl.
  apply SFmul_self_nonneg. now apply SFsub_finite_not_nan.
Qed.

(** C9 (amended).  For every non-empty sequence of numbers (well-formed,
    none of them NaN), [calculateStats] returns [min], [median] and [max]
    taken from the ascending arrangement [sorted] of the input at the indices
    [0], [floor(n/2)] and [n-1], so that [min <= median <= max]; the median is
    that single element, not an averaged midpoint.  [mean] is the sum divided
    by [n] and [stdDev] is the square root of the sum of squared deviations
    divided by [n] (population form, not [n-1]).  [stdDev >= 0] holds when
    all the values are finite; it may be [+Infinity] on overflow. *)
Theorem calculateStats_order_and_deviation (values : list number) :
  values <> [] ->
  Forall comparable values ->
  let st := calculateStats values in
  let n := length values in
  exists sorted lo mid hi,
    Permutation sorted values /\ StronglySorted ascending sorted /\
    min st = Some lo /\ sorted !! 0%nat = Some lo /\
    median st = Some mid /\ sorted !! (n / 2)%nat = Some mid /\
    max st = Some hi /\ sorted !! (n - 1)%nat = Some hi /\
    le lo mid = true /\ le mid hi = true /\
    mean st = div (fold_left add values (of_Z 0)) (of_nat n) /\
    stdDev st =
      sqrt (div (fold_left (fun acc val => add acc (pow2 (sub val (mean st))))
                           values (of_Z 0))
                (of_nat n)) /\
    (Forall (fun v => isFinite v = true) values ->
     (Z.of_nat n < 2 ^ 32)%Z ->
     le zero (stdDev st) = true).
Proof.
  intros Hne Hc st n.
  set (sorted := sort compareFn values).
  assert (Hperm : Permutation sorted values) by apply sort_perm.
  assert (Hlen : length sorted = n) by now apply Permutation_length.
  assert (Hn : (0 < n)%nat) by (subst n; destruct values; simpl; [congruence|lia]).
  assert (Hhalf : (n / 2 < n)%nat) by (apply Nat.div_lt; lia).
  destruct (lookup_lt_is_Some_2 sorted 0%nat) as [lo Hlo]; [lia|].
  destruct (lookup_lt_is_Some_2 sorted (n / 2)%nat) as [mid Hmid]; [lia|].
  destruct (lookup_lt_is_Some_2 sorted (n - 1)%nat) as [hi Hhi]; [lia|].
  assert (Hss : StronglySorted ascending sorted) by now apply sort_strongly_sorted.
  assert (Hcs : Forall comparable sorted) by now rewrite Hperm.
  exists sorted, lo, mid, hi.
  split; [exact Hperm|]. split; [exact Hss|].
  split; [exact Hlo|]. split; [exact Hlo|].
  split; [change (sorted !! (length sorted / 2)%nat = Some mid);
          rewrite Hlen; exact Hmid|].
  split; [exact Hmid|].
  split; [change (sorted !! (length sorted - 1)%nat = Some hi);
          rewrite Hlen; exact Hhi|].
  split; [exact Hhi|].
  split; [apply (strongly_sorted_lookup sorted 0%nat (n / 2)%nat); auto; lia|].
  split; [apply (strongly_sorted_lookup sorted (n / 2)%nat (n - 1)%nat); auto; lia|].
  split; [reflexivity|]. split; [reflexivity|].
  intros Hf Hbound. now apply stdDev_nonneg.
Qed.

(** The sample [3, 1, 2, 4]: sorted it is [1, 2, 3, 4], so [min = 1],
    [median = 3] (index 2) and [max = 4]. *)
Lemma calculateStats_order_and_deviation_witness :
  let values := map of_Z [3; 1; 2; 4]%Z in
  values <> [] /\ Forall comparable values /\
  Forall (fun v => isFinite v = true) values /\
  (Z.of_nat (length values) < 2 ^ 32)%Z /\
  min (calculateStats values) = Some (of_Z 1) /\
  median (calculateStats values) = Some (of_Z 3) /\
  max (calculateStats values) = Some (of_Z 4) /\
  le (of_Z 1) (of_Z 3) = true /\ le (of_Z 3) (of_Z 4) = true /\
  le zero (stdDev (calculateStats values)) = true.
Proof.
  intros values.
  assert (Hne : values <> []) by discriminate.
  assert (Hc : Forall comparable values)
    by (repeat constructor; reflexivity).
  assert (Hf : Forall (fun v => isFinite v = true) values)
    by (repeat constructor).
  assert (Hlen : (Z.of_nat (length values) < 2 ^ 32)%Z) by reflexivity.
  destruct (calculateStats_order_and_deviation values Hne Hc)
    as (sorted & lo & mid & hi & _ & _ & Hlo & _ & Hmid & _ & Hhi & _
        & Hle1 & Hle2 & _ & _ & Hsd).
  assert (Elo : lo = of_Z 1) by (injection Hlo as <-; reflexivity).
  assert (Emid : mid = of_Z 3) by (injection Hmid as <-; reflexivity).
  assert (Ehi : hi = of_Z 4) by (injection Hhi as <-; reflexivity).
  subst lo mid hi.
  split; [exact Hne|]. split; [exact Hc|]. split; [exact Hf|].
  split; [exact Hlen|]. split; [exact Hlo|]. split; [exact Hmid|].
  split; [exact Hhi|]. split; [exact Hle1|]. split; [exact Hle2|].
  exact (Hsd Hf Hlen).
Defined.

(** C9 as stated fails on a sequence holding an infinite value, which passes
    the [!isNaN] filter of every caller: for [[Infinity]] the mean is
    [Infinity], the deviation [Infinity - Infinity] is NaN and so is
    [stdDev]. *)
Lemma calculateStats_stdDev_nan_on_infinity :
  ~ (forall values, values <> [] -> Forall comparable values ->
       le zero (stdDev (calculateStats values)) = true).
Proof.
  intros H.
  specialize (H [Infinity] ltac:(discriminate)
                ltac:(repeat constructor; reflexivity)).
  vm_compute in H. discriminate.
Qed.

End Statistics.

(** ** Air-quality classifier *)

Section Classifier.

Import AirQuality.

Lemma members_push c key value t :
  members (push c key value) t
  = members c t ++ (if decide (key = t) then [value] else []).
Proof.
  destruct key, t; simpl; rewrite ?app_nil_r; reflexivity.
Qed.

Lemma members_classify_from (R : list number) c t :
  members (fold_left (fun classification value =>
                        push classification (tierOf value) value) R c) t
  = members c t ++ filter (fun v => tierOf v = t) R.
Proof.
  revert c. induction R as [|v R IH]; intros c; simpl.
  - now rewrite app_nil_r.
  - rewrite IH, members_push, filter_cons, <- app_assoc.
    now destruct (decide (tierOf v = t)).
Qed.

Lemma tier_filters_length (R : list number) :
  (length (filter (fun v => tierOf v = excellent) R)
   + length (filter (fun v => tierOf v = good) R)
   + length (filter (fun v => tierOf v = moderate) R)
   + length (filter (fun v => tierOf v = poor) R)
   + length (filter (fun v => tierOf v = veryPoor) R))%nat = length R.
Proof.
  induction R as [|v R IH]; [reflexivity|].
  rewrite !filter_cons. simpl length.
  destruct (tierOf v); simpl; lia.
Qed.

(** A negative number fails every threshold test. *)
Lemma negative_below_thresholds v k :
  lt v zero = true -> le zero (of_Z k) = true -> ge v (of_Z k) = false.
Proof.
  unfold lt, ge. intros Hneg Hk.
  destruct (SFleb (of_Z k) v) eqn:E; [|reflexivity].
  pose proof (le_trans _ _ _ Hk E) as H0.
  unfold le, SFleb in H0. unfold SFltb in Hneg.
  rewrite (SFcompare_swap v zero) in H0.
  destruct (SFcompare v zero) as [[]|]; discriminate.
Qed.

(** C3 (amended).  [classifyAirQuality] excludes nothing: every input value,
    finite or not, lands in the one tier the threshold chain selects for it
    (each tier holds, in input order, exactly the values of that tier), so
    the five tier sizes add up to the length of the input.  [+Infinity] is
    classified as excellent; NaN, [-Infinity] and every negative value are
    classified as veryPoor. *)
Theorem classifyAirQuality_partitions_input (R : list number) :
  let c := classifyAirQuality R in
  (forall t, members c t = filter (fun v => tierOf v = t) R) /\
  totalData c = length R /\
  tierOf Infinity = excellent /\
  tierOf NaN = veryPoor /\
  tierOf (S754_infinity true) = veryPoor /\
  (forall v, lt v zero = true -> tierOf v = veryPoor).
Proof.
  intros c.
  assert (Hm : forall t, members c t = filter (fun v => tierOf v = t) R).
  { intros t. unfold c, classifyAirQuality. rewrite members_classify_from.
    now destruct t. }
  split; [exact Hm|]. split.
  - unfold totalData, keys. cbn [map fold_left]. rewrite !Hm, Nat.add_0_l.
    apply tier_filters_length.
  - repeat split; try reflexivity.
    intros v Hv. unfold tierOf.
    now rewrite !(negative_below_thresholds v) by (exact Hv || reflexivity).
Qed.

(** The reading [-5] is negative, hence classified as veryPoor, and it is
    counted. *)
Lemma classifyAirQuality_partitions_input_witness :
  lt (of_Z (-5)) zero = true /\
  tierOf (of_Z (-5)) = veryPoor /\
  totalData (classifyAirQuality [of_Z (-5)]) = 1%nat.
Proof.
  destruct (classifyAirQuality_partitions_input [of_Z (-5)])
    as (_ & Htotal & _ & _ & _ & Hneg).
  split; [reflexivity|]. split; [exact (Hneg (of_Z (-5)) eq_refl)|exact Htotal].
Defined.

(** C3 as stated fails: the CSV cells ["Infinity"] and ["-5"] both reach the
    classifier and both are counted, while only one of them is finite (and
    none is a finite non-negative value). *)
Lemma classifyAirQuality_counts_infinite_and_negative :
  let R := [Infinity; of_Z (-5)] in
  let c := classifyAirQuality R in
  cl_excellent c = [Infinity] /\ cl_veryPoor c = [of_Z (-5)] /\
  totalData c = 2%nat /\
  length (filter (fun v => isFinite v = true) R) = 1%nat /\
  totalData c <> length (filter (fun v => isFinite v = true) R).
Proof. vm_compute. repeat split; discriminate. Qed.

(** C4 (amended).  [predominantQuality] is a tier of maximum member count;
    when several tiers share the maximum, the reduction keeps the later key
    on a tie, so the LAST such tier in the order excellent, good, moderate,
    poor, veryPoor is chosen.  In particular, when the five counts are equal
    (all 1, say) the predominant tier is veryPoor. *)
Theorem predominantQuality_last_maximum (qa : Classification) :
  exists p,
    predominantQuality qa = Some p /\
    (forall t, (count qa t <= count qa p)%nat) /\
    (forall t, count qa t = count qa p -> (position t <= position p)%nat) /\
    ((forall t, count qa t = 1%nat) -> p = veryPoor).
Proof.
  unfold predominantQuality, reduce, keys, count. simpl fold_left.
  repeat match goal with
         | |- context [(?a <? ?b)%nat] => destruct (Nat.ltb_spec a b)
         | H : context [(?a <? ?b)%nat] |- _ => destruct (Nat.ltb_spec a b)
         end;
    eexists; (split; [reflexivity|]);
    (split; [intros t; destruct t; simpl in *; lia|]);
    (split; [intros t; destruct t; simpl in *; lia|]);
    intros Hall;
    pose proof (Hall excellent); pose proof (Hall good);
    pose proof (Hall moderate); pose proof (Hall poor);
    pose proof (Hall veryPoor); simpl in *; first [reflexivity | lia].
Qed.

(** With one value in every tier, the last tier is the predominant one. *)
Lemma predominantQuality_last_maximum_witness :
  let c := classifyAirQuality (map of_Z [350; 250; 150; 75; 10]%Z) in
  (forall t, count c t = 1%nat) /\ predominantQuality c = Some veryPoor.
Proof.
  intros c.
  assert (Hall : forall t, count c t = 1%nat) by (intros []; reflexivity).
  split; [exact Hall|].
  destruct (predominantQuality_last_maximum c) as (p & Hp & _ & _ & Hlast).
  rewrite Hp. f_equal. exact (Hlast Hall).
Defined.

(** C4 as stated fails on the scenario of the specification: with one value
    in every tier the predominant tier is veryPoor, not excellent. *)
Lemma predominantQuality_tie_is_not_excellent :
  let c := classifyAirQuality (map of_Z [350; 250; 150; 75; 10]%Z) in
  (forall t, count c t = 1%nat) /\
  predominantQuality c = Some veryPoor /\
  predominantQuality c <> Some excellent.
Proof.
  split; [intros t; destruct t; reflexivity|].
  split; [reflexivity | discriminate].
Qed.

End Classifier.

(** ** Vertical profile for the interval ['all'] *)

Section Profile.

Import AirQuality.

Lemma filter_all {A} (P : A -> Prop) `{!forall x, Decision (P x)} (l : list A) :
  Forall P l -> filter P l = l.
Proof.
  induction 1 as [|x l Hx _ IH]; [reflexivity|].
  rewrite filter_cons, IH. now destruct (decide (P x)).
Qed.

Lemma numericColumn_all (csvData : list Row) column :
  Forall (fun row : Row => isNaN (parseFloat (row !! column)) = false) csvData ->
  numericColumn csvData column
  = map (fun row : Row => parseFloat (row !! column)) csvData.
Proof.
  intros H. unfold numericColumn. apply filter_all.
  now apply Forall_fmap.
Qed.

Lemma truthy_not_nan x : truthy x = true -> isNaN x = false.
Proof. now destruct x. Qed.

Lemma processAltitudeData_all_length csvHeaders csvData resistanceData :
  length (processAltitudeData_all csvHeaders csvData resistanceData)
  = length resistanceData.
Proof. unfold processAltitudeData_all. apply length_imap. Qed.

Lemma map_imap_id {A B} (g : B -> A) (f : nat -> A -> B) (l : list A) :
  (forall i x, g (f i x) = x) -> map g (imap f l) = l.
Proof.
  revert f. induction l as [|x l IH]; intros f H; [reflexivity|].
  cbn [imap map]. rewrite H. f_equal. apply IH. intros i y. apply H.
Qed.

(** C5 (amended).  For the interval ['all'] the profile holds one pair per
    resistance reading handed in, whatever the dataset: as many pairs as
    readings, the pair at position [i] carrying the reading at position
    [i].  For a dataset of [n] rows in which every row has a numeric
    resistance and, when the altitude column exists, a numeric non-zero
    altitude, these are exactly [n] pairs in row order, the pair of row [i]
    carrying that row's own resistance and altitude; when no altitude
    column exists the altitude coordinate is the ordinal index [i]. *)
Theorem processAltitudeData_all_own_row (csvHeaders : list string)
    (csvData : list Row) :
  (forall resistanceData,
     length (processAltitudeData_all csvHeaders csvData resistanceData)
     = length resistanceData /\
     map resistance (processAltitudeData_all csvHeaders csvData resistanceData)
     = resistanceData) /\
  (Forall (fun row : Row =>
             isNaN (parseFloat (row !! "Resistencia_kOhms")) = false) csvData ->
   (includes csvHeaders "Altitud_m" = true ->
    Forall (fun row : Row =>
              truthy (parseFloat (row !! "Altitud_m")) = true) csvData) ->
   length (profileAll csvHeaders csvData) = length csvData /\
   forall (i : nat) (row : Row),
     csvData !! i = Some row ->
     profileAll csvHeaders csvData !! i =
       Some {| altitude :=
                 if includes csvHeaders "Altitud_m"
                 then parseFloat (row !! "Altitud_m")
                 else of_nat i;
               resistance := parseFloat (row !! "Resistencia_kOhms") |}).
Proof.
  split.
  { intros resistanceData.
    split; [apply processAltitudeData_all_length|].
    unfold processAltitudeData_all. now apply map_imap_id. }
  intros Hres Halt.
  unfold profileAll. rewrite processAltitudeData_all_length.
  rewrite numericColumn_all by exact Hres.
  split; [apply length_map|].
  intros i row Hrow. unfold processAltitudeData_all.
  rewrite list_lookup_imap, list_lookup_fmap, Hrow. simpl. f_equal. f_equal.
  destruct (includes csvHeaders "Altitud_m") eqn:Hinc.
  - specialize (Halt eq_refl).
    rewrite numericColumn_all
      by (eapply Forall_impl; [exact Halt|]; intros; now apply truthy_not_nan).
    rewrite list_lookup_fmap, Hrow. simpl.
    rewrite Forall_forall in Halt.
    now rewrite (Halt row) by (eapply list_elem_of_lookup_2, Hrow).
  - rewrite lookup_replicate_2; [reflexivity|].
    rewrite length_map. eapply lookup_lt_Some, Hrow.
Qed.

(** Three rows give three pairs; the pair of row 1 holds the resistance 200
    and the altitude 20 of that row.  On the ragged dataset the two readings
    still give two pairs that carry them in order. *)
Lemma processAltitudeData_all_own_row_witness :
  Forall (fun row : Row =>
            isNaN (parseFloat (row !! "Resistencia_kOhms")) = false)
         Samples.profileRows /\
  (includes Samples.profileHeaders "Altitud_m" = true ->
   Forall (fun row : Row =>
             truthy (parseFloat (row !! "Altitud_m")) = true)
          Samples.profileRows) /\
  length (profileAll Samples.profileHeaders Samples.profileRows)
  = length Samples.profileRows /\
  profileAll Samples.profileHeaders Samples.profileRows !! 1%nat
  = Some {| altitude := of_Z 20; resistance := of_Z 200 |} /\
  length (processAltitudeData_all Samples.profileHeaders Samples.raggedRows
            [of_Z 200; of_Z 300]) = 2%nat /\
  map resistance
      (processAltitudeData_all Samples.profileHeaders Samples.raggedRows
         [of_Z 200; of_Z 300]) = [of_Z 200; of_Z 300].
Proof.
  assert (H1 : Forall (fun row : Row =>
                         isNaN (parseFloat (row !! "Resistencia_kOhms")) = false)
                      Samples.profileRows)
    by (repeat constructor).
  assert (H2 : includes Samples.profileHeaders "Altitud_m" = true ->
               Forall (fun row : Row =>
                         truthy (parseFloat (row !! "Altitud_m")) = true)
                      Samples.profileRows)
    by (intros _; repeat constructor).
  destruct (processAltitudeData_all_own_row
              Samples.profileHeaders Samples.profileRows)
    as (_ & Hgood).
  destruct (Hgood H1 H2) as (Hlen & Hrows).
  destruct (processAltitudeData_all_own_row
              Samples.profileHeaders Samples.raggedRows)
    as (Hany & _).
  destruct (Hany [of_Z 200; of_Z 300]) as (Hl & Hm).
  split; [exact H1|]. split; [exact H2|]. split; [exact Hlen|].
  split; [exact (Hrows 1%nat _ eq_refl)|]. split; [exact Hl|exact Hm].
Defined.

(** C5 as stated fails on a dataset whose first row has a non-numeric
    resistance and whose second row has altitude 0: three rows give two
    pairs; the reading 200 of the second row is paired with the altitude 10
    of the first; and the reading 300 of the third row gets the ordinal
    index 1 as its coordinate, although the altitude column exists and that
    row's altitude is 30. *)
Lemma processAltitudeData_all_misaligned :
  profileAll Samples.profileHeaders Samples.raggedRows
  = [ {| altitude := of_Z 10; resistance := of_Z 200 |};
      {| altitude := of_Z 1; resistance := of_Z 300 |} ] /\
  length (profileAll Samples.profileHeaders Samples.raggedRows)
  <> length Samples.raggedRows /\
  includes Samples.profileHeaders "Altitud_m" = true /\
  (parseFloat <$> ((.!! "Altitud_m") <$> Samples.raggedRows))
  = [of_Z 10; zero; of_Z 30].
Proof. vm_compute. repeat split; discriminate. Qed.

End Profile.

(** ** Cleaning engine *)

Section CleaningEngine.

Import Cleaning.

(** *** The two filters *)

Lemma filterDuplicates_cons store r rest index timeMap :
  filterDuplicates store (r :: rest) index timeMap
  = let time := deref store r !! "Tiempo_ms" in
    if Map_has timeMap time then
      ((filterDuplicates store rest (S index) timeMap).1,
       {| dup_index := index; dup_time := time;
          dup_reason := "Duplicado de tiempo" |}
         :: (filterDuplicates store rest (S index) timeMap).2)
    else
      (r :: (filterDuplicates store rest (S index) (Map_set timeMap time)).1,
       (filterDuplicates store rest (S index) (Map_set timeMap time)).2).
Proof.
  cbn [filterDuplicates]. cbv zeta.
  destruct (Map_has timeMap _); now destruct (filterDuplicates _ _ _ _).
Qed.

Lemma filterOutliers_cons store r rest index :
  filterOutliers store (r :: rest) index
  = match firstViolation (deref store r) index physicalRanges with
    | Some entry =>
        ((filterOutliers store rest (S index)).1,
         entry :: (filterOutliers store rest (S index)).2)
    | None =>
        (r :: (filterOutliers store rest (S index)).1,
         (filterOutliers store rest (S index)).2)
    end.
Proof.
  cbn [filterOutliers]. now destruct (filterOutliers _ _ _).
Qed.

Lemma filterDuplicates_length store data index timeMap :
  (length (filterDuplicates store data index timeMap).1
   + length (filterDuplicates store data index timeMap).2)%nat = length data.
Proof.
  revert index timeMap. induction data as [|r rest IH]; intros index timeMap.
  - reflexivity.
  - rewrite filterDuplicates_cons. cbv zeta.
    destruct (Map_has timeMap _); cbn [fst snd length].
    + specialize (IH (S index) timeMap). lia.
    + specialize (IH (S index) (Map_set timeMap (deref store r !! "Tiempo_ms"))).
      lia.
Qed.

Lemma filterDuplicates_sublist store data index timeMap :
  (filterDuplicates store data index timeMap).1 `sublist_of` data.
Proof.
  revert index timeMap. induction data as [|r rest IH]; intros index timeMap.
  - constructor.
  - rewrite filterDuplicates_cons. cbv zeta.
    destruct (Map_has timeMap _); cbn [fst]; constructor; apply IH.
Qed.

Lemma filterOutliers_length store data index :
  (length (filterOutliers store data index).1
   + length (filterOutliers store data index).2)%nat = length data.
Proof.
  revert index. induction data as [|r rest IH]; intros index.
  - reflexivity.
  - rewrite filterOutliers_cons. specialize (IH (S index)).
    destruct (firstViolation (deref store r) index physicalRanges);
      cbn [fst snd length]; lia.
Qed.

Lemma filterOutliers_sublist store data index :
  (filterOutliers store data index).1 `sublist_of` data.
Proof.
  revert index. induction data as [|r rest IH]; intros index.
  - constructor.
  - rewrite filterOutliers_cons.
    destruct (firstViolation (deref store r) index physicalRanges);
      cbn [fst]; constructor; apply IH.
Qed.

(** A retained row violates no physical range. *)
Lemma filterOutliers_kept store data index r :
  r ∈ (filterOutliers store data index).1 ->
  exists i, firstViolation (deref store r) i physicalRanges = None.
Proof.
  revert index. induction data as [|x rest IH]; intros index.
  - intros H. inversion H.
  - rewrite filterOutliers_cons.
    destruct (firstViolation (deref store x) index physicalRanges) eqn:E;
      cbn [fst].
    + apply IH.
    + intros [->|H]%elem_of_cons; eauto.
Qed.

Lemma firstViolation_cons (row : Row) index column lo hi rest :
  firstViolation row index ((column, (lo, hi)) :: rest)
  = if present (row !! column) then
      let value := parseFloat (row !! column) in
      if isNaN value || lt value lo || gt value hi then
        Some {| out_index := index; out_column := column;
                out_value := value;
                out_minRange := lo; out_maxRange := hi;
                out_reason :=
                  if isNaN value then NotNumeric
                  else if lt value lo then TooLow value lo
                  else TooHigh value hi |}
      else firstViolation row index rest
    else firstViolation row index rest.
Proof. reflexivity. Qed.

Lemma firstViolation_None (row : Row) index ranges column lo hi :
  firstViolation row index ranges = None ->
  (column, (lo, hi)) ∈ ranges ->
  present (row !! column) = true ->
  isNaN (parseFloat (row !! column)) = false /\
  lt (parseFloat (row !! column)) lo = false /\
  gt (parseFloat (row !! column)) hi = false.
Proof.
  induction ranges as [|[c [l h]] ranges IH]; intros Hnone Hin Hp.
  - inversion Hin.
  - rewrite firstViolation_cons in Hnone. cbv zeta in Hnone.
    apply elem_of_cons in Hin as [Heq|Hin].
    + injection Heq as <- <- <-. rewrite Hp in Hnone.
      destruct (isNaN _); [discriminate|].
      destruct (lt _ lo); [discriminate|].
      destruct (gt _ hi); [discriminate|]. auto.
    + apply IH; [|exact Hin|exact Hp].
      destruct (present (row !! c)); [|exact Hnone].
      now destruct (_ || _ || _).
Qed.

(** *** The in-place altitude adjustment *)

Lemma adjustAll_cons b store r data :
  adjustAll b store (r :: data)
  = adjustAll b (<[r := adjustAltitude b (deref store r)]> store) data.
Proof. reflexivity. Qed.

Lemma adjustAll_lookup_notin b store data r :
  r ∉ data -> adjustAll b store data !! r = store !! r.
Proof.
  revert store. induction data as [|x data IH]; intros store Hr; [reflexivity|].
  apply not_elem_of_cons in Hr as [Hne Hr].
  rewrite adjustAll_cons, IH by exact Hr.
  now apply list_lookup_insert_ne.
Qed.

Lemma adjustAll_lookup_in b store data r row :
  NoDup data -> r ∈ data -> store !! r = Some row ->
  adjustAll b store data !! r = Some (adjustAltitude b row).
Proof.
  revert store. induction data as [|x data IH]; intros store Hnd Hin Hrow.
  - inversion Hin.
  - apply NoDup_cons in Hnd as [Hx Hnd]. rewrite adjustAll_cons.
    apply elem_of_cons in Hin as [->|Hin].
    + rewrite adjustAll_lookup_notin by exact Hx.
      unfold deref. rewrite Hrow. cbn [default].
      apply list_lookup_insert_eq. eapply lookup_lt_Some, Hrow.
    + apply IH; [exact Hnd|exact Hin|].
      rewrite list_lookup_insert_ne; [exact Hrow|].
      intros ->. contradiction.
Qed.

(** *** Shape of a run *)

Lemma cleanData_run store baseInput out :
  cleanData (Some store) baseInput = Some out ->
  let step1 := filterDuplicates store (seq 0 (length store)) 0 [] in
  let step2 := filterOutliers store step1.1 0 in
  originalData out = adjustAll (baseAltitudeOf baseInput) store step2.1 /\
  cleanedData out = step2.1 /\
  originalCount out = length store /\
  cleanedCount out = length step2.1 /\
  duplicatesRemoved out = step1.2 /\
  outliersRemoved out = step2.2 /\
  baseAltitude out = baseAltitudeOf baseInput.
Proof.
  unfold cleanData. intros H.
  destruct (filterDuplicates store (seq 0 (length store)) 0 []) as [d1 dups].
  destruct (filterOutliers store d1 0) as [d2 outs] eqn:E2.
  injection H as <-. cbv zeta. cbn [fst snd]. rewrite E2.
  cbn [fst snd originalData cleanedData originalCount cleanedCount
       duplicatesRemoved outliersRemoved baseAltitude].
  rewrite length_seq. repeat split; reflexivity.
Qed.

Lemma cleanedData_NoDup store baseInput out :
  cleanData (Some store) baseInput = Some out -> NoDup (cleanedData out).
Proof.
  intros H. apply cleanData_run in H as (_ & -> & _).
  eapply sublist_NoDup; [|apply filterOutliers_sublist].
  eapply sublist_NoDup; [|apply filterDuplicates_sublist].
  apply NoDup_seq.
Qed.

(** C1.  After [cleanData] runs, the rows of the cleaned dataset, the
    duplicate-removal entries and the outlier-removal entries add up to the
    rows of the original dataset: the range filter runs on what duplicate
    removal left, so a removed row is reported once. *)
Theorem cleanData_counts_add_up (store : list Row) (baseInput : string)
    (out : Outcome) :
  cleanData (Some store) baseInput = Some out ->
  (cleanedCount out + length (duplicatesRemoved out)
   + length (outliersRemoved out))%nat = originalCount out /\
  originalCount out = length store /\
  cleanedCount out = length (cleanedRows out).
Proof.
  intros H. apply cleanData_run in H as (_ & Hc & -> & -> & -> & -> & _).
  unfold cleanedRows. rewrite length_map, Hc.
  pose proof (filterDuplicates_length store (seq 0 (length store)) 0 []) as H1.
  pose proof (filterOutliers_length store
                (filterDuplicates store (seq 0 (length store)) 0 []).1 0) as H2.
  rewrite length_seq in H1. repeat split; lia.
Qed.

(** The scenario dataset: 2 rows kept, 1 duplicate, 1 outlier, 4 rows. *)
Lemma cleanData_counts_add_up_witness :
  exists out,
    cleanData (Some Samples.scenario) "" = Some out /\
    (cleanedCount out + length (duplicatesRemoved out)
     + length (outliersRemoved out))%nat = originalCount out /\
    originalCount out = length Samples.scenario /\
    cleanedCount out = length (cleanedRows out).
Proof.
  eexists. split; [reflexivity|].
  exact (cleanData_counts_add_up Samples.scenario "" _ eq_refl).
Defined.

(** *** The shared row objects *)

(** C2, at a dataset of one row with raw altitude 600 and base altitude 571:
    after [cleanData] the row reached through [originalData] holds the
    corrected altitude 29, the string ["600"] is gone, and the cleaned
    dataset shows the very same object.  Running [cleanData] once more on
    what [originalData] now holds subtracts the base altitude again and
    leaves -542. *)
Theorem cleanData_overwrites_original_altitude :
  Samples.altitude600 !! "Altitud_m" = Some (VStr "600") /\
  originalData <$> cleanData (Some [Samples.altitude600]) "571"
  = Some [<["Altitud_m" := VNum (of_Z 29)]> Samples.altitude600] /\
  cleanedRows <$> cleanData (Some [Samples.altitude600]) "571"
  = Some [<["Altitud_m" := VNum (of_Z 29)]> Samples.altitude600] /\
  originalData <$> cleanData (Some [Samples.altitude600]) "571"
  <> Some [Samples.altitude600] /\
  originalData <$>
    (first ← cleanData (Some [Samples.altitude600]) "571";
     cleanData (Some (originalData first)) "571")
  = Some [<["Altitud_m" := VNum (of_Z (-542))]> Samples.altitude600].
Proof.
  split; [reflexivity|]. split; [vm_compute; reflexivity|].
  split; [vm_compute; reflexivity|].
  split; [|vm_compute; reflexivity].
  intros H.
  apply (f_equal (fun o : option (list Row) =>
                    l ← o; row ← l !! 0%nat; row !! "Altitud_m")) in H.
  vm_compute in H. discriminate.
Qed.

(** C6, at the scenario dataset: the row with temperature 999 is row 3 of the
    dataset as parsed, yet its outlier entry carries index 2, its position in
    the array left by duplicate removal; row 2 of the parsed dataset is the
    duplicate, whose temperature is 21. *)
Theorem cleanData_outlier_index_after_duplicates :
  outliersRemoved <$> cleanData (Some Samples.scenario) ""
  = Some [ {| out_index := 2; out_column := "Temperatura_C";
              out_value := of_Z 999;
              out_minRange := of_Z (-50); out_maxRange := of_Z 85;
              out_reason := TooHigh (of_Z 999) (of_Z 85) |} ] /\
  deref Samples.scenario 3 !! "Temperatura_C" = Some (VStr "999") /\
  deref Samples.scenario 2 !! "Temperatura_C" = Some (VStr "21") /\
  (fmap dup_index ∘ duplicatesRemoved) <$> cleanData (Some Samples.scenario) ""
  = Some [2%nat].
Proof. vm_compute. repeat split; reflexivity. Qed.

(** C8.  On the rows [Tiempo_ms = [0,100,100,200]],
    [Temperatura_C = [20,21,21,999]] duplicate removal drops exactly the row
    at index 2, the second row timed 100, and the range filter then drops
    exactly one row, for its temperature 999 above the bound 85 of
    [[-50, 85]]; rows 0 and 1 remain, a cleaned count of 2.  This holds
    whatever the base altitude field contains. *)
Theorem cleanData_scenario (baseInput : string) :
  duplicatesRemoved <$> cleanData (Some Samples.scenario) baseInput
  = Some [ {| dup_index := 2; dup_time := Some (VStr "100");
              dup_reason := "Duplicado de tiempo" |} ] /\
  (fmap (fun entry => (out_column entry, out_value entry,
                       out_minRange entry, out_maxRange entry,
                       out_reason entry))
    ∘ outliersRemoved) <$> cleanData (Some Samples.scenario) baseInput
  = Some [ ("Temperatura_C", of_Z 999, of_Z (-50), of_Z 85,
            TooHigh (of_Z 999) (of_Z 85)) ] /\
  cleanedData <$> cleanData (Some Samples.scenario) baseInput
  = Some [0%nat; 1%nat] /\
  cleanedCount <$> cleanData (Some Samples.scenario) baseInput = Some 2%nat /\
  originalCount <$> cleanData (Some Samples.scenario) baseInput = Some 4%nat.
Proof. vm_compute. repeat split; reflexivity. Qed.

(** *** Altitude baseline correction *)

Lemma Altitud_m_in_physicalRanges :
  ("Altitud_m", (of_Z (-500), of_Z 100000)) ∈ physicalRanges.
Proof. unfold physicalRanges. do 9 apply list_elem_of_further. apply list_elem_of_here. Qed.

(** For every row that survives duplicate removal and range filtering and
    has an altitude (which then is numeric), [cleanData] replaces the
    altitude by the parsed raw altitude minus the base altitude it uses:
    the number read from the base-altitude field when that is a non-zero
    number, and 571 otherwise. *)
Lemma cleanData_altitude_baseline (store : list Row) (baseInput : string)
    (out : Outcome) (r : nat) (row : Row) :
  cleanData (Some store) baseInput = Some out ->
  r ∈ cleanedData out ->
  store !! r = Some row ->
  present (row !! "Altitud_m") = true ->
  isNaN (parseFloat (row !! "Altitud_m")) = false /\
  deref (originalData out) r !! "Altitud_m"
  = Some (VNum (sub (parseFloat (row !! "Altitud_m")) (baseAltitude out))) /\
  (truthy (parseFloat_string baseInput) = true ->
   baseAltitude out = parseFloat_string baseInput) /\
  (truthy (parseFloat_string baseInput) = false ->
   baseAltitude out = of_Z 571) /\
  baseAltitudeOf "" = of_Z 571 /\
  sub (parseFloat (Some (VStr "600"))) (baseAltitudeOf "571") = of_Z 29.
Proof.
  intros Hrun Hr Hrow Hp.
  pose proof (cleanedData_NoDup _ _ _ Hrun) as Hnd.
  apply cleanData_run in Hrun as (Ho & Hc & _ & _ & _ & _ & Hb).
  split.
  - rewrite Hc in Hr. apply filterOutliers_kept in Hr as [i Hi].
    unfold deref in Hi. rewrite Hrow in Hi. cbn [default] in Hi.
    now apply (firstViolation_None row i physicalRanges "Altitud_m" _ _ Hi
                 Altitud_m_in_physicalRanges).
  - split; [|rewrite Hb; unfold baseAltitudeOf, or_else;
               split; [now intros ->|split; [now intros ->|]];
               split; vm_compute; reflexivity].
    rewrite Ho, Hb. unfold deref.
    rewrite (adjustAll_lookup_in _ _ _ r row); [| |now rewrite <- Hc|exact Hrow].
    + cbn [default]. unfold adjustAltitude. rewrite Hp.
      apply lookup_insert_eq.
    + now rewrite <- Hc.
Qed.

(** C7, at a dataset of one row with raw altitude 600 and the base altitude
    0 typed into the field: [parseFloat('0') || 571] is 571, a zero being
    falsy, so [cleanData] subtracts 571 and leaves 29, where the parsed raw
    altitude minus the base altitude supplied is 600.  The same happens for
    [-0].  With 571 supplied, or with an empty field, the altitude becomes
    29 as the claim says. *)
Theorem cleanData_zero_base_altitude_replaced :
  parseFloat_string "0" = zero /\
  baseAltitude <$> cleanData (Some [Samples.altitude600]) "0"
  = Some (of_Z 571) /\
  cleanedRows <$> cleanData (Some [Samples.altitude600]) "0"
  = Some [<["Altitud_m" := VNum (of_Z 29)]> Samples.altitude600] /\
  sub (parseFloat (Samples.altitude600 !! "Altitud_m")) (parseFloat_string "0")
  = of_Z 600 /\
  cleanedRows <$> cleanData (Some [Samples.altitude600]) "0"
  <> Some [<["Altitud_m" := VNum (of_Z 600)]> Samples.altitude600] /\
  baseAltitude <$> cleanData (Some [Samples.altitude600]) "-0"
  = Some (of_Z 571) /\
  cleanedRows <$> cleanData (Some [Samples.altitude600]) "571"
  = Some [<["Altitud_m" := VNum (of_Z 29)]> Samples.altitude600] /\
  cleanedRows <$> cleanData (Some [Samples.altitude600]) ""
  = Some [<["Altitud_m" := VNum (of_Z 29)]> Samples.altitude600].
Proof.
  split; [vm_compute; reflexivity|]. split; [vm_compute; reflexivity|].
  split; [vm_compute; reflexivity|]. split; [vm_compute; reflexivity|].
  split; [|repeat split; vm_compute; reflexivity].
  intros H.
  apply (f_equal (fun o : option (list Row) =>
                    l ← o; row ← l !! 0%nat; row !! "Altitud_m")) in H.
  vm_compute in H. discriminate.
Qed.

(** *** Rows without a time field *)

Lemma Map_has_set_mono m k k' :
  Map_has m k' = true -> Map_has (Map_set m k) k' = true.
Proof.
  unfold Map_set. destruct (Map_has m k); [auto|].
  unfold Map_has. rewrite existsb_app. intros ->. reflexivity.
Qed.

Lemma Map_has_set_undefined m :
  Map_has (Map_set m undefined) undefined = true.
Proof.
  unfold Map_set. destruct (Map_has m undefined) eqn:E; [exact E|].
  unfold Map_has. rewrite existsb_app. simpl. apply orb_true_r.
Qed.

Lemma Map_has_set_inv m k k' :
  Map_has (Map_set m k) k' = true ->
  Map_has m k' = true \/ sameValueZero k' k = true.
Proof.
  unfold Map_set. destruct (Map_has m k); [auto|].
  unfold Map_has. rewrite existsb_app. simpl. rewrite orb_false_r.
  intros [H|H]%orb_true_iff; auto.
Qed.

Lemma sameValueZero_undefined k :
  sameValueZero undefined k = true -> k = undefined.
Proof. destruct k as [[| |]|]; simpl; congruence. Qed.

(** A row without time is dropped as soon as an earlier row, or the map,
    already holds the key [undefined]. *)
Lemma filterDuplicates_missing_time store n : forall a timeMap j,
  (a <= j < a + n)%nat ->
  deref store j !! "Tiempo_ms" = undefined ->
  (Map_has timeMap undefined = true \/
   exists i, (a <= i < j)%nat /\ deref store i !! "Tiempo_ms" = undefined) ->
  (j ∉ (filterDuplicates store (seq a n) a timeMap).1) /\
  {| dup_index := j; dup_time := undefined;
     dup_reason := "Duplicado de tiempo" |}
    ∈ (filterDuplicates store (seq a n) a timeMap).2.
Proof.
  induction n as [|n IH]; intros a timeMap j Hj Hkey Hseen; [lia|].
  cbn [seq]. rewrite filterDuplicates_cons. cbv zeta.
  assert (Hsub := filterDuplicates_sublist store (seq (S a) n) (S a)).
  destruct (decide (j = a)) as [->|Hne].
  - assert (Hm : Map_has timeMap undefined = true)
      by (destruct Hseen as [H|(i & Hi & _)]; [exact H|lia]).
    rewrite Hkey, Hm. cbn [fst snd]. split; [|constructor].
    intros Hin. eapply elem_of_sublist in Hin; [|apply Hsub].
    apply elem_of_seq in Hin. lia.
  - destruct (Map_has timeMap (deref store a !! "Tiempo_ms")) eqn:Ha;
      cbn [fst snd].
    + destruct (IH (S a) timeMap j) as [H1 H2]; [lia|exact Hkey| |].
      * destruct Hseen as [H|(i & Hi & Hik)]; [now left|].
        destruct (decide (i = a)) as [->|]; [left; now rewrite <- Hik|].
        right. exists i. split; [lia|exact Hik].
      * split; [exact H1|]. now constructor.
    + destruct (IH (S a) (Map_set timeMap (deref store a !! "Tiempo_ms")) j)
        as [H1 H2]; [lia|exact Hkey| |].
      * destruct Hseen as [H|(i & Hi & Hik)];
          [left; now apply Map_has_set_mono|].
        destruct (decide (i = a)) as [->|].
        -- left. rewrite Hik. apply Map_has_set_undefined.
        -- right. exists i. split; [lia|exact Hik].
      * split; [|exact H2].
        intros [?|?]%elem_of_cons; [lia|contradiction].
Qed.

(** Every entry of [duplicatesRemoved] repeats a key already in the map or
    the key of an earlier row. *)
Lemma filterDuplicates_entry store n : forall a timeMap e,
  e ∈ (filterDuplicates store (seq a n) a timeMap).2 ->
  (a <= dup_index e < a + n)%nat /\
  dup_time e = deref store (dup_index e) !! "Tiempo_ms" /\
  (Map_has timeMap (dup_time e) = true \/
   exists i, (a <= i < dup_index e)%nat /\
             sameValueZero (dup_time e) (deref store i !! "Tiempo_ms") = true).
Proof.
  induction n as [|n IH]; intros a timeMap e; cbn [seq].
  - intros H. inversion H.
  - rewrite filterDuplicates_cons. cbv zeta.
    destruct (Map_has timeMap (deref store a !! "Tiempo_ms")) eqn:Ha;
      cbn [snd].
    + intros [->|He]%elem_of_cons.
      * cbn [dup_index dup_time]. split; [lia|]. split; [reflexivity|].
        now left.
      * apply IH in He as (Hi & Ht & Hs).
        split; [lia|]. split; [exact Ht|].
        destruct Hs as [H|(i & Hi' & Hv)]; [now left|].
        right. exists i. split; [lia|exact Hv].
    + intros He. apply IH in He as (Hi & Ht & Hs).
      split; [lia|]. split; [exact Ht|].
      destruct Hs as [H|(i & Hi' & Hv)].
      * apply Map_has_set_inv in H as [H|H]; [now left|].
        right. exists a. split; [lia|exact H].
      * right. exists i. split; [lia|exact Hv].
Qed.

End CleaningEngine.

(* ===================================================================== *)
(** ** What [cleanData] keeps, reports and leaves alone *)

Section CleaningInvariants.

Import Cleaning.

(** *** Order of the retained references *)

Lemma sublist_StronglySorted {A} (R : A -> A -> Prop) (l1 l2 : list A) :
  l1 `sublist_of` l2 -> StronglySorted R l2 -> StronglySorted R l1.
Proof.
  induction 1 as [|x l1 l2 Hs IH|x l1 l2 Hs IH]; intros H2.
  - constructor.
  - apply StronglySorted_inv in H2 as [H2 Hx]. constructor; [auto|].
    apply Forall_forall. intros y Hy.
    rewrite Forall_forall in Hx. apply Hx. eapply elem_of_sublist; eauto.
  - apply StronglySorted_inv in H2 as [H2 _]. auto.
Qed.

Lemma seq_StronglySorted a n : StronglySorted Nat.lt (seq a n).
Proof.
  revert a. induction n as [|n IH]; intros a; simpl; constructor; [apply IH|].
  apply Forall_forall. intros k Hk. apply elem_of_seq in Hk. unfold Nat.lt. lia.
Qed.

Lemma StronglySorted_lookup {A} (R : A -> A -> Prop) (l : list A) i j a b :
  StronglySorted R l -> (i < j)%nat ->
  l !! i = Some a -> l !! j = Some b -> R a b.
Proof.
  intros Hs. revert i j. induction Hs as [|x l Hs IH Hx]; intros i j Hij Ha Hb.
  - discriminate.
  - destruct j as [|j]; [lia|]. destruct i as [|i]; simpl in *.
    + injection Ha as <-. rewrite Forall_forall in Hx. apply Hx.
      eapply list_elem_of_lookup_2; eauto.
    + apply (IH i j); [lia|assumption..].
Qed.

Lemma cleanedData_sublist store baseInput out :
  cleanData (Some store) baseInput = Some out ->
  cleanedData out `sublist_of` seq 0 (length store).
Proof.
  intros H. apply cleanData_run in H as (_ & -> & _).
  etransitivity; [apply filterOutliers_sublist|apply filterDuplicates_sublist].
Qed.

(** X1.  The cleaned dataset lists rows of the loaded file in the order of
    the file: the references [cleanData] retains are positions of the
    original array, strictly increasing, so no row is moved, repeated or
    invented. *)
Theorem cleanData_keeps_file_order (store : list Row) (baseInput : string)
    (out : Outcome) :
  cleanData (Some store) baseInput = Some out ->
  cleanedData out `sublist_of` seq 0 (length store) /\
  (forall r, r ∈ cleanedData out -> (r < length store)%nat) /\
  (forall i j ri rj, (i < j)%nat ->
     cleanedData out !! i = Some ri -> cleanedData out !! j = Some rj ->
     (ri < rj)%nat).
Proof.
  intros H. pose proof (cleanedData_sublist _ _ _ H) as Hs.
  split; [exact Hs|]. split.
  - intros r Hr. eapply elem_of_sublist in Hr; [|exact Hs].
    apply elem_of_seq in Hr. lia.
  - intros i j ri rj. apply (StronglySorted_lookup Nat.lt).
    eapply sublist_StronglySorted; [exact Hs|apply seq_StronglySorted].
Qed.

Lemma cleanData_keeps_file_order_witness :
  exists out,
    cleanData (Some Samples.scenario) "" = Some out /\
    cleanedData out `sublist_of` seq 0 (length Samples.scenario) /\
    (forall r, r ∈ cleanedData out -> (r < length Samples.scenario)%nat).
Proof.
  eexists. split; [reflexivity|].
  destruct (cleanData_keeps_file_order Samples.scenario "" _ eq_refl)
    as (H1 & H2 & _).
  split; [exact H1|exact H2].
Defined.

(** *** The rows behind the references *)

Lemma adjustAll_length b store data :
  length (adjustAll b store data) = length store.
Proof.
  revert store. induction data as [|r data IH]; intros store; [reflexivity|].
  rewrite adjustAll_cons, IH. apply length_insert.
Qed.

Lemma adjustAltitude_other b (row : Row) column :
  column <> "Altitud_m" -> adjustAltitude b row !! column = row !! column.
Proof.
  intros Hc. unfold adjustAltitude. destruct (present _); [|reflexivity].
  apply lookup_insert_ne. congruence.
Qed.

Lemma adjustAltitude_absent b (row : Row) :
  present (row !! "Altitud_m") = false -> adjustAltitude b row = row.
Proof. intros H. unfold adjustAltitude. now rewrite H. Qed.

(** X2.  [cleanData] writes to nothing but the altitude of the rows it
    retains: [originalData] keeps its length, a removed row is left as
    loaded, and a retained row differs from the loaded one at most in
    [Altitud_m]; without an altitude it is left as loaded too. *)
Theorem cleanData_frame (store : list Row) (baseInput : string)
    (out : Outcome) :
  cleanData (Some store) baseInput = Some out ->
  length (originalData out) = length store /\
  (forall r, r ∉ cleanedData out -> originalData out !! r = store !! r) /\
  (forall r row, r ∈ cleanedData out -> store !! r = Some row ->
     exists row',
       originalData out !! r = Some row' /\
       (forall column, column <> "Altitud_m" ->
                       row' !! column = row !! column) /\
       (present (row !! "Altitud_m") = false -> row' = row)).
Proof.
  intros H. pose proof (cleanedData_NoDup _ _ _ H) as Hnd.
  apply cleanData_run in H as (-> & Hc & _). rewrite Hc in *.
  split; [apply adjustAll_length|]. split.
  - intros r Hr. now apply adjustAll_lookup_notin.
  - intros r row Hr Hrow. eexists. split.
    + apply adjustAll_lookup_in; eassumption.
    + split; [intros column; apply adjustAltitude_other
             |apply adjustAltitude_absent].
Qed.

Lemma cleanData_frame_witness :
  exists out,
    cleanData (Some Samples.scenario) "" = Some out /\
    length (originalData out) = length Samples.scenario /\
    (3%nat ∉ cleanedData out) /\
    originalData out !! 3%nat = Samples.scenario !! 3%nat.
Proof.
  eexists. split; [reflexivity|].
  destruct (cleanData_frame Samples.scenario "" _ eq_refl) as (H1 & H2 & _).
  assert (Hn : 3%nat ∉ [0%nat; 1%nat]).
  { intros Hin. apply elem_of_cons in Hin as [Hin|Hin]; [discriminate|].
    apply elem_of_cons in Hin as [Hin|Hin]; [discriminate|].
    inversion Hin. }
  split; [exact H1|]. split; [exact Hn|exact (H2 3%nat Hn)].
Defined.

End CleaningInvariants.

(* ===================================================================== *)
(** ** Which rows [cleanData] removes, and what it reports about them *)

Section CleaningReports.

Import Cleaning.

(** *** SameValueZero is an equivalence *)

Lemma SFeqb_true x y :
  SFeqb x y = true ->
  x = y \/ exists s s', x = S754_zero s /\ y = S754_zero s'.
Proof.
  unfold SFeqb.
  destruct x as [sx|sx| |sx mx ex], y as [sy|sy| |sy my ey]; simpl;
    try discriminate; eauto;
    try (destruct sx; discriminate); try (destruct sy; discriminate).
  - destruct sx, sy; try discriminate; auto.
  - change (Pos.compare_cont Eq mx my) with (Pos.compare mx my).
    destruct sx, sy; try discriminate;
      destruct (Z.compare_spec ex ey); try discriminate;
      destruct (Pos.compare_spec mx my); try discriminate;
      subst; auto.
Qed.

Lemma SFeqb_refl x : isNaN x = false -> SFeqb x x = true.
Proof.
  unfold SFeqb. destruct x as [s|s| |s m e]; simpl; try discriminate;
    intros _; try (destruct s; reflexivity).
  change (Pos.compare_cont Eq m m) with (Pos.compare m m).
  rewrite Z.compare_refl, Pos.compare_refl. now destruct s.
Qed.

Lemma sameValueZero_spec a b :
  sameValueZero a b = true <->
  a = b \/ exists s s', a = Some (VNum (S754_zero s)) /\
                        b = Some (VNum (S754_zero s')).
Proof.
  split.
  - destruct a as [[s|x|]|], b as [[t|y|]|]; simpl; try discriminate; auto;
      try (destruct x; discriminate); try (destruct y; discriminate).
    + intros ->%String.eqb_eq. auto.
    + intros H.
      assert (Hxy : (x = S754_nan /\ y = S754_nan) \/ SFeqb x y = true)
        by (destruct x, y; auto).
      destruct Hxy as [[-> ->]|[->|(s & s' & -> & ->)]%SFeqb_true]; eauto.
  - intros [<-|(s & s' & -> & ->)]; [|reflexivity].
    destruct a as [[s|x|]|]; simpl; auto.
    + apply String.eqb_refl.
    + destruct x as [s|s| |s m e]; try reflexivity; now apply SFeqb_refl.
Qed.

Lemma sameValueZero_refl a : sameValueZero a a = true.
Proof. apply sameValueZero_spec. now left. Qed.

Lemma sameValueZero_sym a b :
  sameValueZero a b = true -> sameValueZero b a = true.
Proof.
  rewrite !sameValueZero_spec. intros [->|(s & s' & -> & ->)]; eauto.
Qed.

Lemma sameValueZero_trans a b c :
  sameValueZero a b = true -> sameValueZero b c = true ->
  sameValueZero a c = true.
Proof.
  rewrite !sameValueZero_spec.
  intros [->|(s & s' & -> & ->)] [<-|(t & t' & E & ->)]; eauto.
Qed.

Lemma Map_has_compat m k k' :
  sameValueZero k k' = true -> Map_has m k = true -> Map_has m k' = true.
Proof.
  unfold Map_has. rewrite !existsb_exists. intros Hk (x & Hx & Hkx).
  exists x. split; [exact Hx|].
  eapply sameValueZero_trans; [apply sameValueZero_sym; exact Hk|exact Hkx].
Qed.

Lemma Map_has_set_same m k : Map_has (Map_set m k) k = true.
Proof.
  unfold Map_set. destruct (Map_has m k) eqn:E; [exact E|].
  unfold Map_has. rewrite existsb_app. simpl.
  rewrite sameValueZero_refl. apply orb_true_r.
Qed.

(** *** Step 1: the first row of each time is kept *)

(** A row is dropped and reported as soon as the map, or an earlier row,
    holds its time. *)
Lemma filterDuplicates_reports store n : forall a timeMap j,
  (a <= j < a + n)%nat ->
  (Map_has timeMap (deref store j !! "Tiempo_ms") = true \/
   exists i, (a <= i < j)%nat /\
             sameValueZero (deref store i !! "Tiempo_ms")
                           (deref store j !! "Tiempo_ms") = true) ->
  (j ∉ (filterDuplicates store (seq a n) a timeMap).1) /\
  {| dup_index := j; dup_time := deref store j !! "Tiempo_ms";
     dup_reason := "Duplicado de tiempo" |}
    ∈ (filterDuplicates store (seq a n) a timeMap).2.
Proof.
  induction n as [|n IH]; intros a timeMap j Hj Hseen; [lia|].
  cbn [seq]. rewrite filterDuplicates_cons. cbv zeta.
  assert (Hsub := filterDuplicates_sublist store (seq (S a) n) (S a)).
  destruct (decide (j = a)) as [->|Hne].
  - assert (Hm : Map_has timeMap (deref store a !! "Tiempo_ms") = true)
      by (destruct Hseen as [H|(i & Hi & _)]; [exact H|lia]).
    rewrite Hm. cbn [fst snd]. split; [|constructor].
    intros Hin. eapply elem_of_sublist in Hin; [|apply Hsub].
    apply elem_of_seq in Hin. lia.
  - destruct (Map_has timeMap (deref store a !! "Tiempo_ms")) eqn:Ha;
      cbn [fst snd].
    + destruct (IH (S a) timeMap j) as [H1 H2]; [lia| |].
      * destruct Hseen as [H|(i & Hi & Hik)]; [now left|].
        destruct (decide (i = a)) as [->|];
          [left; eapply Map_has_compat; eassumption|].
        right. exists i. split; [lia|exact Hik].
      * split; [exact H1|]. now constructor.
    + destruct (IH (S a) (Map_set timeMap (deref store a !! "Tiempo_ms")) j)
        as [H1 H2]; [lia| |].
      * destruct Hseen as [H|(i & Hi & Hik)];
          [left; now apply Map_has_set_mono|].
        destruct (decide (i = a)) as [->|].
        -- left. eapply Map_has_compat; [exact Hik|apply Map_has_set_same].
        -- right. exists i. split; [lia|exact Hik].
      * split; [|exact H2].
        intros [?|?]%elem_of_cons; [lia|contradiction].
Qed.

(** Every position is either kept or reported. *)
Lemma filterDuplicates_total store n : forall a timeMap j,
  (a <= j < a + n)%nat ->
  j ∈ (filterDuplicates store (seq a n) a timeMap).1 \/
  {| dup_index := j; dup_time := deref store j !! "Tiempo_ms";
     dup_reason := "Duplicado de tiempo" |}
    ∈ (filterDuplicates store (seq a n) a timeMap).2.
Proof.
  induction n as [|n IH]; intros a timeMap j Hj; [lia|].
  cbn [seq]. rewrite filterDuplicates_cons. cbv zeta.
  destruct (decide (j = a)) as [->|Hne].
  - destruct (Map_has timeMap (deref store a !! "Tiempo_ms"));
      cbn [fst snd]; [right|left]; constructor.
  - destruct (Map_has timeMap (deref store a !! "Tiempo_ms")); cbn [fst snd].
    + destruct (IH (S a) timeMap j ltac:(lia)) as [H|H];
        [left; exact H|right; apply list_elem_of_further; exact H].
    + destruct (IH (S a) (Map_set timeMap (deref store a !! "Tiempo_ms")) j
                   ltac:(lia)) as [H|H];
        [left; apply list_elem_of_further; exact H|right; exact H].
Qed.

Lemma filterDuplicates_reason store data : forall index timeMap e,
  e ∈ (filterDuplicates store data index timeMap).2 ->
  dup_reason e = "Duplicado de tiempo".
Proof.
  induction data as [|r data IH]; intros index timeMap e.
  - intros H. inversion H.
  - rewrite filterDuplicates_cons. cbv zeta.
    destruct (Map_has timeMap _); cbn [snd];
      [intros [->|He]%elem_of_cons; [reflexivity|]|intros He];
      eapply IH; exact He.
Qed.

(** The array left by step 1 holds the positions no earlier row shares its
    time with. *)
Lemma filterDuplicates_kept_iff store n j :
  j ∈ (filterDuplicates store (seq 0 n) 0 []).1 <->
  (j < n)%nat /\
  forall i, (i < j)%nat ->
    sameValueZero (deref store i !! "Tiempo_ms")
                  (deref store j !! "Tiempo_ms") = false.
Proof.
  split.
  - intros Hj.
    assert (Hn : (j < n)%nat).
    { eapply elem_of_sublist in Hj; [|apply filterDuplicates_sublist].
      apply elem_of_seq in Hj. lia. }
    split; [exact Hn|]. intros i Hi.
    destruct (sameValueZero _ _) eqn:E; [|reflexivity].
    destruct (filterDuplicates_reports store n 0 [] j) as [Hnot _];
      [lia| |contradiction].
    right. exists i. split; [lia|exact E].
  - intros [Hn Hfirst].
    destruct (filterDuplicates_total store n 0 [] j) as [H|H]; [lia|exact H|].
    apply filterDuplicates_entry in H as (_ & _ & [H|(i & Hi & Hv)]);
      [discriminate|].
    cbn [dup_index dup_time] in *.
    apply sameValueZero_sym in Hv. rewrite Hfirst in Hv; [discriminate|lia].
Qed.

Lemma deref_lookup (store : list Row) r row :
  store !! r = Some row -> deref store r = row.
Proof. unfold deref. now intros ->. Qed.

(** X3.  The duplicate report is exact: [duplicatesRemoved] holds an entry
    precisely for every row that shares its time with an earlier row, with
    that row's own position in the file, its raw time and the one reason
    text.  Times are compared by SameValueZero, the key equality of the
    [Map]. *)
Theorem cleanData_duplicate_report (store : list Row) (baseInput : string)
    (out : Outcome) (e : DuplicateEntry) :
  cleanData (Some store) baseInput = Some out ->
  (e ∈ duplicatesRemoved out <->
   exists row,
     store !! dup_index e = Some row /\
     dup_time e = row !! "Tiempo_ms" /\
     dup_reason e = "Duplicado de tiempo" /\
     exists i rowi,
       (i < dup_index e)%nat /\ store !! i = Some rowi /\
       sameValueZero (rowi !! "Tiempo_ms") (row !! "Tiempo_ms") = true).
Proof.
  intros H. apply cleanData_run in H as (_ & _ & _ & _ & -> & _).
  split.
  - intros He. pose proof (filterDuplicates_reason _ _ _ _ _ He) as Hreason.
    apply filterDuplicates_entry in He as (Hi & Ht & [Hm|(i & Hi' & Hv)]);
      [discriminate|].
    destruct (lookup_lt_is_Some_2 store (dup_index e)) as [row Hrow]; [lia|].
    destruct (lookup_lt_is_Some_2 store i) as [rowi Hrowi]; [lia|].
    rewrite (deref_lookup _ _ _ Hrow) in Ht.
    rewrite (deref_lookup _ _ _ Hrowi), Ht in Hv.
    exists row. split; [exact Hrow|]. split; [exact Ht|].
    split; [exact Hreason|]. exists i, rowi.
    split; [lia|]. split; [exact Hrowi|]. now apply sameValueZero_sym.
  - intros (row & Hrow & Ht & Hreason & i & rowi & Hi & Hrowi & Hv).
    assert (Hlen : (dup_index e < length store)%nat)
      by (apply lookup_lt_is_Some_1; eauto).
    destruct (filterDuplicates_reports store (length store) 0 [] (dup_index e))
      as [_ Hin]; [lia| |].
    + right. exists i. split; [lia|].
      now rewrite (deref_lookup _ _ _ Hrow), (deref_lookup _ _ _ Hrowi).
    + rewrite (deref_lookup _ _ _ Hrow) in Hin.
      destruct e as [ei et er]; cbn [dup_index dup_time dup_reason] in *.
      now subst et er.
Qed.

Lemma cleanData_duplicate_report_witness :
  exists out,
    cleanData (Some Samples.scenario) "" = Some out /\
    {| dup_index := 2; dup_time := Some (VStr "100");
       dup_reason := "Duplicado de tiempo" |} ∈ duplicatesRemoved out.
Proof.
  eexists. split; [reflexivity|].
  apply (cleanData_duplicate_report Samples.scenario "" _ _ eq_refl).
  eexists. split; [reflexivity|]. split; [reflexivity|].
  split; [reflexivity|]. exists 1%nat. eexists.
  split; [cbn [dup_index]; lia|]. split; reflexivity.
Defined.

(** *** Step 2: rows with a cell out of range *)

Lemma firstViolation_index (row : Row) i i' ranges :
  firstViolation row i ranges = None -> firstViolation row i' ranges = None.
Proof.
  induction ranges as [|[column [lo hi]] rest IH]; [reflexivity|].
  rewrite !firstViolation_cons. cbv zeta.
  destruct (present _); [|exact IH].
  destruct (_ || _ || _); [discriminate|exact IH].
Qed.

Lemma firstViolation_None_intro (row : Row) index ranges :
  (forall column lo hi,
     (column, (lo, hi)) ∈ ranges -> present (row !! column) = true ->
     isNaN (parseFloat (row !! column)) = false /\
     lt (parseFloat (row !! column)) lo = false /\
     gt (parseFloat (row !! column)) hi = false) ->
  firstViolation row index ranges = None.
Proof.
  induction ranges as [|[column [lo hi]] rest IH]; intros H; [reflexivity|].
  rewrite firstViolation_cons. cbv zeta.
  assert (Hrest : firstViolation row index rest = None).
  { apply IH. intros c l h Hin. apply H. now apply list_elem_of_further. }
  destruct (present (row !! column)) eqn:Hp; [|exact Hrest].
  destruct (H column lo hi (list_elem_of_here _ _) Hp) as (-> & -> & ->).
  exact Hrest.
Qed.

Lemma firstViolation_Some (row : Row) index ranges e :
  firstViolation row index ranges = Some e ->
  out_index e = index /\
  (out_column e, (out_minRange e, out_maxRange e)) ∈ ranges /\
  present (row !! out_column e) = true /\
  out_value e = parseFloat (row !! out_column e) /\
  (isNaN (out_value e) || lt (out_value e) (out_minRange e)
   || gt (out_value e) (out_maxRange e)) = true /\
  out_reason e =
    (if isNaN (out_value e) then NotNumeric
     else if lt (out_value e) (out_minRange e)
          then TooLow (out_value e) (out_minRange e)
          else TooHigh (out_value e) (out_maxRange e)).
Proof.
  induction ranges as [|[column [lo hi]] rest IH]; [discriminate|].
  rewrite firstViolation_cons. cbv zeta.
  assert (Hrest : firstViolation row index rest = Some e ->
                  out_index e = index /\
                  (out_column e, (out_minRange e, out_maxRange e))
                    ∈ (column, (lo, hi)) :: rest /\
                  present (row !! out_column e) = true /\
                  out_value e = parseFloat (row !! out_column e) /\
                  (isNaN (out_value e) || lt (out_value e) (out_minRange e)
                   || gt (out_value e) (out_maxRange e)) = true /\
                  out_reason e =
                    (if isNaN (out_value e) then NotNumeric
                     else if lt (out_value e) (out_minRange e)
                          then TooLow (out_value e) (out_minRange e)
                          else TooHigh (out_value e) (out_maxRange e))).
  { intros H. apply IH in H as (H1 & H2 & H3).
    split; [exact H1|]. split; [now apply list_elem_of_further|exact H3]. }
  destruct (present (row !! column)) eqn:Hp; [|exact Hrest].
  destruct (isNaN (parseFloat (row !! column))
            || lt (parseFloat (row !! column)) lo
            || gt (parseFloat (row !! column)) hi) eqn:Hv; [|exact Hrest].
  intros [= <-]. cbn [out_index out_column out_value out_minRange
                      out_maxRange out_reason].
  split; [reflexivity|]. split; [apply list_elem_of_here|].
  split; [exact Hp|]. split; [reflexivity|]. split; [exact Hv|reflexivity].
Qed.

Lemma filterOutliers_kept_iff store data index r :
  r ∈ (filterOutliers store data index).1 <->
  r ∈ data /\ firstViolation (deref store r) 0 physicalRanges = None.
Proof.
  split.
  - intros Hr. split.
    + eapply elem_of_sublist; [exact Hr|apply filterOutliers_sublist].
    + apply filterOutliers_kept in Hr as [i Hi].
      eapply firstViolation_index; exact Hi.
  - revert index. induction data as [|r0 data IH]; intros index [Hin Hok].
    + inversion Hin.
    + rewrite filterOutliers_cons.
      apply elem_of_cons in Hin as [->|Hin].
      * rewrite (firstViolation_index _ 0 index _ Hok). cbn [fst].
        apply list_elem_of_here.
      * specialize (IH (S index) (conj Hin Hok)).
        destruct (firstViolation (deref store r0) index physicalRanges);
          cbn [fst]; [exact IH|now apply list_elem_of_further].
Qed.

Lemma filterOutliers_entry store data : forall index e,
  e ∈ (filterOutliers store data index).2 ->
  exists r,
    (index <= out_index e)%nat /\
    data !! (out_index e - index)%nat = Some r /\
    firstViolation (deref store r) (out_index e) physicalRanges = Some e.
Proof.
  induction data as [|r0 data IH]; intros index e.
  - intros H. inversion H.
  - rewrite filterOutliers_cons.
    assert (Hrest : e ∈ (filterOutliers store data (S index)).2 ->
                    exists r,
                      (index <= out_index e)%nat /\
                      (r0 :: data) !! (out_index e - index)%nat = Some r /\
                      firstViolation (deref store r) (out_index e)
                                     physicalRanges = Some e).
    { intros He. apply IH in He as (r & Hle & Hr & Hv). exists r.
      split; [lia|]. split; [|exact Hv].
      replace (out_index e - index)%nat with (S (out_index e - S index))
        by lia. exact Hr. }
    destruct (firstViolation (deref store r0) index physicalRanges)
      as [entry|] eqn:E; cbn [snd]; [|exact Hrest].
    intros [->|He]%elem_of_cons; [|now apply Hrest].
    pose proof (firstViolation_Some _ _ _ _ E) as (Hi & _).
    exists r0. rewrite Hi. split; [lia|].
    split; [now rewrite Nat.sub_diag|exact E].
Qed.

Lemma physicalRanges_finite column lo hi :
  (column, (lo, hi)) ∈ physicalRanges ->
  isFinite lo = true /\ isFinite hi = true.
Proof.
  assert (H : Forall (fun entry => isFinite entry.2.1 = true /\
                                   isFinite entry.2.2 = true) physicalRanges)
    by (repeat constructor).
  rewrite Forall_forall in H. intros Hin. exact (H _ Hin).
Qed.

Lemma isFinite_not_nan x : isFinite x = true -> isNaN x = false.
Proof. now destruct x. Qed.

Lemma le_not_lt a b : le a b = true -> lt b a = false.
Proof.
  unfold le, lt, SFleb, SFltb. rewrite (SFcompare_swap a b).
  destruct (SFcompare a b) as [[]|]; simpl; congruence.
Qed.

Lemma in_range_iff v lo hi :
  isNaN lo = false -> isNaN hi = false ->
  (isNaN v = false /\ lt v lo = false /\ gt v hi = false) <->
  (le lo v = true /\ le v hi = true).
Proof.
  intros Hlo Hhi. split.
  - intros (Hv & H1 & H2). split; now apply not_gt_le.
  - intros [H1 H2]. split; [now apply SFleb_not_nan in H1|].
    split; [now apply le_not_lt|]. now apply (le_not_lt v hi).
Qed.

(** A retained row holds, in every bounded column it has a value for, a
    number within the bounds. *)
Lemma cleanedData_in_range (store : list Row) baseInput out r (row : Row)
    column lo hi :
  cleanData (Some store) baseInput = Some out ->
  r ∈ cleanedData out ->
  store !! r = Some row ->
  (column, (lo, hi)) ∈ physicalRanges ->
  present (row !! column) = true ->
  le lo (parseFloat (row !! column)) = true /\
  le (parseFloat (row !! column)) hi = true.
Proof.
  intros H Hr Hrow Hin Hp. apply cleanData_run in H as (_ & Hc & _).
  rewrite Hc in Hr. apply filterOutliers_kept_iff in Hr as [_ Hok].
  rewrite (deref_lookup _ _ _ Hrow) in Hok.
  destruct (physicalRanges_finite _ _ _ Hin) as [Hlo Hhi].
  apply in_range_iff; [now apply isFinite_not_nan..|].
  eapply firstViolation_None; eassumption.
Qed.

(** X4.  A row is retained exactly when it is the first row of its time and
    every bounded column it has a value for holds a number within the
    bounds of [physicalRanges], both ends included.  A cell that is missing
    or [null] passes; the altitude is tested as loaded, before the base
    altitude is subtracted. *)
Theorem cleanData_retained_iff (store : list Row) (baseInput : string)
    (out : Outcome) (r : nat) (row : Row) :
  cleanData (Some store) baseInput = Some out ->
  store !! r = Some row ->
  (r ∈ cleanedData out <->
   (forall i rowi, (i < r)%nat -> store !! i = Some rowi ->
      sameValueZero (rowi !! "Tiempo_ms") (row !! "Tiempo_ms") = false) /\
   (forall column lo hi,
      (column, (lo, hi)) ∈ physicalRanges ->
      present (row !! column) = true ->
      le lo (parseFloat (row !! column)) = true /\
      le (parseFloat (row !! column)) hi = true)).
Proof.
  intros H Hrow. apply cleanData_run in H as (_ & -> & _).
  assert (Hlen : (r < length store)%nat)
    by (apply lookup_lt_is_Some_1; eauto).
  rewrite filterOutliers_kept_iff, filterDuplicates_kept_iff.
  rewrite (deref_lookup _ _ _ Hrow). split.
  - intros [[_ Hfirst] Hok]. split.
    + intros i rowi Hi Hrowi. specialize (Hfirst i Hi).
      now rewrite (deref_lookup _ _ _ Hrowi) in Hfirst.
    + intros column lo hi Hin Hp.
      destruct (physicalRanges_finite _ _ _ Hin) as [Hlo Hhi].
      apply in_range_iff; [now apply isFinite_not_nan..|].
      eapply firstViolation_None; eassumption.
  - intros [Hfirst Hok]. split; [split; [exact Hlen|]|].
    + intros i Hi.
      destruct (lookup_lt_is_Some_2 store i) as [rowi Hrowi]; [lia|].
      rewrite (deref_lookup _ _ _ Hrowi). eapply Hfirst; eassumption.
    + apply firstViolation_None_intro. intros column lo hi Hin Hp.
      destruct (physicalRanges_finite _ _ _ Hin) as [Hlo Hhi].
      apply in_range_iff; [now apply isFinite_not_nan..|].
      now apply Hok.
Qed.

Lemma cleanData_retained_iff_witness :
  exists out,
    cleanData (Some Samples.scenario) "" = Some out /\
    (1%nat ∈ cleanedData out <->
     (forall i rowi, (i < 1)%nat -> Samples.scenario !! i = Some rowi ->
        sameValueZero (rowi !! "Tiempo_ms") (Some (VStr "100")) = false) /\
     (forall column lo hi,
        (column, (lo, hi)) ∈ physicalRanges ->
        present (csvRow [("Tiempo_ms", "100"); ("Temperatura_C", "21")]
                   !! column) = true ->
        le lo (parseFloat (csvRow [("Tiempo_ms", "100");
                                   ("Temperatura_C", "21")] !! column)) = true /\
        le (parseFloat (csvRow [("Tiempo_ms", "100");
                                ("Temperatura_C", "21")] !! column)) hi = true)).
Proof.
  eexists. split; [reflexivity|].
  exact (cleanData_retained_iff Samples.scenario "" _ 1%nat _ eq_refl eq_refl).
Defined.

(** *** The key [undefined] *)

(** C10.  Rows that lack [Tiempo_ms] all carry the key [undefined]: when row
    [i] lacks the field, every later row [j] lacking it is dropped by
    duplicate removal, is absent from the cleaned dataset and is reported as
    a time duplicate with its index and the time [undefined].  The first
    row lacking the field is kept by duplicate removal and never reported
    as a duplicate; it is in the cleaned dataset exactly when it passes the
    range filter. *)
Theorem cleanData_missing_time_is_one_key (store : list Row)
    (baseInput : string) (out : Outcome) (i : nat) (ri : Row) :
  cleanData (Some store) baseInput = Some out ->
  store !! i = Some ri -> ri !! "Tiempo_ms" = undefined ->
  (forall j rj,
     (i < j)%nat -> store !! j = Some rj -> rj !! "Tiempo_ms" = undefined ->
     (j ∉ (filterDuplicates store (seq 0 (length store)) 0 []).1) /\
     (j ∉ cleanedData out) /\
     {| dup_index := j; dup_time := undefined;
        dup_reason := "Duplicado de tiempo" |} ∈ duplicatesRemoved out) /\
  ((forall k rk, (k < i)%nat -> store !! k = Some rk ->
                 rk !! "Tiempo_ms" <> undefined) ->
   i ∈ (filterDuplicates store (seq 0 (length store)) 0 []).1 /\
   (forall e, e ∈ duplicatesRemoved out -> dup_index e <> i) /\
   (i ∈ cleanedData out <->
    forall column lo hi,
      (column, (lo, hi)) ∈ physicalRanges ->
      present (ri !! column) = true ->
      le lo (parseFloat (ri !! column)) = true /\
      le (parseFloat (ri !! column)) hi = true)).
Proof.
  intros Hrun Hi Hti.
  apply cleanData_run in Hrun as (_ & Hc & _ & _ & Hd & _).
  assert (Hki : deref store i !! "Tiempo_ms" = undefined)
    by now rewrite (deref_lookup _ _ _ Hi).
  pose proof (lookup_lt_Some _ _ _ Hi) as Hilen.
  split.
  - intros j rj Hlt Hj Htj.
    assert (Hkj : deref store j !! "Tiempo_ms" = undefined)
      by now rewrite (deref_lookup _ _ _ Hj).
    pose proof (lookup_lt_Some _ _ _ Hj) as Hjlen.
    destruct (filterDuplicates_missing_time store (length store) 0 [] j)
      as [H1 H2]; [lia|exact Hkj|right; exists i; split; [lia|exact Hki]|].
    split; [exact H1|]. split; [|now rewrite Hd].
    rewrite Hc. intros Hin. apply H1.
    eapply elem_of_sublist; [exact Hin|apply filterOutliers_sublist].
  - intros Hfirst.
    assert (Hkept : i ∈ (filterDuplicates store (seq 0 (length store)) 0 []).1).
    { apply filterDuplicates_kept_iff. split; [exact Hilen|].
      intros k Hk. rewrite Hki.
      destruct (lookup_lt_is_Some_2 store k) as [rk Hrk]; [lia|].
      rewrite (deref_lookup _ _ _ Hrk).
      destruct (sameValueZero (rk !! "Tiempo_ms") undefined) eqn:E;
        [|reflexivity].
      apply sameValueZero_sym, sameValueZero_undefined in E.
      now apply (Hfirst k rk) in E. }
    split; [exact Hkept|]. split.
    + intros e He Hei. rewrite Hd in He.
      apply filterDuplicates_entry in He as (_ & Htime & Hseen).
      rewrite Hei in *. rewrite Hki in Htime. rewrite Htime in Hseen.
      destruct Hseen as [H|(k & Hk & Hv)]; [discriminate|].
      apply sameValueZero_undefined in Hv.
      destruct (lookup_lt_is_Some_2 store k) as [rk Hrk]; [lia|].
      apply (Hfirst k rk); [lia|exact Hrk|].
      now rewrite (deref_lookup _ _ _ Hrk) in Hv.
    + rewrite Hc, filterOutliers_kept_iff, (deref_lookup _ _ _ Hi). split.
      * intros [_ Hok] column lo hi Hin Hp.
        destruct (physicalRanges_finite _ _ _ Hin) as [Hlo Hhi].
        apply in_range_iff; [now apply isFinite_not_nan..|].
        eapply firstViolation_None; eassumption.
      * intros Hok. split; [exact Hkept|].
        apply firstViolation_None_intro. intros column lo hi Hin Hp.
        destruct (physicalRanges_finite _ _ _ Hin) as [Hlo Hhi].
        apply in_range_iff; [now apply isFinite_not_nan..|].
        now apply Hok.
Qed.

(** Rows 0 and 2 of the sample lack the time field: row 0 is kept and not
    reported, row 2 is dropped and reported. *)
Lemma cleanData_missing_time_is_one_key_witness :
  exists out,
    cleanData (Some Samples.missingTime) "" = Some out /\
    Samples.missingTime !! 0%nat = Some (csvRow [("Temperatura_C", "20")]) /\
    csvRow [("Temperatura_C", "20")] !! "Tiempo_ms" = undefined /\
    Samples.missingTime !! 2%nat = Some (csvRow [("Temperatura_C", "22")]) /\
    csvRow [("Temperatura_C", "22")] !! "Tiempo_ms" = undefined /\
    (0 < 2)%nat /\
    (2%nat ∉ cleanedData out) /\
    {| dup_index := 2; dup_time := undefined;
       dup_reason := "Duplicado de tiempo" |} ∈ duplicatesRemoved out /\
    0%nat ∈ (filterDuplicates Samples.missingTime
               (seq 0 (length Samples.missingTime)) 0 []).1 /\
    (forall e, e ∈ duplicatesRemoved out -> dup_index e <> 0%nat) /\
    0%nat ∈ cleanedData out.
Proof.
  eexists. split; [reflexivity|].
  do 5 (split; [first [reflexivity | lia]|]).
  pose proof (cleanData_missing_time_is_one_key
                Samples.missingTime "" _ 0%nat _ eq_refl eq_refl eq_refl)
    as (Hlater & Hfirst).
  destruct (Hlater 2%nat _ ltac:(lia) eq_refl eq_refl) as (_ & H1 & H2).
  destruct Hfirst as (H3 & H4 & _); [intros k rk Hk; lia|].
  split; [exact H1|]. split; [exact H2|]. split; [exact H3|].
  split; [exact H4|]. apply list_elem_of_here.
Defined.

(** *** Where the outlier report points *)

Lemma filter_none {A} (P : A -> Prop) `{!forall x, Decision (P x)} (l : list A) :
  (forall x, x ∈ l -> ~ P x) -> filter P l = [].
Proof.
  induction l as [|x l IH]; intros Hall; [reflexivity|].
  rewrite filter_cons. destruct (decide (P x)) as [Hx|_].
  - exfalso. eapply Hall; [apply list_elem_of_here|exact Hx].
  - apply IH. intros y Hy. apply Hall. now apply list_elem_of_further.
Qed.

(** The position of a row in the array left by step 1 is its position in
    the file less the duplicates removed before it. *)
Lemma filterDuplicates_position store n : forall a timeMap i r,
  (filterDuplicates store (seq a n) a timeMap).1 !! i = Some r ->
  (a + i + length (filter (fun d => (dup_index d < r)%nat)
                          (filterDuplicates store (seq a n) a timeMap).2))%nat
  = r.
Proof.
  induction n as [|n IH]; intros a timeMap i r; [discriminate|].
  cbn [seq]. rewrite filterDuplicates_cons. cbv zeta.
  destruct (Map_has timeMap (deref store a !! "Tiempo_ms")); cbn [fst snd].
  - intros Hr. pose proof (IH _ _ _ _ Hr) as Hpos.
    rewrite filter_cons. cbn [dup_index].
    destruct (decide (a < r)%nat); [simpl length; lia|].
    assert (S a <= r)%nat; [|lia].
    eapply list_elem_of_lookup_2, elem_of_sublist in Hr;
      [|apply filterDuplicates_sublist].
    apply elem_of_seq in Hr. lia.
  - destruct i as [|i]; simpl.
    + intros [= <-]. rewrite filter_none; [simpl; lia|].
      intros d Hd. apply filterDuplicates_entry in Hd as (Hd & _). lia.
    + intros Hr. pose proof (IH _ _ _ _ Hr) as Hpos. lia.
Qed.

(** X5.  Every entry of [outliersRemoved] is about a row of the file that
    survived duplicate removal and is absent from the cleaned dataset: it
    names a column of [physicalRanges] with its two bounds, the number
    parsed from that row's cell, and the reason that matches the violation.
    Its [index] is the row's position in the array left by duplicate
    removal: the position in the file less the number of duplicates removed
    before the row. *)
Theorem cleanData_outlier_report (store : list Row) (baseInput : string)
    (out : Outcome) (e : OutlierEntry) :
  cleanData (Some store) baseInput = Some out ->
  e ∈ outliersRemoved out ->
  exists r row,
    store !! r = Some row /\
    (r ∉ cleanedData out) /\
    (forall d, d ∈ duplicatesRemoved out -> dup_index d <> r) /\
    (out_index e
     + length (filter (fun d => (dup_index d < r)%nat)
                      (duplicatesRemoved out)))%nat = r /\
    (out_column e, (out_minRange e, out_maxRange e)) ∈ physicalRanges /\
    present (row !! out_column e) = true /\
    out_value e = parseFloat (row !! out_column e) /\
    (isNaN (out_value e) || lt (out_value e) (out_minRange e)
     || gt (out_value e) (out_maxRange e)) = true /\
    out_reason e =
      (if isNaN (out_value e) then NotNumeric
       else if lt (out_value e) (out_minRange e)
            then TooLow (out_value e) (out_minRange e)
            else TooHigh (out_value e) (out_maxRange e)).
Proof.
  intros H He.
  apply cleanData_run in H as (_ & Hc & _ & _ & Hd & Ho & _).
  rewrite Hc, Hd. rewrite Ho in He. clear Hc Hd Ho.
  apply filterOutliers_entry in He as (r & _ & Hr & Hv).
  rewrite Nat.sub_0_r in Hr.
  pose proof (filterDuplicates_position _ _ _ _ _ _ Hr) as Hpos.
  pose proof (list_elem_of_lookup_2 _ _ _ Hr) as Hin.
  pose proof Hin as Hkept.
  apply filterDuplicates_kept_iff in Hkept as [Hlen Hfirst].
  destruct (lookup_lt_is_Some_2 store r Hlen) as [row Hrow].
  rewrite (deref_lookup _ _ _ Hrow) in Hv.
  exists r, row. split; [exact Hrow|]. split; [|split; [|split]].
  - intros [_ Hok]%filterOutliers_kept_iff.
    rewrite (deref_lookup _ _ _ Hrow) in Hok.
    apply (firstViolation_index _ _ (out_index e)) in Hok. congruence.
  - intros d Hd Heq.
    apply filterDuplicates_entry in Hd as (_ & Ht & [Hm|(i & Hi & Hs)]);
      [discriminate|].
    rewrite Ht, Heq in Hs. apply sameValueZero_sym in Hs.
    rewrite Hfirst in Hs; [discriminate|lia].
  - exact Hpos.
  - apply firstViolation_Some in Hv as (_ & Hv). exact Hv.
Qed.

Lemma cleanData_outlier_report_witness :
  exists out,
    cleanData (Some Samples.scenario) "" = Some out /\
    exists e, e ∈ outliersRemoved out /\
    exists r row,
      Samples.scenario !! r = Some row /\
      (r ∉ cleanedData out) /\
      (out_index e
       + length (filter (fun d => (dup_index d < r)%nat)
                        (duplicatesRemoved out)))%nat = r /\
      out_value e = parseFloat (row !! out_column e).
Proof.
  eexists. split; [reflexivity|]. eexists. split; [apply list_elem_of_here|].
  destruct (cleanData_outlier_report Samples.scenario "" _ _ eq_refl
              (list_elem_of_here _ _))
    as (r & row & H1 & H2 & _ & H3 & _ & _ & H4 & _).
  exists r, row. split; [exact H1|]. split; [exact H2|].
  split; [exact H3|exact H4].
Defined.

(** *** The corrected altitude *)




End CleaningReports.

(* ===================================================================== *)
(** ** Every operation returns a well-formed binary64 *)

Section Validity.

Local Open Scope Z_scope.

Variables prec emax : Z.
Hypothesis prec_gt_0 : 0 < prec.

Local Abbreviation emin := (SpecFloat.emin prec emax).
Local Abbreviation fexp := (SpecFloat.fexp prec emax).

Lemma Zdigits2_nonneg m : 0 <= Zdigits2 m.
Proof. destruct m; simpl; lia. Qed.

Lemma Zdigits2_bounds m :
  0 < m -> 2 ^ (Zdigits2 m - 1) <= m < 2 ^ Zdigits2 m.
Proof. destruct m as [|p|p]; try lia. intros _. apply digits2_pos_bounds. Qed.

(** The number of binary digits is determined by the enclosing powers of 2. *)
Lemma Zdigits2_unique m d :
  0 < d -> 2 ^ (d - 1) <= m < 2 ^ d -> Zdigits2 m = d.
Proof.
  intros Hd [Hlo Hhi].
  assert (Hm : 0 < m) by (pose proof (Z.pow_pos_nonneg 2 (d - 1)); lia).
  destruct (Zdigits2_bounds m Hm) as [Hlo' Hhi'].
  pose proof (Zdigits2_nonneg m).
  destruct (Z.lt_trichotomy (Zdigits2 m) d) as [H1|[H1|H1]]; [|exact H1|].
  - assert (2 ^ Zdigits2 m <= 2 ^ (d - 1)) by (apply Z.pow_le_mono_r; lia). lia.
  - assert (2 ^ d <= 2 ^ (Zdigits2 m - 1)) by (apply Z.pow_le_mono_r; lia). lia.
Qed.

Lemma Zdigits2_ge m k : 0 <= k -> 2 ^ k <= m -> k + 1 <= Zdigits2 m.
Proof.
  intros Hk Hm.
  assert (0 < m) by (pose proof (Z.pow_pos_nonneg 2 k); lia).
  destruct (Zdigits2_bounds m ltac:(lia)) as [_ Hhi].
  destruct (Z.le_gt_cases (k + 1) (Zdigits2 m)) as [H1|H1]; [exact H1|].
  assert (2 ^ Zdigits2 m <= 2 ^ k)
    by (apply Z.pow_le_mono_r; lia).
  lia.
Qed.

Lemma Zdigits2_div_pow2 m k :
  0 < m -> 0 < k -> Zdigits2 (m / 2 ^ k) = Z.max 0 (Zdigits2 m - k).
Proof.
  intros Hm Hk.
  destruct (Zdigits2_bounds m Hm) as [Hlo Hhi].
  set (d := Zdigits2 m) in *.
  assert (Hpk : 0 < 2 ^ k) by (apply Z.pow_pos_nonneg; lia).
  destruct (Z.le_gt_cases d k) as [Hdk|Hdk].
  - rewrite Z.max_l by lia. rewrite Z.div_small; [reflexivity|].
    split; [lia|]. eapply Z.lt_le_trans; [exact Hhi|].
    apply Z.pow_le_mono_r; lia.
  - rewrite Z.max_r by lia. apply Zdigits2_unique; [lia|]. split.
    + apply Z.div_le_lower_bound; [lia|].
      rewrite <- Z.pow_add_r by lia.
      replace (k + (d - k - 1)) with (d - 1) by lia. exact Hlo.
    + apply Z.div_lt_upper_bound; [lia|].
      rewrite <- Z.pow_add_r by lia.
      replace (k + (d - k)) with d by lia. exact Hhi.
Qed.

Lemma Zdigits2_succ m :
  0 <= m -> Zdigits2 (m + 1) = Zdigits2 m \/ Zdigits2 (m + 1) = Zdigits2 m + 1.
Proof.
  intros Hm. destruct (Z.eq_dec m 0) as [->|Hne]; [right; reflexivity|].
  destruct (Zdigits2_bounds m ltac:(lia)) as [Hlo Hhi].
  set (d := Zdigits2 m) in *.
  assert (Hd : 0 < d).
  { subst d. destruct m; simpl; lia. }
  destruct (Z.eq_dec (m + 1) (2 ^ d)) as [E|E].
  - right. apply Zdigits2_unique; [lia|].
    replace (d + 1 - 1) with d by lia. split; [lia|].
    rewrite Z.pow_add_r by lia. lia.
  - left. apply Zdigits2_unique; [lia|]. lia.
Qed.

Lemma fexp_monotone a b : a <= b -> fexp a <= fexp b.
Proof. unfold SpecFloat.fexp. lia. Qed.

Lemma fexp_succ a : fexp (a + 1) = fexp a \/ fexp (a + 1) = fexp a + 1.
Proof. unfold SpecFloat.fexp. lia. Qed.

Lemma shr_fexp_canonical m e l :
  0 <= m -> e <= fexp (Zdigits2 m + e) ->
  canonical_pair prec emax (shr_m (fst (shr_fexp prec emax m e l)))
                 (snd (shr_fexp prec emax m e l)).
Proof.
  intros Hm He. unfold shr_fexp, shr, canonical_pair.
  destruct (fexp (Zdigits2 m + e) - e) as [|k|k] eqn:En; try lia;
    cbn [fst snd]; rewrite ?shr_record_of_loc_m.
  - split; [exact Hm|]. lia.
  - rewrite iter_shr_1_div by (rewrite shr_record_of_loc_m; exact Hm).
    rewrite shr_record_of_loc_m.
    split; [apply Z.div_pos; [exact Hm|apply Z.pow_pos_nonneg; lia]|].
    destruct (Z.eq_dec m 0) as [->|Hne].
    + rewrite Z.div_0_l by (pose proof (Z.pow_pos_nonneg 2 (Zpos k)); lia).
      simpl Zdigits2 in *. unfold SpecFloat.fexp in *. lia.
    + rewrite Zdigits2_div_pow2 by lia.
      pose proof (Zdigits2_nonneg m).
      unfold SpecFloat.fexp in *. lia.
Qed.

Lemma shr_fexp_round_canonical m e b :
  canonical_pair prec emax m e -> (b = 0 \/ b = 1) ->
  canonical_pair prec emax
    (shr_m (fst (shr_fexp prec emax (m + b) e loc_Exact)))
    (snd (shr_fexp prec emax (m + b) e loc_Exact)).
Proof.
  intros [Hm Hc] Hb.
  destruct Hb as [->| ->].
  - rewrite Z.add_0_r. apply shr_fexp_canonical; [exact Hm|lia].
  - apply shr_fexp_canonical; [lia|].
    destruct (Zdigits2_succ m Hm) as [-> | ->]; [lia|].
    replace (Zdigits2 m + 1 + e) with (Zdigits2 m + e + 1) by lia.
    destruct (fexp_succ (Zdigits2 m + e)); lia.
Qed.

Lemma round_nearest_even_cases m l :
  round_nearest_even m l = m + 0 \/ round_nearest_even m l = m + 1.
Proof.
  destruct l as [|[]]; simpl; try destruct (Z.even m); rewrite ?Z.add_0_r; auto.
Qed.

(** Rounding a mantissa placed at or below its canonical exponent gives a
    well-formed number. *)
Lemma binary_round_aux_valid s m e l :
  0 <= m -> e <= fexp (Zdigits2 m + e) ->
  valid_binary prec emax (binary_round_aux prec emax s m e l) = true.
Proof.
  intros Hm He. unfold binary_round_aux.
  pose proof (shr_fexp_canonical m e l Hm He) as H1.
  destruct (shr_fexp prec emax m e l) as [r1 e1]. cbn [fst snd] in H1.
  assert (H2 : canonical_pair prec emax
                 (shr_m (fst (shr_fexp prec emax
                    (round_nearest_even (shr_m r1) (loc_of_shr_record r1))
                    e1 loc_Exact)))
                 (snd (shr_fexp prec emax
                    (round_nearest_even (shr_m r1) (loc_of_shr_record r1))
                    e1 loc_Exact))).
  { destruct (round_nearest_even_cases (shr_m r1) (loc_of_shr_record r1))
      as [-> | ->]; apply shr_fexp_round_canonical; auto. }
  destruct (shr_fexp prec emax _ e1 loc_Exact) as [r2 e2]. cbn [fst snd] in H2.
  destruct H2 as [Hm2 Hc2].
  destruct (shr_m r2) as [|p|p]; try lia; [reflexivity|].
  destruct (e2 <=? emax - prec) eqn:Hle; [|reflexivity].
  simpl. unfold bounded, canonical_mantissa.
  rewrite Hle, andb_true_r. apply Z.eqb_eq. exact Hc2.
Qed.

Lemma binary_round_valid s m e :
  valid_binary prec emax (binary_round prec emax s m e) = true.
Proof.
  unfold binary_round.
  destruct (shl_align m e (fexp (Zpos (digits2_pos m) + e))) as [mz ez] eqn:E.
  apply binary_round_aux_valid; [lia|].
  unfold shl_align in E.
  destruct (fexp (Zpos (digits2_pos m) + e) - e) as [|k|k] eqn:En;
    injection E as <- <-; simpl Zdigits2; try lia.
  rewrite digits2_pos_iter_xO.
  replace (Zpos (digits2_pos m) + Zpos k + fexp (Zpos (digits2_pos m) + e))
    with (Zpos (digits2_pos m) + e) by lia.
  lia.
Qed.

Lemma binary_normalize_valid m e szero :
  valid_binary prec emax (binary_normalize prec emax m e szero) = true.
Proof. destruct m; simpl; [reflexivity| |]; apply binary_round_valid. Qed.

Lemma SFdiv_core_binary_canonical m1 e1 m2 e2 :
  0 < m1 -> 0 < m2 ->
  let '(q, e, _) := SFdiv_core_binary prec emax m1 e1 m2 e2 in
  0 <= q /\ e <= fexp (Zdigits2 q + e).
Proof.
  intros Hm1 Hm2. unfold SFdiv_core_binary.
  set (d1 := Zdigits2 m1). set (d2 := Zdigits2 m2).
  set (X := d1 + e1 - (d2 + e2)).
  set (e' := Z.min (fexp X) (e1 - e2)).
  set (s := e1 - e2 - e').
  assert (Hs : 0 <= s) by (subst s e'; lia).
  set (m' := match s with Zpos _ => Z.shiftl m1 s | Z0 => m1 | Zneg _ => 0 end).
  assert (Hm' : m' = m1 * 2 ^ s).
  { subst m'. destruct s as [|k|k];
      [rewrite Z.pow_0_r; lia | apply Z.shiftl_mul_pow2; lia | lia]. }
  pose proof (Z.div_pos m' m2) as Hq.
  assert (Hdiv : fst (Z.div_eucl m' m2) = m' / m2) by reflexivity.
  destruct (Z.div_eucl m' m2) as [q r]. cbn [fst] in Hdiv. subst q.
  assert (Hps : 0 < 2 ^ s) by (apply Z.pow_pos_nonneg; lia).
  split; [apply Hq; nia|].
  destruct (Zdigits2_bounds m1 Hm1) as [Hlo1 _].
  destruct (Zdigits2_bounds m2 Hm2) as [_ Hhi2].
  fold d1 in Hlo1. fold d2 in Hhi2.
  assert (Hd1 : 0 < d1) by (subst d1; destruct m1; simpl; lia).
  assert (Hd2 : 0 < d2) by (subst d2; destruct m2; simpl; lia).
  destruct (Z.le_gt_cases d2 (d1 - 1 + s)) as [Hbig|Hsmall].
  - (* the quotient has at least [d1 + s - d2] digits *)
    assert (Hqlo : 2 ^ (d1 - 1 + s - d2) <= m' / m2).
    { apply Z.div_le_lower_bound; [lia|].
      assert (2 ^ d2 * 2 ^ (d1 - 1 + s - d2) = 2 ^ (d1 - 1) * 2 ^ s).
      { rewrite <- !Z.pow_add_r by lia. f_equal. lia. }
      assert (0 < 2 ^ (d1 - 1 + s - d2)) by (apply Z.pow_pos_nonneg; lia).
      nia. }
    apply Zdigits2_ge in Hqlo; [|lia].
    etransitivity; [apply Z.le_min_l|].
    apply fexp_monotone. subst X s. lia.
  - assert (e' <= emin).
    { subst e' s X. unfold SpecFloat.fexp in *. lia. }
    pose proof (fexp_ge_emin prec emax (Zdigits2 (m' / m2) + e')). lia.
Qed.

End Validity.

(* ===================================================================== *)
(** ** Rows hold well-formed numbers *)

Section WellFormed.

Import Cleaning AirQuality.

Local Open Scope Z_scope.

Lemma of_Z_valid z : valid (of_Z z) = true.
Proof. apply binary_normalize_valid. exact prec_gt_0. Qed.

Lemma decimal_to_number_valid neg m e10 :
  valid (decimal_to_number neg m e10) = true.
Proof.
  unfold decimal_to_number, valid. destruct m as [|p|p]; try reflexivity.
  destruct (0 <=? e10) eqn:E; [apply binary_round_valid; exact prec_gt_0|].
  pose proof (SFdiv_core_binary_canonical prec emax prec_gt_0
                (Zpos p) 0 (10 ^ (- e10)) 0) as H.
  destruct (SFdiv_core_binary prec emax (Zpos p) 0 (10 ^ (- e10)) 0)
    as [[q e] l].
  destruct H as [Hq He]; [lia|apply Z.pow_pos_nonneg; lia|].
  apply binary_round_aux_valid; [exact prec_gt_0|exact Hq|exact He].
Qed.

Lemma parseFloat_string_valid input : valid (parseFloat_string input) = true.
Proof.
  unfold parseFloat_string.
  destruct (read_sign (skip_whitespace input)) as [neg s].
  destruct (String.prefix "Infinity" s); [reflexivity|].
  destruct (digits s 0 0) as [[ip n1] r1].
  match goal with
  | |- context [match ?X with (_, _) => _ end] => destruct X as [[m n2] r2]
  end.
  destruct (n1 + n2 =? 0); [reflexivity|apply decimal_to_number_valid].
Qed.

Lemma sub_valid x y :
  valid x = true -> valid y = true -> valid (sub x y) = true.
Proof.
  unfold valid, sub.
  destruct x as [sx|sx| |sx mx ex], y as [sy|sy| |sy my ey]; simpl;
    intros Hx Hy; try reflexivity; try assumption;
    try (destruct sx, sy; reflexivity).
  apply binary_normalize_valid. exact prec_gt_0.
Qed.

Lemma parseFloat_valid (v : option value) :
  (forall w, v = Some w -> wf_value w) -> valid (parseFloat v) = true.
Proof.
  intros H. destruct v as [[s|x|]|]; simpl; try reflexivity.
  - apply parseFloat_string_valid.
  - specialize (H _ eq_refl). simpl in H. now destruct x.
Qed.

Lemma csvRow_wf cells : wf_row (csvRow cells).
Proof.
  intros column v Hv. unfold csvRow in Hv.
  apply elem_of_list_to_map_2, list_elem_of_fmap in Hv as ([c s] & E & _).
  injection E as _ ->. exact I.
Qed.

Lemma baseAltitudeOf_valid input : valid (baseAltitudeOf input) = true.
Proof.
  unfold baseAltitudeOf, or_else.
  destruct (truthy _); [apply parseFloat_string_valid|apply of_Z_valid].
Qed.

Lemma adjustAltitude_wf b (row : Row) :
  valid b = true -> wf_row row -> wf_row (adjustAltitude b row).
Proof.
  intros Hb Hrow. unfold adjustAltitude.
  destruct (present _); [|exact Hrow].
  intros column v [[_ <-]|[_ Hv]]%lookup_insert_Some.
  - apply sub_valid; [|exact Hb]. apply parseFloat_valid.
    intros w Hw. exact (Hrow _ _ Hw).
  - exact (Hrow _ _ Hv).
Qed.

Lemma deref_wf (store : list Row) r :
  Forall wf_row store -> wf_row (deref store r).
Proof.
  intros Hs. unfold deref. destruct (store !! r) as [row|] eqn:E; simpl.
  - rewrite Forall_lookup in Hs. exact (Hs _ _ E).
  - intros column v Hv. rewrite lookup_empty in Hv. discriminate.
Qed.

Lemma adjustAll_wf b store data :
  valid b = true -> Forall wf_row store ->
  Forall wf_row (adjustAll b store data).
Proof.
  intros Hb. revert store.
  induction data as [|r data IH]; intros store Hs; [exact Hs|].
  rewrite adjustAll_cons. apply IH, Forall_insert; [exact Hs|].
  apply adjustAltitude_wf; [exact Hb|now apply deref_wf].
Qed.

Lemma cleanData_wf store baseInput out :
  cleanData (Some store) baseInput = Some out ->
  Forall wf_row store ->
  Forall wf_row (originalData out) /\ Forall wf_row (cleanedRows out).
Proof.
  intros H Hs. unfold cleanedRows.
  apply cleanData_run in H as (-> & _).
  assert (Hw : Forall wf_row
                 (adjustAll (baseAltitudeOf baseInput) store
                    (filterOutliers store
                       (filterDuplicates store (seq 0 (length store)) 0 []).1
                       0).1))
    by (apply adjustAll_wf; [apply baseAltitudeOf_valid|exact Hs]).
  split; [exact Hw|].
  apply Forall_forall. intros row (r & -> & _)%list_elem_of_fmap.
  now apply deref_wf.
Qed.

Lemma numericColumn_elem (csvData : list Row) column v :
  v ∈ numericColumn csvData column <->
  isNaN v = false /\
  exists row, row ∈ csvData /\ v = parseFloat (row !! column).
Proof.
  unfold numericColumn. rewrite list_elem_of_filter, list_elem_of_fmap.
  split; intros [H1 (row & H2 & H3)]; (split; [exact H1|]); exists row; auto.
Qed.

Lemma numericColumn_comparable (csvData : list Row) column :
  Forall wf_row csvData -> Forall comparable (numericColumn csvData column).
Proof.
  intros Hs. apply Forall_forall.
  intros v (Hn & row & Hrow & ->)%numericColumn_elem.
  split; [|exact Hn]. apply parseFloat_valid. intros w Hw.
  rewrite Forall_forall in Hs. exact (Hs _ Hrow _ _ Hw).
Qed.

End WellFormed.

(* ===================================================================== *)
(** ** Statistics cards *)

Section StatisticsCards.

Import Cleaning AirQuality Stats Cards.

Lemma sort_nonempty values :
  values <> [] -> exists lo hi,
    sort compareFn values !! 0%nat = Some lo /\
    sort compareFn values !! (length (sort compareFn values) - 1)%nat
    = Some hi /\
    lo ∈ values /\ hi ∈ values.
Proof.
  intros Hne.
  pose proof (sort_perm values) as Hperm.
  assert (Hn : (0 < length (sort compareFn values))%nat).
  { rewrite (Permutation_length Hperm).
    destruct values; simpl; [congruence|lia]. }
  destruct (lookup_lt_is_Some_2 (sort compareFn values) 0%nat) as [lo Hlo];
    [lia|].
  destruct (lookup_lt_is_Some_2 (sort compareFn values)
              (length (sort compareFn values) - 1)%nat) as [hi Hhi]; [lia|].
  exists lo, hi. split; [exact Hlo|]. split; [exact Hhi|].
  split; rewrite <- Hperm; eapply list_elem_of_lookup_2; eassumption.
Qed.

(** The extremes and the median of a non-empty array of comparable
    numbers. *)
Lemma calculateStats_sorted values :
  values <> [] -> Forall comparable values ->
  exists lo mid hi,
    min (calculateStats values) = Some lo /\
    median (calculateStats values) = Some mid /\
    max (calculateStats values) = Some hi /\
    lo ∈ values /\ mid ∈ values /\ hi ∈ values /\
    le lo mid = true /\ le mid hi = true /\
    forall v, v ∈ values -> le lo v = true /\ le v hi = true.
Proof.
  intros Hne Hc.
  destruct (sort_nonempty values Hne) as (lo & hi & Hlo & Hhi & Hlov & Hhiv).
  pose proof (sort_perm values) as Hperm.
  set (sorted := sort compareFn values) in *.
  assert (Hn : (0 < length sorted)%nat)
    by (apply lookup_lt_is_Some_1; eauto).
  assert (Hhalf : (length sorted / 2 < length sorted)%nat)
    by (apply Nat.div_lt; lia).
  destruct (lookup_lt_is_Some_2 sorted _ Hhalf) as [mid Hmid].
  assert (Hss : StronglySorted ascending sorted)
    by now apply sort_strongly_sorted.
  assert (Hcs : Forall comparable sorted) by now rewrite Hperm.
  exists lo, mid, hi.
  split; [exact Hlo|]. split; [exact Hmid|]. split; [exact Hhi|].
  split; [exact Hlov|].
  split; [rewrite <- Hperm; eapply list_elem_of_lookup_2; exact Hmid|].
  split; [exact Hhiv|].
  split; [apply (strongly_sorted_lookup sorted 0%nat (length sorted / 2)%nat);
          auto; lia|].
  split; [apply (strongly_sorted_lookup sorted (length sorted / 2)%nat
                   (length sorted - 1)%nat); auto; lia|].
  intros v Hv. rewrite <- Hperm in Hv.
  apply list_elem_of_lookup_1 in Hv as [k Hk].
  assert (k < length sorted)%nat by (apply lookup_lt_is_Some_1; eauto).
  split.
  - apply (strongly_sorted_lookup sorted 0%nat k); auto; lia.
  - apply (strongly_sorted_lookup sorted k (length sorted - 1)%nat);
      auto; lia.
Qed.

(** X7.  On a non-empty array [calculateStats] returns as [min] and [max]
    two elements of the array; when no element is NaN they bound every
    element. *)
Theorem calculateStats_extremes (values : list number) :
  values <> [] ->
  exists lo hi,
    min (calculateStats values) = Some lo /\
    max (calculateStats values) = Some hi /\
    lo ∈ values /\ hi ∈ values /\
    (Forall comparable values ->
     forall v, v ∈ values -> le lo v = true /\ le v hi = true).
Proof.
  intros Hne.
  destruct (sort_nonempty values Hne) as (lo & hi & Hlo & Hhi & Hlov & Hhiv).
  exists lo, hi. split; [exact Hlo|]. split; [exact Hhi|].
  split; [exact Hlov|]. split; [exact Hhiv|].
  intros Hc.
  destruct (calculateStats_sorted values Hne Hc)
    as (lo' & mid & hi' & Hlo' & _ & Hhi' & _ & _ & _ & _ & _ & Hall).
  change (min (calculateStats values)) with (sort compareFn values !! 0%nat)
    in Hlo'.
  change (max (calculateStats values))
    with (sort compareFn values
            !! (length (sort compareFn values) - 1)%nat) in Hhi'.
  assert (lo' = lo) by congruence. assert (hi' = hi) by congruence.
  subst. exact Hall.
Qed.

Lemma calculateStats_extremes_witness :
  let values := map of_Z [3; 1; 2; 4]%Z in
  values <> [] /\ Forall comparable values /\
  min (calculateStats values) = Some (of_Z 1) /\
  max (calculateStats values) = Some (of_Z 4) /\
  le (of_Z 1) (of_Z 2) = true /\ le (of_Z 2) (of_Z 4) = true.
Proof.
  intros values.
  assert (Hne : values <> []) by discriminate.
  assert (Hc : Forall comparable values)
    by (repeat constructor; reflexivity).
  destruct (calculateStats_extremes values Hne)
    as (lo & hi & Hlo & Hhi & _ & _ & Hall).
  assert (Elo : lo = of_Z 1) by (injection Hlo as <-; reflexivity).
  assert (Ehi : hi = of_Z 4) by (injection Hhi as <-; reflexivity).
  subst lo hi.
  split; [exact Hne|]. split; [exact Hc|]. split; [exact Hlo|].
  split; [exact Hhi|]. apply (Hall Hc).
  unfold values. simpl. do 2 apply list_elem_of_further.
  apply list_elem_of_here.
Defined.

(** *** The cards of [generateStatistics] *)

Lemma statCard_Some csvData header card :
  statCard csvData header = Some card ->
  card_header card = header /\
  card_stats card = calculateStats (numericColumn csvData header) /\
  card_points card = length (numericColumn csvData header) /\
  numericColumn csvData header <> [].
Proof.
  unfold statCard.
  destruct (Nat.ltb_spec 0 (length (numericColumn csvData header)))
    as [Hlt|Hge]; [|discriminate].
  intros [= <-]. cbn [card_header card_stats card_points].
  repeat split. intros E. rewrite E in Hlt. simpl in Hlt. lia.
Qed.

Lemma generateStatistics_elem csvHeaders csvData card :
  card ∈ generateStatistics csvHeaders csvData <->
  exists header, header ∈ csvHeaders /\ statCard csvData header = Some card.
Proof. unfold generateStatistics. apply list_elem_of_omap. Qed.

Lemma numericColumn_length (csvData : list Row) column :
  (length (numericColumn csvData column) <= length csvData)%nat.
Proof.
  unfold numericColumn.
  etransitivity; [apply length_filter|]. now rewrite length_map.
Qed.

Lemma numericColumn_count (csvData : list Row) column :
  length (numericColumn csvData column)
  = length (filter (fun row : Row =>
                      isNaN (parseFloat (row !! column)) = false) csvData).
Proof.
  unfold numericColumn.
  induction csvData as [|row csvData IH]; [reflexivity|].
  cbn [map]. rewrite !filter_cons.
  destruct (decide _); simpl length; now rewrite IH.
Qed.

Lemma generateStatistics_headers csvHeaders csvData :
  card_header <$> generateStatistics csvHeaders csvData
  = filter (fun header =>
              (0 < length (numericColumn csvData header))%nat) csvHeaders.
Proof.
  unfold generateStatistics.
  induction csvHeaders as [|header rest IH]; [reflexivity|].
  rewrite filter_cons. cbn [omap list_omap]. unfold statCard at 1.
  destruct (Nat.ltb_spec 0 (length (numericColumn csvData header)))
    as [Hlt|Hge].
  - destruct (decide _) as [_|Hn]; [|contradiction].
    cbn [fmap list_fmap card_header]. f_equal. exact IH.
  - destruct (decide _) as [Hlt|_]; [lia|]. exact IH.
Qed.

(** X8.  [generateStatistics] shows one card for every header whose column
    holds at least one number, in the order of the headers, and none for a
    column without numbers.  The card counts the numeric cells of its
    column, so it never counts more points than there are rows, and its
    minimum and maximum are cells of the column. *)
Theorem generateStatistics_cards (csvHeaders : list string)
    (csvData : list Row) :
  card_header <$> generateStatistics csvHeaders csvData
  = filter (fun header =>
              (0 < length (numericColumn csvData header))%nat) csvHeaders /\
  (forall header,
     header ∈ (card_header <$> generateStatistics csvHeaders csvData) <->
     header ∈ csvHeaders /\
     exists row, row ∈ csvData /\
                 isNaN (parseFloat (row !! header)) = false) /\
  (forall card,
     card ∈ generateStatistics csvHeaders csvData ->
     (0 < card_points card <= length csvData)%nat /\
     card_points card
     = length (filter (fun row : Row =>
                         isNaN (parseFloat (row !! card_header card)) = false)
                      csvData) /\
     exists lo hi rlo rhi,
       min (card_stats card) = Some lo /\ max (card_stats card) = Some hi /\
       rlo ∈ csvData /\ lo = parseFloat (rlo !! card_header card) /\
       rhi ∈ csvData /\ hi = parseFloat (rhi !! card_header card)).
Proof.
  split; [apply generateStatistics_headers|]. split.
  - intros header. rewrite generateStatistics_headers, list_elem_of_filter.
    split.
    + intros [H1 H2]. split; [exact H2|].
      destruct (numericColumn csvData header) as [|v l] eqn:E;
        [simpl in H1; lia|].
      assert (Hv : v ∈ numericColumn csvData header)
        by (rewrite E; apply list_elem_of_here).
      apply numericColumn_elem in Hv as (Hn & row & Hrow & ->). eauto.
    + intros [H1 (row & Hrow & Hn)]. split; [|exact H1].
      assert (Hv : parseFloat (row !! header) ∈ numericColumn csvData header)
        by (apply numericColumn_elem; eauto).
      destruct (numericColumn csvData header); [inversion Hv|simpl; lia].
  - intros card (header & _ & Hc)%generateStatistics_elem.
    apply statCard_Some in Hc as (<- & -> & -> & Hne).
    split; [split; [|apply numericColumn_length]|split].
    + destruct (numericColumn csvData (card_header card));
        [congruence|simpl; lia].
    + apply numericColumn_count.
    + destruct (sort_nonempty _ Hne) as (lo & hi & Hlo & Hhi & Hlov & Hhiv).
      apply numericColumn_elem in Hlov as (_ & rlo & Hrlo & Elo).
      apply numericColumn_elem in Hhiv as (_ & rhi & Hrhi & Ehi).
      exists lo, hi, rlo, rhi. auto 10.
Qed.

Lemma generateStatistics_cards_witness :
  card_header <$>
    generateStatistics ["Resistencia_kOhms"; "Nota"] Samples.raggedRows
  = ["Resistencia_kOhms"] /\
  forall card,
    card ∈ generateStatistics ["Resistencia_kOhms"; "Nota"]
                              Samples.raggedRows ->
    (0 < card_points card <= 3)%nat.
Proof.
  destruct (generateStatistics_cards ["Resistencia_kOhms"; "Nota"]
              Samples.raggedRows) as (H1 & _ & H3).
  split; [exact (eq_trans H1 eq_refl)|].
  intros card Hc. exact (proj1 (H3 card Hc)).
Defined.

End StatisticsCards.

(* ===================================================================== *)
(** ** Statistics of the loaded and of the cleaned dataset *)

Section StatisticsPipeline.

Import Cleaning AirQuality Stats Cards.

(** A row of the cleaned dataset is a retained row of the file with its
    altitude corrected. *)
Lemma cleanedRows_elem store baseInput out (row' : Row) :
  cleanData (Some store) baseInput = Some out ->
  row' ∈ cleanedRows out ->
  exists r row,
    r ∈ cleanedData out /\ store !! r = Some row /\
    row' = adjustAltitude (baseAltitude out) row.
Proof.
  intros H (r & -> & Hr)%list_elem_of_fmap.
  pose proof (cleanedData_NoDup _ _ _ H) as Hnd.
  pose proof (cleanedData_sublist _ _ _ H) as Hsub.
  assert (Hlen : (r < length store)%nat).
  { eapply elem_of_sublist in Hsub; [|exact Hr].
    apply elem_of_seq in Hsub. lia. }
  destruct (lookup_lt_is_Some_2 store r Hlen) as [row Hrow].
  exists r, row. split; [exact Hr|]. split; [exact Hrow|].
  apply cleanData_run in H as (-> & Hc & _ & _ & _ & _ & ->).
  rewrite Hc in *. apply deref_lookup.
  now apply adjustAll_lookup_in.
Qed.

(** The numbers of a bounded column other than the altitude, read from the
    cleaned dataset, lie within the bounds. *)
Lemma cleaned_column_in_range store baseInput out column lo hi v :
  cleanData (Some store) baseInput = Some out ->
  (column, (lo, hi)) ∈ physicalRanges ->
  column <> "Altitud_m" ->
  v ∈ numericColumn (cleanedRows out) column ->
  le lo v = true /\ le v hi = true.
Proof.
  intros H Hin Hc (Hn & row' & Hrow' & ->)%numericColumn_elem.
  destruct (cleanedRows_elem _ _ _ _ H Hrow') as (r & row & Hr & Hrow & ->).
  rewrite adjustAltitude_other in * by exact Hc.
  apply (cleanedData_in_range _ _ _ _ _ _ _ _ H Hr Hrow Hin).
  destruct (row !! column) as [[]|]; try reflexivity; discriminate.
Qed.

Lemma le_finite lo v hi :
  isFinite lo = true -> isFinite hi = true ->
  le lo v = true -> le v hi = true -> isFinite v = true.
Proof.
  unfold le. destruct lo as [?|?| |? ? ?], hi as [?|?| |? ? ?];
    try discriminate; intros _ _;
    destruct v as [?|[]| |? ? ?]; try reflexivity; discriminate.
Qed.

(** X9.  Once the data are cleaned, the statistics card of a bounded column
    other than the altitude shows a minimum, a median and a maximum within
    the bounds of [physicalRanges]; its mean is a number and its standard
    deviation is not negative. *)
Theorem cleaned_statistics_within_range (store : list Row)
    (baseInput : string) (out : Outcome) (csvHeaders : list string)
    (card : StatCard) (lo hi : number) :
  cleanData (Some store) baseInput = Some out ->
  (Z.of_nat (length store) < 2 ^ 32)%Z ->
  card ∈ generateStatistics csvHeaders (cleanedRows out) ->
  (card_header card, (lo, hi)) ∈ physicalRanges ->
  card_header card <> "Altitud_m" ->
  (exists mn mid mx,
     min (card_stats card) = Some mn /\
     median (card_stats card) = Some mid /\
     max (card_stats card) = Some mx /\
     le lo mn = true /\ le mn hi = true /\
     le lo mid = true /\ le mid hi = true /\
     le lo mx = true /\ le mx hi = true) /\
  isNaN (mean (card_stats card)) = false /\
  le zero (stdDev (card_stats card)) = true.
Proof.
  intros H Hlen (header & _ & Hc)%generateStatistics_elem Hin Hne.
  apply statCard_Some in Hc as (<- & -> & _ & Hvalues).
  set (values := numericColumn (cleanedRows out) (card_header card)) in *.
  assert (Hrange : forall v, v ∈ values -> le lo v = true /\ le v hi = true)
    by (intros v; now apply (cleaned_column_in_range store baseInput)).
  destruct (physicalRanges_finite _ _ _ Hin) as [Hlo Hhi].
  assert (Hfin : Forall (fun v => isFinite v = true) values).
  { apply Forall_forall. intros v [H1 H2]%Hrange.
    now apply (le_finite lo v hi). }
  assert (Hsize : (Z.of_nat (length values) < 2 ^ 32)%Z).
  { pose proof (numericColumn_length (cleanedRows out) (card_header card))
      as H1.
    fold values in H1. unfold cleanedRows in H1. rewrite length_map in H1.
    pose proof (sublist_length _ _ (cleanedData_sublist _ _ _ H)) as H2.
    rewrite length_seq in H2. lia. }
  split; [|split; [now apply mean_not_nan|now apply stdDev_nonneg]].
  pose proof (sort_perm values) as Hperm.
  destruct (sort_nonempty values Hvalues) as (mn & mx & Hmn & Hmx & Hmnv & Hmxv).
  assert (Hn : (0 < length (sort compareFn values))%nat)
    by (apply lookup_lt_is_Some_1; eauto).
  destruct (lookup_lt_is_Some_2 (sort compareFn values)
              (length (sort compareFn values) / 2)%nat) as [mid Hmid];
    [apply Nat.div_lt; lia|].
  assert (Hmidv : mid ∈ values)
    by (rewrite <- Hperm; eapply list_elem_of_lookup_2; exact Hmid).
  exists mn, mid, mx.
  split; [exact Hmn|]. split; [exact Hmid|]. split; [exact Hmx|].
  destruct (Hrange _ Hmnv), (Hrange _ Hmidv), (Hrange _ Hmxv). auto 10.
Qed.

Lemma cleaned_statistics_within_range_witness :
  exists out card,
    cleanData (Some Samples.scenario) "" = Some out /\
    card ∈ generateStatistics ["Temperatura_C"] (cleanedRows out) /\
    card_header card = "Temperatura_C" /\
    exists mn mx,
      min (card_stats card) = Some mn /\ max (card_stats card) = Some mx /\
      le (of_Z (-50)) mn = true /\ le mx (of_Z 85) = true.
Proof.
  eexists. eexists. split; [reflexivity|].
  split; [apply list_elem_of_here|]. split; [reflexivity|].
  destruct (cleaned_statistics_within_range
              Samples.scenario "" _ ["Temperatura_C"] _
              (of_Z (-50)) (of_Z 85) eq_refl eq_refl
              (list_elem_of_here _ _) (list_elem_of_here _ _)
              ltac:(discriminate))
    as ((mn & mid & mx & H1 & _ & H2 & H3 & _ & _ & _ & _ & H4) & _).
  exists mn, mx. split; [exact H1|]. split; [exact H2|].
  split; [exact H3|exact H4].
Defined.

(** X10.  Whichever dataset the analysis works on, the rows as PapaParse
    delivered them, the rows [cleanData] retained or the original rows
    after a cleaning, every statistics card is ordered: its minimum is at
    most its median, its median at most its maximum, and the two extremes
    bound every number of the column. *)
Theorem generateStatistics_ordered (cells : list (list (string * string)))
    (baseInput : string) (csvHeaders : list string) (csvData : list Row)
    (card : StatCard) :
  (csvData = csvRow <$> cells \/
   exists out,
     cleanData (Some (csvRow <$> cells)) baseInput = Some out /\
     (csvData = cleanedRows out \/ csvData = originalData out)) ->
  card ∈ generateStatistics csvHeaders csvData ->
  exists lo mid hi,
    min (card_stats card) = Some lo /\
    median (card_stats card) = Some mid /\
    max (card_stats card) = Some hi /\
    le lo mid = true /\ le mid hi = true /\
    forall v, v ∈ numericColumn csvData (card_header card) ->
              le lo v = true /\ le v hi = true.
Proof.
  intros Hdata (header & _ & Hc)%generateStatistics_elem.
  assert (Hloaded : Forall wf_row (csvRow <$> cells)).
  { apply Forall_forall. intros row (c & -> & _)%list_elem_of_fmap.
    apply csvRow_wf. }
  assert (Hwf : Forall wf_row csvData).
  { destruct Hdata as [->|(out & H & [->| ->])]; [exact Hloaded|..];
      now apply (cleanData_wf _ _ _ H). }
  apply statCard_Some in Hc as (<- & -> & _ & Hvalues).
  destruct (calculateStats_sorted _ Hvalues
              (numericColumn_comparable csvData (card_header card) Hwf))
    as (lo & mid & hi & H1 & H2 & H3 & _ & _ & _ & H4 & H5 & H6).
  exists lo, mid, hi. auto 10.
Qed.

Lemma generateStatistics_ordered_witness :
  exists card lo mid hi,
    card ∈ generateStatistics ["Temperatura_C"] Samples.scenario /\
    min (card_stats card) = Some lo /\
    median (card_stats card) = Some mid /\
    max (card_stats card) = Some hi /\
    le lo mid = true /\ le mid hi = true.
Proof.
  eexists.
  destruct (generateStatistics_ordered
              [ [("Tiempo_ms", "0"); ("Temperatura_C", "20")];
                [("Tiempo_ms", "100"); ("Temperatura_C", "21")];
                [("Tiempo_ms", "100"); ("Temperatura_C", "21")];
                [("Tiempo_ms", "200"); ("Temperatura_C", "999")] ]
              "" ["Temperatura_C"] Samples.scenario _
              (or_introl eq_refl) (list_elem_of_here _ _))
    as (lo & mid & hi & H1 & H2 & H3 & H4 & H5 & _).
  exists lo, mid, hi. split; [apply list_elem_of_here|].
  split; [exact H1|]. split; [exact H2|]. split; [exact H3|].
  split; [exact H4|exact H5].
Defined.

End StatisticsPipeline.

(* ===================================================================== *)
(** ** The air-quality analysis *)

Section AirQualityAnalysis.

Import AirQuality Quality.

(** *** Thresholds, table and chart *)

Lemma lt_not_le a b : lt a b = true -> le b a = false.
Proof.
  unfold le, lt, SFleb, SFltb. rewrite (SFcompare_swap a b).
  destruct (SFcompare a b) as [[]|]; simpl; congruence.
Qed.

Lemma not_le_lt a b :
  isNaN a = false -> isNaN b = false -> le b a = false -> lt a b = true.
Proof.
  intros Ha Hb. unfold le, lt, SFleb, SFltb. rewrite (SFcompare_swap a b).
  destruct (SFcompare_not_nan a b Ha Hb) as [c ->].
  destruct c; simpl; congruence.
Qed.

(** A reading below a threshold is below every higher threshold. *)
Lemma below_threshold r (k k' : Z) :
  lt r (of_Z k) = true -> le (of_Z k) (of_Z k') = true ->
  ge r (of_Z k') = false.
Proof.
  intros Hlt Hk. unfold ge.
  destruct (SFleb (of_Z k') r) eqn:E; [|reflexivity].
  apply lt_not_le in Hlt.
  pose proof (le_trans _ _ _ Hk E) as Hle. congruence.
Qed.

(** X11.  The thresholds of [classifyAirQuality] are the bounds of
    [airQualityMetrics]: a reading within [min, max) of a tier is filed
    under that tier, and every reading from 0 up, [Infinity] apart, lies
    within [min, max) of the tier it is filed under. *)
Theorem tierOf_matches_airQualityMetrics (r : number) :
  (forall t,
     ge r (m_min (airQualityMetrics t)) = true ->
     lt r (m_max (airQualityMetrics t)) = true ->
     tierOf r = t) /\
  (ge r (of_Z 0) = true -> r <> Infinity ->
   ge r (m_min (airQualityMetrics (tierOf r))) = true /\
   lt r (m_max (airQualityMetrics (tierOf r))) = true).
Proof.
  split.
  - intros t Hmin Hmax. unfold tierOf.
    destruct t; cbn [airQualityMetrics m_min m_max] in Hmin, Hmax.
    + now rewrite Hmin.
    + rewrite (below_threshold r 300 300 Hmax eq_refl). now rewrite Hmin.
    + rewrite (below_threshold r 200 300 Hmax eq_refl),
        (below_threshold r 200 200 Hmax eq_refl). now rewrite Hmin.
    + rewrite (below_threshold r 100 300 Hmax eq_refl),
        (below_threshold r 100 200 Hmax eq_refl),
        (below_threshold r 100 100 Hmax eq_refl). now rewrite Hmin.
    + now rewrite (below_threshold r 50 300 Hmax eq_refl),
        (below_threshold r 50 200 Hmax eq_refl),
        (below_threshold r 50 100 Hmax eq_refl),
        (below_threshold r 50 50 Hmax eq_refl).
  - intros H0 Hinf.
    assert (Hn : isNaN r = false) by (now destruct r).
    unfold tierOf.
    destruct (ge r (of_Z 300)) eqn:E300;
      [|destruct (ge r (of_Z 200)) eqn:E200;
        [|destruct (ge r (of_Z 100)) eqn:E100;
          [|destruct (ge r (of_Z 50)) eqn:E50]]];
      cbn [airQualityMetrics m_min m_max];
      (split; [assumption|]); try (now apply not_le_lt).
    destruct r as [s|[]| |s m e]; try reflexivity; try discriminate.
    now contradiction Hinf.
Qed.

Lemma tierOf_matches_airQualityMetrics_witness :
  ge (of_Z 250) (of_Z 200) = true /\ lt (of_Z 250) (of_Z 300) = true /\
  tierOf (of_Z 250) = good.
Proof.
  split; [reflexivity|]. split; [reflexivity|].
  exact (proj1 (tierOf_matches_airQualityMetrics (of_Z 250)) good
               eq_refl eq_refl).
Defined.

Lemma members_classify (R : list number) t r :
  r ∈ members (classifyAirQuality R) t <-> r ∈ R /\ tierOf r = t.
Proof.
  unfold classifyAirQuality. rewrite members_classify_from.
  destruct t;
    cbn [members emptyClassification app cl_excellent cl_good
         cl_moderate cl_poor cl_veryPoor];
    rewrite list_elem_of_filter; tauto.
Qed.

Lemma processAltitudeData_all_resistance csvHeaders csvData resistanceData :
  map r_resistance
      (processAltitudeData csvHeaders csvData resistanceData "all")
  = resistanceData.
Proof.
  unfold processAltitudeData. cbn [String.eqb Ascii.eqb Bool.eqb].
  now apply map_imap_id.
Qed.

Lemma pointColor_tier r : pointColor r = m_color (airQualityMetrics (tierOf r)).
Proof.
  unfold pointColor, tierOf.
  destruct (ge r (of_Z 300)); [reflexivity|].
  destruct (ge r (of_Z 200)); [reflexivity|].
  destruct (ge r (of_Z 100)); [reflexivity|].
  destruct (ge r (of_Z 50)); reflexivity.
Qed.

Lemma pointQuality_tier r :
  pointQuality r = m_label (airQualityMetrics (tierOf r)).
Proof.
  unfold pointQuality, tierOf.
  destruct (ge r (of_Z 300)); [reflexivity|].
  destruct (ge r (of_Z 200)); [reflexivity|].
  destruct (ge r (of_Z 100)); [reflexivity|].
  destruct (ge r (of_Z 50)); reflexivity.
Qed.

Lemma m_color_inj t t' :
  m_color (airQualityMetrics t) = m_color (airQualityMetrics t') -> t = t'.
Proof. destruct t, t'; simpl; intros H; try reflexivity; discriminate. Qed.

Lemma count_classify (R : list number) t :
  count (classifyAirQuality R) t
  = length (filter (fun v => tierOf v = t) R).
Proof.
  unfold count, classifyAirQuality. rewrite members_classify_from.
  now destruct t.
Qed.

(** The markers of a tier's colour are the points of that tier. *)
Lemma colour_count (points : list Reading) t :
  length (filter (fun c => c = m_color (airQualityMetrics t))
                 (map (fun point => pointColor (r_resistance point)) points))
  = length (filter (fun v => tierOf v = t) (map r_resistance points)).
Proof.
  induction points as [|p points IH]; [reflexivity|].
  cbn [map]. rewrite !filter_cons, pointColor_tier.
  destruct (decide (tierOf (r_resistance p) = t)) as [E|E].
  - rewrite E. destruct (decide _) as [_|Hn]; [|congruence].
    simpl length. now rewrite IH.
  - destruct (decide _) as [Hc|_]; [|exact IH].
    now apply m_color_inj in Hc.
Qed.

(** The chart of an analysis whose classification is taken over the points
    of the chart. *)
Lemma chart_of_classified_points csvHeaders csvData resistanceData interval :
  let trace :=
    generateQualityChart csvHeaders csvData resistanceData interval in
  let qa := classifyAirQuality (trace_y trace) in
  (forall i r,
     trace_y trace !! i = Some r ->
     r ∈ members qa (tierOf r) /\
     trace_color trace !! i = Some (m_color (airQualityMetrics (tierOf r))) /\
     trace_quality trace !! i
     = Some (m_label (airQualityMetrics (tierOf r)))) /\
  (forall t,
     length (filter (fun c => c = m_color (airQualityMetrics t))
                    (trace_color trace))
     = count qa t).
Proof.
  intros trace qa. subst trace qa.
  cbn [generateQualityChart trace_y trace_color trace_quality].
  set (points := processAltitudeData _ _ _ _).
  split.
  - intros i r Hr. change (map ?f ?l) with (f <$> l) in *.
    rewrite list_lookup_fmap in Hr. rewrite !list_lookup_fmap.
    destruct (points !! i) as [p|] eqn:Hp; [|discriminate].
    cbn [fmap option_fmap option_map] in *. injection Hr as <-.
    split; [|now rewrite pointColor_tier, pointQuality_tier].
    apply members_classify. split; [|reflexivity].
    apply list_elem_of_fmap. exists p. split; [reflexivity|].
    eapply list_elem_of_lookup_2, Hp.
  - intros t. now rewrite colour_count, count_classify.
Qed.

(** X12.  Chart and overview agree where both are taken over the same
    points: after [updateAirQualityAnalysis], and after
    [generateAirQualityAnalysis] with the interval ['all'], every point
    [generateQualityChart] draws is counted in the overview under its own
    tier, is drawn in that tier's colour of [airQualityMetrics] and is
    described with that tier's label, and the markers of a tier's colour
    are as many as the overview counts for the tier.  After
    [generateAirQualityAnalysis] with another interval they need not agree:
    the overview counts the readings and the chart draws their averages;
    the readings 10 and 390 give one marker in the colour of [good] while
    the overview counts one [excellent] and one [veryPoor] reading. *)
Theorem chart_agrees_with_classification :
  (forall (rows : list Row) (csvHeaders : list string) (interval : string)
          (a : Analysis),
     updateAirQualityAnalysis (Some rows) csvHeaders interval = Some a \/
     (interval = "all" /\
      generateAirQualityAnalysis (Some rows) csvHeaders interval = Some a) ->
     let trace :=
       generateQualityChart csvHeaders rows
         (numericColumn rows "Resistencia_kOhms") interval in
     (forall i r,
        trace_y trace !! i = Some r ->
        r ∈ members (qualityAnalysis a) (tierOf r) /\
        trace_color trace !! i
        = Some (m_color (airQualityMetrics (tierOf r))) /\
        trace_quality trace !! i
        = Some (m_label (airQualityMetrics (tierOf r)))) /\
     (forall t,
        length (filter (fun c => c = m_color (airQualityMetrics t))
                       (trace_color trace))
        = count (qualityAnalysis a) t)) /\
  (trace_color (generateQualityChart ["Resistencia_kOhms"] Samples.twoReadings
                  (numericColumn Samples.twoReadings "Resistencia_kOhms")
                  "10")
   = [m_color (airQualityMetrics good)] /\
   (fun a => (count (qualityAnalysis a) excellent,
              count (qualityAnalysis a) good,
              count (qualityAnalysis a) moderate,
              count (qualityAnalysis a) poor,
              count (qualityAnalysis a) veryPoor))
     <$> generateAirQualityAnalysis (Some Samples.twoReadings)
           ["Resistencia_kOhms"] "10"
   = Some (1, 0, 0, 0, 1)%nat).
Proof.
  split; [|split; vm_compute; reflexivity].
  intros rows csvHeaders interval a Ha trace.
  assert (Hqa : qualityAnalysis a = classifyAirQuality (trace_y trace)).
  { subst trace. cbn [generateQualityChart trace_y].
    destruct Ha as [Ha|[-> Ha]].
    - unfold updateAirQualityAnalysis in Ha.
      destruct (includes csvHeaders "Resistencia_kOhms"); [|discriminate].
      now injection Ha as <-.
    - unfold generateAirQualityAnalysis in Ha.
      destruct (includes csvHeaders "Resistencia_kOhms"); [|discriminate].
      injection Ha as <-. cbn [qualityAnalysis].
      now rewrite processAltitudeData_all_resistance. }
  rewrite Hqa. apply chart_of_classified_points.
Qed.

Lemma chart_agrees_with_classification_witness :
  exists a,
    updateAirQualityAnalysis (Some Samples.twoReadings)
                             ["Resistencia_kOhms"] "10" = Some a /\
    length (filter (fun c => c = m_color (airQualityMetrics good))
              (trace_color
                 (generateQualityChart ["Resistencia_kOhms"]
                    Samples.twoReadings
                    (numericColumn Samples.twoReadings "Resistencia_kOhms")
                    "10")))
    = count (qualityAnalysis a) good.
Proof.
  eexists. split; [reflexivity|].
  exact (proj2 (proj1 chart_agrees_with_classification
                  Samples.twoReadings ["Resistencia_kOhms"] "10" _
                  (or_introl eq_refl)) good).
Defined.

(** *** Totals *)

Lemma totalData_classify (R : list number) :
  totalData (classifyAirQuality R) = length R.
Proof.
  unfold totalData, classifyAirQuality, keys. cbn [map fold_left].
  rewrite !members_classify_from.
  cbn [members emptyClassification app cl_excellent cl_good
       cl_moderate cl_poor cl_veryPoor].
  pose proof (tier_filters_length R). lia.
Qed.

Lemma predominantQuality_max (qa : Classification) :
  exists p,
    predominantQuality qa = Some p /\
    forall t, (count qa t <= count qa p)%nat.
Proof.
  unfold predominantQuality, reduce, keys, count. simpl fold_left.
  repeat match goal with
         | |- context [(?a <? ?b)%nat] => destruct (Nat.ltb_spec a b)
         | H : context [(?a <? ?b)%nat] |- _ => destruct (Nat.ltb_spec a b)
         end;
    eexists; (split; [reflexivity|]);
    intros t; destruct t; simpl in *; lia.
Qed.

Lemma count_sum (qa : Classification) :
  totalData qa
  = (count qa excellent + count qa good + count qa moderate + count qa poor
     + count qa veryPoor)%nat.
Proof. unfold totalData, keys, count. cbn [map fold_left]. lia. Qed.

(** X13.  The predominant quality shown by [generateQualityMetrics] holds
    at least a fifth of the classified readings, and at least one reading
    as soon as there is one. *)
Theorem predominant_holds_a_fifth (resistanceData : list number) :
  exists p,
    predominant (generateQualityMetrics (classifyAirQuality resistanceData)
                                        resistanceData) = Some p /\
    (length resistanceData
     <= 5 * count (classifyAirQuality resistanceData) p)%nat /\
    (resistanceData <> [] ->
     (0 < count (classifyAirQuality resistanceData) p)%nat).
Proof.
  destruct (predominantQuality_max (classifyAirQuality resistanceData))
    as (p & Hp & Hmax).
  exists p. split; [exact Hp|].
  pose proof (totalData_classify resistanceData) as Ht.
  rewrite count_sum in Ht.
  pose proof (Hmax excellent). pose proof (Hmax good).
  pose proof (Hmax moderate). pose proof (Hmax poor).
  pose proof (Hmax veryPoor).
  split; [lia|]. intros Hne.
  destruct resistanceData; [congruence|]. simpl length in Ht. lia.
Qed.

Lemma predominant_holds_a_fifth_witness :
  [of_Z 350; of_Z 10; of_Z 20] <> [] /\
  predominant (generateQualityMetrics
                 (classifyAirQuality [of_Z 350; of_Z 10; of_Z 20])
                 [of_Z 350; of_Z 10; of_Z 20]) = Some veryPoor /\
  (0 < count (classifyAirQuality [of_Z 350; of_Z 10; of_Z 20]) veryPoor)%nat.
Proof.
  destruct (predominant_holds_a_fifth [of_Z 350; of_Z 10; of_Z 20])
    as (p & Hp & _ & Hpos).
  assert (Hq : predominant (generateQualityMetrics
                              (classifyAirQuality
                                 [of_Z 350; of_Z 10; of_Z 20])
                              [of_Z 350; of_Z 10; of_Z 20]) = Some veryPoor)
    by (vm_compute; reflexivity).
  assert (E : p = veryPoor) by congruence.
  subst p. split; [discriminate|]. split; [exact Hp|].
  apply Hpos. discriminate.
Defined.

(** *** [Math.max] and [Math.min] *)

Lemma max_from_spec (l : list number) : forall h,
  isNaN h = false -> Forall (fun v => isNaN v = false) l ->
  (max_from h l = h \/ max_from h l ∈ l) /\
  le h (max_from h l) = true /\
  forall x, x ∈ l -> le x (max_from h l) = true.
Proof.
  induction l as [|x l IH]; intros h Hh Hl.
  - split; [now left|]. split; [now apply le_refl|].
    intros x Hx. inversion Hx.
  - apply Forall_cons in Hl as [Hx Hl]. cbn [max_from]. rewrite Hx.
    assert (Hstep : forall h',
              isNaN h' = false -> (h' = h \/ h' = x) ->
              le h h' = true -> le x h' = true ->
              (max_from h' l = h \/ max_from h' l ∈ x :: l) /\
              le h (max_from h' l) = true /\
              forall y, y ∈ x :: l -> le y (max_from h' l) = true).
    { intros h' Hh' Hsel Hhh' Hxh'.
      destruct (IH h' Hh' Hl) as (Hm & Hle & Hall).
      split; [|split].
      - destruct Hm as [->|Hm]; [|right; now apply list_elem_of_further].
        destruct Hsel as [->| ->]; [now left|right; apply list_elem_of_here].
      - eapply le_trans; eassumption.
      - intros y [->|Hy]%elem_of_cons; [|now apply Hall].
        eapply le_trans; eassumption. }
    assert (Hgt : (max_from (if gt x h then x else h) l = h \/
                   max_from (if gt x h then x else h) l ∈ x :: l) /\
                  le h (max_from (if gt x h then x else h) l) = true /\
                  forall y, y ∈ x :: l ->
                    le y (max_from (if gt x h then x else h) l) = true).
    { destruct (gt x h) eqn:E.
      - apply Hstep; [exact Hx|now right|now apply gt_le|now apply le_refl].
      - apply Hstep; [exact Hh|now left|now apply le_refl|
                      now apply not_gt_le]. }
    destruct x as [[]|sx| |sx mx ex]; try exact Hgt; try discriminate.
    destruct h as [[]|sh| |sh mh eh]; try exact Hgt.
    apply Hstep; [reflexivity|now right|reflexivity|reflexivity].
Qed.

Lemma min_from_spec (l : list number) : forall h,
  isNaN h = false -> Forall (fun v => isNaN v = false) l ->
  (min_from h l = h \/ min_from h l ∈ l) /\
  le (min_from h l) h = true /\
  forall x, x ∈ l -> le (min_from h l) x = true.
Proof.
  induction l as [|x l IH]; intros h Hh Hl.
  - split; [now left|]. split; [now apply le_refl|].
    intros x Hx. inversion Hx.
  - apply Forall_cons in Hl as [Hx Hl]. cbn [min_from]. rewrite Hx.
    assert (Hstep : forall h',
              isNaN h' = false -> (h' = h \/ h' = x) ->
              le h' h = true -> le h' x = true ->
              (min_from h' l = h \/ min_from h' l ∈ x :: l) /\
              le (min_from h' l) h = true /\
              forall y, y ∈ x :: l -> le (min_from h' l) y = true).
    { intros h' Hh' Hsel Hhh' Hxh'.
      destruct (IH h' Hh' Hl) as (Hm & Hle & Hall).
      split; [|split].
      - destruct Hm as [->|Hm]; [|right; now apply list_elem_of_further].
        destruct Hsel as [->| ->]; [now left|right; apply list_elem_of_here].
      - eapply le_trans; eassumption.
      - intros y [->|Hy]%elem_of_cons; [|now apply Hall].
        eapply le_trans; eassumption. }
    assert (Hlt : (min_from (if lt x h then x else h) l = h \/
                   min_from (if lt x h then x else h) l ∈ x :: l) /\
                  le (min_from (if lt x h then x else h) l) h = true /\
                  forall y, y ∈ x :: l ->
                    le (min_from (if lt x h then x else h) l) y = true).
    { destruct (lt x h) eqn:E.
      - apply Hstep; [exact Hx|now right|now apply (gt_le h x)|
                      now apply le_refl].
      - apply Hstep; [exact Hh|now left|now apply le_refl|
                      now apply (not_gt_le h x)]. }
    destruct x as [[]|sx| |sx mx ex]; try exact Hlt; try discriminate.
    destruct h as [[]|sh| |sh mh eh]; try exact Hlt.
    apply Hstep; [reflexivity|now right|reflexivity|reflexivity].
Qed.

(** X14.  On a non-empty array without NaN, the maximum and the minimum
    resistance [generateQualityMetrics] shows are readings of the array and
    bound every reading. *)
Theorem generateQualityMetrics_extremes (qa : Classification)
    (resistanceData : list number) :
  resistanceData <> [] ->
  Forall (fun v => isNaN v = false) resistanceData ->
  let m := generateQualityMetrics qa resistanceData in
  maxResistance m ∈ resistanceData /\
  minResistance m ∈ resistanceData /\
  forall v, v ∈ resistanceData ->
    le (minResistance m) v = true /\ le v (maxResistance m) = true.
Proof.
  intros Hne Hn m. subst m. cbn [generateQualityMetrics maxResistance
                                 minResistance].
  unfold Math_max, Math_min.
  destruct (max_from_spec resistanceData (S754_infinity true) eq_refl Hn)
    as (Hmax & _ & Hmaxall).
  destruct (min_from_spec resistanceData (S754_infinity false) eq_refl Hn)
    as (Hmin & _ & Hminall).
  destruct resistanceData as [|x l]; [congruence|].
  assert (Hx : x ∈ x :: l) by apply list_elem_of_here.
  split; [|split].
  - destruct Hmax as [E|Hin]; [|exact Hin].
    pose proof (Hmaxall x Hx) as Hle. rewrite E in Hle |- *.
    unfold le in Hle.
    destruct x as [?|[]| |? ? ?]; try discriminate. exact Hx.
  - destruct Hmin as [E|Hin]; [|exact Hin].
    pose proof (Hminall x Hx) as Hle. rewrite E in Hle |- *.
    unfold le in Hle.
    destruct x as [?|[]| |? ? ?]; try discriminate. exact Hx.
  - intros v Hv. split; [now apply Hminall|now apply Hmaxall].
Qed.

Lemma generateQualityMetrics_extremes_witness :
  let data := [of_Z 120; of_Z 340; of_Z 75] in
  data <> [] /\ Forall (fun v => isNaN v = false) data /\
  maxResistance (generateQualityMetrics (classifyAirQuality data) data)
    ∈ data /\
  minResistance (generateQualityMetrics (classifyAirQuality data) data)
    ∈ data.
Proof.
  intros data.
  assert (Hne : data <> []) by discriminate.
  assert (Hn : Forall (fun v => isNaN v = false) data)
    by (repeat constructor).
  destruct (generateQualityMetrics_extremes (classifyAirQuality data) data
              Hne Hn) as (H1 & H2 & _).
  split; [exact Hne|]. split; [exact Hn|]. split; [exact H1|exact H2].
Defined.

End AirQualityAnalysis.

(* ===================================================================== *)
(** ** The vertical profile: [processAltitudeData] *)

Section VerticalProfile.

Import AirQuality Quality.

(** *** All readings *)

(** The profile of all readings is the one of [processAltitudeData_all],
    no point carrying a [count]. *)
Lemma processAltitudeData_all_points csvHeaders csvData resistanceData :
  processAltitudeData csvHeaders csvData resistanceData "all"
  = map (fun p => {| r_altitude := altitude p;
                     r_resistance := resistance p;
                     r_count := None |})
        (processAltitudeData_all csvHeaders csvData resistanceData).
Proof.
  unfold processAltitudeData, processAltitudeData_all, altitudeDataOf.
  cbn [String.eqb Ascii.eqb Bool.eqb].
  generalize (if includes csvHeaders "Altitud_m"
              then numericColumn csvData "Altitud_m"
              else replicate (length resistanceData) (of_Z 0)).
  intros altitudeData.
  change (map ?f ?l) with (f <$> l). rewrite fmap_imap. reflexivity.
Qed.

(** X15.  With the interval ['all'], [updateAirQualityAnalysis] shows what
    [generateAirQualityAnalysis] shows: the same classification, the same
    chart points and the same metrics. *)
Theorem updateAirQualityAnalysis_all (csvData : option (list Row))
    (csvHeaders : list string) :
  updateAirQualityAnalysis csvData csvHeaders "all"
  = generateAirQualityAnalysis csvData csvHeaders "all".
Proof.
  unfold updateAirQualityAnalysis, generateAirQualityAnalysis.
  destruct csvData as [csvData|]; [|reflexivity].
  destruct (includes csvHeaders "Resistencia_kOhms"); [|reflexivity].
  now rewrite processAltitudeData_all_resistance.
Qed.

(** X16.  An analysis is produced exactly when data are loaded and the
    headers include [Resistencia_kOhms].  [generateAirQualityAnalysis] then
    classifies every row with a numeric resistance, once, whatever the
    interval; [updateAirQualityAnalysis] classifies the points of the
    chart, one per point. *)
Theorem air_quality_analysis_totals (csvData : option (list Row))
    (csvHeaders : list string) (interval : string) :
  (generateAirQualityAnalysis csvData csvHeaders interval = None <->
   csvData = None \/ includes csvHeaders "Resistencia_kOhms" = false) /\
  (updateAirQualityAnalysis csvData csvHeaders interval = None <->
   csvData = None \/ includes csvHeaders "Resistencia_kOhms" = false) /\
  (forall rows a,
     csvData = Some rows ->
     generateAirQualityAnalysis csvData csvHeaders interval = Some a ->
     totalData (qualityAnalysis a)
     = length (filter (fun row : Row =>
                         isNaN (parseFloat (row !! "Resistencia_kOhms"))
                         = false) rows) /\
     (totalData (qualityAnalysis a) <= length rows)%nat) /\
  (forall a,
     updateAirQualityAnalysis csvData csvHeaders interval = Some a ->
     totalData (qualityAnalysis a) = length (chartPoints a)).
Proof.
  unfold generateAirQualityAnalysis, updateAirQualityAnalysis.
  destruct csvData as [csvData|];
    [|repeat split; try discriminate; auto].
  destruct (includes csvHeaders "Resistencia_kOhms");
    [|repeat split; try discriminate; auto].
  split; [split; [discriminate|intros [?|?]; discriminate]|].
  split; [split; [discriminate|intros [?|?]; discriminate]|].
  split.
  - intros rows a [= <-] [= <-]. cbn [qualityAnalysis].
    rewrite totalData_classify, <- numericColumn_count.
    split; [reflexivity|apply numericColumn_length].
  - intros a [= <-]. cbn [qualityAnalysis chartPoints].
    now rewrite totalData_classify, length_map.
Qed.

Lemma air_quality_analysis_totals_witness :
  exists a,
    generateAirQualityAnalysis (Some Samples.raggedRows)
                               Samples.profileHeaders "all" = Some a /\
    totalData (qualityAnalysis a) = 2%nat.
Proof.
  eexists. split; [reflexivity|].
  destruct (air_quality_analysis_totals (Some Samples.raggedRows)
              Samples.profileHeaders "all") as (_ & _ & H & _).
  exact (eq_trans (proj1 (H _ _ eq_refl eq_refl)) eq_refl).
Defined.

(** *** Averages per altitude interval *)

Lemma addToGroup_sum groups groupKey point :
  sum_list ((fun entry => length entry.2) <$> addToGroup groups groupKey point)
  = S (sum_list ((fun entry : number * list Point => length entry.2)
                   <$> groups)).
Proof.
  induction groups as [|[key points] rest IH]; [reflexivity|].
  cbn [addToGroup]. destruct (same_key key groupKey);
    cbn [fmap list_fmap sum_list snd]; [rewrite length_app; simpl; lia|].
  cbn [fmap list_fmap sum_list snd] in IH. rewrite IH. lia.
Qed.

Lemma addToGroup_nonempty groups groupKey point :
  Forall (fun entry : number * list Point => entry.2 <> []) groups ->
  Forall (fun entry : number * list Point => entry.2 <> [])
         (addToGroup groups groupKey point).
Proof.
  induction groups as [|[key points] rest IH]; intros H.
  - repeat constructor. discriminate.
  - apply Forall_cons in H as [H1 H2]. cbn [addToGroup].
    destruct (same_key key groupKey); constructor; auto.
    cbn [snd]. destruct points; discriminate.
Qed.

Lemma addToGroup_length groups groupKey point :
  (length (addToGroup groups groupKey point) <= S (length groups))%nat.
Proof.
  induction groups as [|[key points] rest IH]; [reflexivity|].
  cbn [addToGroup]. destruct (same_key key groupKey); simpl in *; lia.
Qed.

Lemma fold_addToGroup {A} (f : list (number * list Point) -> A ->
                               list (number * list Point)) (l : list A) :
  (forall groups x,
     exists key point, f groups x = addToGroup groups key point) ->
  forall groups,
    sum_list ((fun entry => length entry.2) <$> fold_left f l groups)
    = (sum_list ((fun entry => length entry.2) <$> groups) + length l)%nat /\
    (Forall (fun entry => entry.2 <> []) groups ->
     Forall (fun entry => entry.2 <> []) (fold_left f l groups)) /\
    (length (fold_left f l groups) <= length groups + length l)%nat.
Proof.
  intros Hf. induction l as [|x l IH]; intros groups.
  - simpl. split; [lia|]. split; [auto|lia].
  - cbn [fold_left]. destruct (IH (f groups x)) as (H1 & H2 & H3).
    destruct (Hf groups x) as (key & point & E).
    rewrite E in *. rewrite addToGroup_sum in H1.
    pose proof (addToGroup_length groups key point).
    split; [simpl length; lia|].
    split; [|simpl length; lia].
    intros Hne. now apply H2, addToGroup_nonempty.
Qed.

Lemma groupReadings_spec altitudeData resistanceData intervalSize :
  sum_list ((fun entry => length entry.2)
              <$> groupReadings altitudeData resistanceData intervalSize)
  = length resistanceData /\
  Forall (fun entry => entry.2 <> [])
         (groupReadings altitudeData resistanceData intervalSize) /\
  (length (groupReadings altitudeData resistanceData intervalSize)
   <= length resistanceData)%nat.
Proof.
  unfold groupReadings.
  match goal with
  | |- context [fold_left ?f ?l []] =>
      destruct (fold_addToGroup f l) with (groups := @nil (number * list Point))
        as (H1 & H2 & H3)
  end.
  - intros groups [index resistance]. eauto.
  - rewrite length_imap in *. simpl in *.
    split; [exact H1|]. split; [apply H2; constructor|exact H3].
Qed.

Lemma insertIndexed_perm {A} z (entry : A) l :
  insertIndexed z entry l ≡ₚ (z, entry) :: l.
Proof.
  induction l as [|[z' entry'] l IH]; [reflexivity|].
  cbn [insertIndexed]. destruct (z <? z')%Z; [reflexivity|].
  rewrite IH. apply perm_swap.
Qed.

Lemma orderedEntries_perm groups : orderedEntries groups ≡ₚ groups.
Proof.
  unfold orderedEntries.
  induction groups as [|entry groups IH]; [reflexivity|].
  cbn [fold_right]. rewrite filter_cons.
  destruct (array_index entry.1) as [z|] eqn:E.
  - destruct (decide _) as [?|_]; [congruence|].
    rewrite insertIndexed_perm. cbn [fmap list_fmap snd app].
    now constructor.
  - destruct (decide _) as [_|?]; [|congruence].
    rewrite <- Permutation_middle. now constructor.
Qed.

Lemma insertByAltitude_perm x l : insertByAltitude x l ≡ₚ x :: l.
Proof.
  induction l as [|y l IH]; [reflexivity|].
  cbn [insertByAltitude]. destruct (gt _ _); [|reflexivity].
  rewrite IH. apply perm_swap.
Qed.

Lemma sortByAltitude_perm l : sortByAltitude l ≡ₚ l.
Proof.
  induction l as [|x l IH]; [reflexivity|].
  cbn [sortByAltitude fold_right]. rewrite insertByAltitude_perm.
  now constructor.
Qed.

Lemma sum_list_perm (l1 l2 : list nat) :
  l1 ≡ₚ l2 -> sum_list l1 = sum_list l2.
Proof. induction 1; simpl; lia. Qed.

Lemma omap_count_average (groups : list (number * list Point)) :
  omap r_count (map (fun entry => averageGroup entry.2) groups)
  = (fun entry => length entry.2) <$> groups.
Proof.
  induction groups as [|entry groups IH]; [reflexivity|].
  cbn [map omap list_omap fmap list_fmap averageGroup r_count].
  f_equal. exact IH.
Qed.

(** With an interval other than ['all'] the points are the averages of the
    groups, in some order. *)
Lemma processAltitudeData_groups csvHeaders csvData resistanceData interval :
  String.eqb interval "all" = false ->
  processAltitudeData csvHeaders csvData resistanceData interval
  ≡ₚ map (fun entry => averageGroup entry.2)
         (groupReadings (altitudeDataOf csvHeaders csvData resistanceData)
                        resistanceData (parseInt interval)).
Proof.
  intros E. unfold processAltitudeData. rewrite E.
  rewrite sortByAltitude_perm.
  change (map ?f ?l) with (f <$> l). now rewrite orderedEntries_perm.
Qed.

(** X17.  Averaging per altitude interval loses no reading and counts none
    twice: the [count]s of the points add up to the number of readings,
    every point stands for at least one reading, and there are never more
    points than readings.  With the interval ['all'] there is one point per
    reading and no point carries a [count]. *)
Theorem processAltitudeData_counts (csvHeaders : list string)
    (csvData : list Row) (resistanceData : list number) (interval : string) :
  let points :=
    processAltitudeData csvHeaders csvData resistanceData interval in
  (length points <= length resistanceData)%nat /\
  (resistanceData <> [] -> points <> []) /\
  (interval = "all" ->
   length points = length resistanceData /\
   Forall (fun p => r_count p = None) points) /\
  (interval <> "all" ->
   sum_list (omap r_count points) = length resistanceData /\
   Forall (fun p => exists n, r_count p = Some n /\ (0 < n)%nat) points).
Proof.
  intros points. subst points.
  destruct (String.eqb_spec interval "all") as [->|Hne].
  - rewrite processAltitudeData_all_points, length_map,
      processAltitudeData_all_length.
    split; [lia|]. split; [|split; [|congruence]].
    + intros Hr E. apply (f_equal length) in E.
      rewrite length_map, processAltitudeData_all_length in E.
      destruct resistanceData; [congruence|discriminate].
    + intros _. split; [reflexivity|].
      apply Forall_forall. intros p Hp.
      apply list_elem_of_fmap in Hp as (q & -> & _). reflexivity.
  - assert (E : String.eqb interval "all" = false)
      by (now apply String.eqb_neq).
    pose proof (processAltitudeData_groups csvHeaders csvData resistanceData
                  interval E) as Hperm.
    destruct (groupReadings_spec
                (altitudeDataOf csvHeaders csvData resistanceData)
                resistanceData (parseInt interval)) as (Hsum & Hnonempty & Hlen).
    set (groups := groupReadings _ _ _) in *.
    assert (Hcount : sum_list (omap r_count
                       (processAltitudeData csvHeaders csvData
                          resistanceData interval))
                     = length resistanceData).
    { rewrite (sum_list_perm _ _ (omap_Permutation r_count _ _ Hperm)).
      now rewrite omap_count_average. }
    split; [rewrite (Permutation_length Hperm), length_map; exact Hlen|].
    split; [|split; [congruence|]].
    + intros Hr E'. rewrite E' in Hcount. simpl in Hcount.
      destruct resistanceData; [congruence|discriminate].
    + intros _. split; [exact Hcount|].
      rewrite Hperm. apply Forall_forall. intros p Hp.
      apply list_elem_of_fmap in Hp as (entry & -> & Hentry).
      rewrite Forall_forall in Hnonempty. specialize (Hnonempty _ Hentry).
      exists (length entry.2). split; [reflexivity|].
      destruct entry.2; [congruence|simpl; lia].
Qed.

Lemma processAltitudeData_counts_witness :
  "10" <> "all" /\
  sum_list (omap r_count
              (processAltitudeData Samples.profileHeaders Samples.profileRows
                 (numericColumn Samples.profileRows "Resistencia_kOhms")
                 "10"))
  = 3%nat.
Proof.
  assert (Hne : "10" <> "all") by discriminate.
  split; [exact Hne|].
  exact (proj1 (proj2 (proj2 (proj2
           (processAltitudeData_counts Samples.profileHeaders
              Samples.profileRows
              (numericColumn Samples.profileRows "Resistencia_kOhms")
              "10"))) Hne)).
Defined.

(** *** The points are drawn in ascending altitude *)

Lemma div_valid x y : valid (div x y) = true.
Proof.
  unfold valid, div.
  destruct x as [sx|sx| |sx mx ex], y as [sy|sy| |sy my ey]; try reflexivity.
  cbn [SFdiv].
  pose proof (SFdiv_core_binary_canonical prec emax prec_gt_0
                (Zpos mx) ex (Zpos my) ey) as H.
  destruct (SFdiv_core_binary prec emax (Zpos mx) ex (Zpos my) ey)
    as [[q e] l].
  destruct H as [Hq He]; [reflexivity..|].
  apply binary_round_aux_valid; [exact prec_gt_0|exact Hq|exact He].
Qed.

Lemma insertByAltitude_HdRel y x l :
  le (r_altitude y) (r_altitude x) = true ->
  HdRel (fun a b => le (r_altitude a) (r_altitude b) = true) y l ->
  HdRel (fun a b => le (r_altitude a) (r_altitude b) = true) y
        (insertByAltitude x l).
Proof.
  intros Hyx Hl. destruct l as [|z l]; cbn [insertByAltitude].
  - now constructor.
  - destruct (gt _ _); constructor; [|exact Hyx].
    now inversion Hl.
Qed.

Lemma insertByAltitude_sorted x l :
  comparable (r_altitude x) ->
  Forall (fun p => comparable (r_altitude p)) l ->
  Sorted (fun a b => le (r_altitude a) (r_altitude b) = true) l ->
  Sorted (fun a b => le (r_altitude a) (r_altitude b) = true)
         (insertByAltitude x l).
Proof.
  intros [Vx Nx] Hl Hs. induction Hs as [|y l Hs IH Hhd];
    cbn [insertByAltitude].
  - repeat constructor.
  - apply Forall_cons in Hl as [[Vy Ny] Hl].
    rewrite sub_gt0 by assumption.
    destruct (gt (r_altitude x) (r_altitude y)) eqn:E.
    + constructor; [now apply IH|].
      apply insertByAltitude_HdRel; [|exact Hhd]. now apply gt_le.
    + constructor; [now constructor|].
      constructor. now apply not_gt_le.
Qed.

Lemma sortByAltitude_sorted l :
  Forall (fun p => comparable (r_altitude p)) l ->
  Sorted (fun a b => le (r_altitude a) (r_altitude b) = true)
         (sortByAltitude l).
Proof.
  induction 1 as [|x l Hx Hl IH]; cbn [sortByAltitude fold_right].
  - constructor.
  - apply insertByAltitude_sorted; [exact Hx| |exact IH].
    fold (sortByAltitude l). now rewrite sortByAltitude_perm.
Qed.

(** X18.  With an interval other than ['all'] the points of the profile
    come in ascending altitude, provided no average altitude is NaN. *)
Theorem processAltitudeData_ascending (csvHeaders : list string)
    (csvData : list Row) (resistanceData : list number) (interval : string) :
  interval <> "all" ->
  let points :=
    processAltitudeData csvHeaders csvData resistanceData interval in
  Forall (fun p => isNaN (r_altitude p) = false) points ->
  StronglySorted (fun a b => le (r_altitude a) (r_altitude b) = true) points.
Proof.
  intros Hne points Hn.
  assert (E : String.eqb interval "all" = false)
    by (now apply String.eqb_neq).
  pose proof (processAltitudeData_groups csvHeaders csvData resistanceData
                interval E) as Hperm.
  fold points in Hperm. rewrite Hperm in Hn.
  subst points. unfold processAltitudeData. rewrite E.
  apply Sorted_StronglySorted; [intros x y z; apply le_trans|].
  apply sortByAltitude_sorted.
  change (map ?f ?l) with (f <$> l) in *.
  rewrite orderedEntries_perm.
  apply Forall_forall. intros p Hp. split.
  - apply list_elem_of_fmap in Hp as (entry & -> & _). apply div_valid.
  - rewrite Forall_forall in Hn. now apply Hn.
Qed.

Lemma processAltitudeData_ascending_witness :
  "10" <> "all" /\
  Forall (fun p => isNaN (r_altitude p) = false)
         (processAltitudeData Samples.profileHeaders Samples.profileRows
            (numericColumn Samples.profileRows "Resistencia_kOhms") "10") /\
  StronglySorted (fun a b => le (r_altitude a) (r_altitude b) = true)
         (processAltitudeData Samples.profileHeaders Samples.profileRows
            (numericColumn Samples.profileRows "Resistencia_kOhms") "10").
Proof.
  assert (Hne : "10" <> "all") by discriminate.
  assert (Hn : Forall (fun p => isNaN (r_altitude p) = false)
                 (processAltitudeData Samples.profileHeaders
                    Samples.profileRows
                    (numericColumn Samples.profileRows "Resistencia_kOhms")
                    "10"))
    by (vm_compute; repeat constructor).
  split; [exact Hne|]. split; [exact Hn|].
  exact (processAltitudeData_ascending _ _ _ _ Hne Hn).
Defined.

End VerticalProfile.

(* ===================================================================== *)
(** ** Loading and charting *)

Section LoadingAndCharting.

Import AirQuality Cards Loading.

(** *** [validateCSVStructure] *)

Lemma prefix_append needle rest : String.prefix needle (needle +:+ rest) = true.
Proof.
  induction needle as [|c needle IH]; [now destruct rest|].
  change (String c needle +:+ rest) with (String c (needle +:+ rest)).
  cbn [String.prefix]. destruct (ascii_dec c c); [exact IH|congruence].
Qed.

Lemma String_includes_cons c haystack needle :
  String_includes haystack needle = true ->
  String_includes (String c haystack) needle = true.
Proof.
  intros H. cbn [String_includes].
  destruct (String.prefix needle (String c haystack)); [reflexivity|exact H].
Qed.

Lemma String_includes_append before needle rest :
  String_includes (before +:+ (needle +:+ rest)) needle = true.
Proof.
  induction before as [|c before IH].
  - change ("" +:+ (needle +:+ rest)) with (needle +:+ rest).
    pose proof (prefix_append needle rest) as H.
    destruct (needle +:+ rest); cbn [String_includes]; now rewrite H.
  - change (String c before +:+ (needle +:+ rest))
      with (String c (before +:+ (needle +:+ rest))).
    now apply String_includes_cons.
Qed.

Lemma append_empty_r s : s +:+ "" = s.
Proof.
  induction s as [|c s IH]; [reflexivity|].
  change (String c s +:+ "") with (String c (s +:+ "")). now rewrite IH.
Qed.

Lemma String_includes_refl s : String_includes s s = true.
Proof.
  pose proof (String_includes_append "" s "") as H.
  change ("" +:+ (s +:+ "")) with (s +:+ "") in H.
  now rewrite append_empty_r in H.
Qed.

Lemma missingVariables_elem toLowerCase csvHeaders variable :
  variable ∈ missingVariables toLowerCase csvHeaders <->
  variable ∈ expectedVariables /\
  forall header, header ∈ csvHeaders ->
    String_includes (toLowerCase header) (toLowerCase variable) = false.
Proof.
  unfold missingVariables. rewrite list_elem_of_filter.
  split; intros [H1 H2].
  - split; [exact H2|]. intros header Hh.
    destruct (String_includes _ _) eqn:E; [|reflexivity].
    assert (Ht : existsb (fun header =>
                   String_includes (toLowerCase header)
                                   (toLowerCase variable)) csvHeaders = true).
    { apply existsb_exists. exists header.
      split; [now apply list_elem_of_In|exact E]. }
    congruence.
  - split; [|exact H1].
    destruct (existsb _ csvHeaders) eqn:E; [|reflexivity].
    apply existsb_exists in E as (header & Hh%list_elem_of_In & E).
    rewrite (H2 _ Hh) in E. discriminate.
Qed.

(** X19.  [validateCSVStructure] reports only expected variables, in the
    order of [expectedVariables], and never one that is a header of the
    file; a file whose headers include every expected variable gets the
    report that all were found.  A header matches by containment and
    without regard to case: a header made of a part before, a name and a
    part after keeps a variable off the list when the name and the variable
    have the same lower-case form and the lower-case form of this header is
    made of the lower-case forms of its three parts. *)
Theorem validateCSVStructure_report (toLowerCase : string -> string)
    (csvHeaders : list string) :
  missingVariables toLowerCase csvHeaders `sublist_of` expectedVariables /\
  (forall variable,
     variable ∈ missingVariables toLowerCase csvHeaders ->
     variable ∉ csvHeaders) /\
  ((forall variable, variable ∈ expectedVariables -> variable ∈ csvHeaders) ->
   missingVariables toLowerCase csvHeaders = []) /\
  (forall variable before name rest,
     (before +:+ (name +:+ rest)) ∈ csvHeaders ->
     toLowerCase name = toLowerCase variable ->
     toLowerCase (before +:+ (name +:+ rest))
     = toLowerCase before +:+ (toLowerCase name +:+ toLowerCase rest) ->
     variable ∉ missingVariables toLowerCase csvHeaders).
Proof.
  split; [apply sublist_filter|]. split; [|split].
  - intros variable [_ Hmiss]%missingVariables_elem Hin.
    specialize (Hmiss _ Hin). now rewrite String_includes_refl in Hmiss.
  - intros Hall.
    destruct (missingVariables toLowerCase csvHeaders) as [|v l] eqn:E;
      [reflexivity|].
    assert (Hv : v ∈ missingVariables toLowerCase csvHeaders)
      by (rewrite E; apply list_elem_of_here).
    apply missingVariables_elem in Hv as [Hexp Hmiss].
    specialize (Hmiss _ (Hall _ Hexp)).
    now rewrite String_includes_refl in Hmiss.
  - intros variable before name rest Hin Hname Hlower
           [_ Hmiss]%missingVariables_elem.
    specialize (Hmiss _ Hin).
    now rewrite Hlower, Hname, String_includes_append in Hmiss.
Qed.

(** The headers [expectedVariables] themselves leave nothing missing, and
    the header [LECTURA ALTITUD_M GPS] stands for the variable
    [Altitud_m]. *)
Lemma validateCSVStructure_report_witness :
  (forall variable, variable ∈ expectedVariables ->
                    variable ∈ expectedVariables) /\
  missingVariables asciiLowerCase expectedVariables = [] /\
  ("LECTURA " +:+ ("ALTITUD_M" +:+ " GPS")) ∈ ["LECTURA ALTITUD_M GPS"] /\
  asciiLowerCase "ALTITUD_M" = asciiLowerCase "Altitud_m" /\
  asciiLowerCase ("LECTURA " +:+ ("ALTITUD_M" +:+ " GPS"))
  = asciiLowerCase "LECTURA "
    +:+ (asciiLowerCase "ALTITUD_M" +:+ asciiLowerCase " GPS") /\
  ("Altitud_m" ∉ missingVariables asciiLowerCase ["LECTURA ALTITUD_M GPS"]).
Proof.
  destruct (validateCSVStructure_report asciiLowerCase expectedVariables)
    as (_ & _ & H3 & _).
  destruct (validateCSVStructure_report asciiLowerCase
              ["LECTURA ALTITUD_M GPS"]) as (_ & _ & _ & H4).
  assert (Hin : ("LECTURA " +:+ ("ALTITUD_M" +:+ " GPS"))
                ∈ ["LECTURA ALTITUD_M GPS"]) by apply list_elem_of_here.
  split; [auto|]. split; [apply H3; auto|]. split; [exact Hin|].
  split; [reflexivity|]. split; [reflexivity|].
  exact (H4 "Altitud_m" "LECTURA " "ALTITUD_M" " GPS" Hin eq_refl eq_refl).
Defined.

(** *** [generateChart] *)

Lemma numericColumn_not_nan (csvData : list Row) column :
  Forall (fun v => isNaN v = false) (numericColumn csvData column).
Proof.
  apply Forall_forall. now intros v [H _]%numericColumn_elem.
Qed.

(** X20.  [generateChart] draws nothing unless both axes are selected, and
    it never refuses when [validateChartOptions] has enabled the button.
    Otherwise neither data array holds NaN nor more values than there are
    rows; when every row has a number in both columns the two arrays pair
    up row by row. *)
Theorem generateChart_data (xAxis yAxis : string) (csvData : list Row) :
  (generateChart xAxis yAxis csvData = None <-> xAxis = "" \/ yAxis = "") /\
  (validateChartOptions xAxis yAxis = true ->
   generateChart xAxis yAxis csvData <> None) /\
  forall xData yData,
    generateChart xAxis yAxis csvData = Some (xData, yData) ->
    Forall (fun v => isNaN v = false) xData /\
    Forall (fun v => isNaN v = false) yData /\
    (length xData <= length csvData)%nat /\
    (length yData <= length csvData)%nat /\
    (Forall (fun row : Row =>
               isNaN (parseFloat (row !! xAxis)) = false /\
               isNaN (parseFloat (row !! yAxis)) = false) csvData ->
     length xData = length csvData /\ length yData = length csvData /\
     forall (i : nat) (row : Row),
       csvData !! i = Some row ->
       xData !! i = Some (parseFloat (row !! xAxis)) /\
       yData !! i = Some (parseFloat (row !! yAxis))).
Proof.
  unfold generateChart, validateChartOptions.
  destruct (String.eqb_spec xAxis "") as [->|Hx]; cbn [orb negb andb].
  { split; [split; auto|]. split; discriminate. }
  destruct (String.eqb_spec yAxis "") as [->|Hy]; cbn [negb andb].
  { split; [split; auto|]. split; discriminate. }
  split; [split; [discriminate|intros [?|?]; contradiction]|].
  split; [discriminate|].
  intros xData yData [= <- <-].
  split; [apply numericColumn_not_nan|].
  split; [apply numericColumn_not_nan|].
  split; [apply numericColumn_length|].
  split; [apply numericColumn_length|].
  intros Hall.
  rewrite !numericColumn_all
    by (eapply Forall_impl; [exact Hall|]; intros row [? ?]; assumption).
  rewrite !length_map. split; [reflexivity|]. split; [reflexivity|].
  intros i row Hrow.
  change (map ?f ?l) with (f <$> l).
  rewrite !list_lookup_fmap, Hrow. split; reflexivity.
Qed.

Lemma generateChart_data_witness :
  exists xData yData,
    generateChart "Altitud_m" "Resistencia_kOhms" Samples.profileRows
    = Some (xData, yData) /\
    length xData = 3%nat /\ length yData = 3%nat.
Proof.
  eexists. eexists. split; [reflexivity|].
  assert (Hall : Forall (fun row : Row =>
                   isNaN (parseFloat (row !! "Altitud_m")) = false /\
                   isNaN (parseFloat (row !! "Resistencia_kOhms")) = false)
                 Samples.profileRows)
    by (repeat constructor).
  destruct (proj2 (proj2 (generateChart_data "Altitud_m" "Resistencia_kOhms"
                            Samples.profileRows)) _ _ eq_refl)
    as (_ & _ & _ & _ & H).
  destruct (H Hall) as (H1 & H2 & _).
  split; [exact H1|exact H2].
Defined.

End LoadingAndCharting.

(* ===================================================================== *)
(** ** Edge cases of a session *)

Section SessionEdges.

Import Cleaning AirQuality Quality.

(** *** Cleaning twice *)

Lemma filterDuplicates_ext store store' data : forall index timeMap,
  (forall r, deref store' r !! "Tiempo_ms" = deref store r !! "Tiempo_ms") ->
  filterDuplicates store' data index timeMap
  = filterDuplicates store data index timeMap.
Proof.
  induction data as [|r data IH]; intros index timeMap H; [reflexivity|].
  rewrite !filterDuplicates_cons. cbv zeta. rewrite H.
  destruct (Map_has timeMap _); now rewrite IH.
Qed.

Lemma deref_notin (store store' : list Row) r :
  store' !! r = store !! r -> deref store' r = deref store r.
Proof. unfold deref. now intros ->. Qed.

(** X21.  Cleaning again what a cleaning left behind, as a second press
    of the button does, reports the same duplicates and never brings a
    removed row back: the rows retained by the second run are among those
    retained by the first. *)
Theorem cleanData_second_run (store : list Row) (baseInput baseInput' : string)
    (out out' : Outcome) :
  cleanData (Some store) baseInput = Some out ->
  cleanData (Some (originalData out)) baseInput' = Some out' ->
  originalCount out' = originalCount out /\
  duplicatesRemoved out' = duplicatesRemoved out /\
  (forall r, r ∈ cleanedData out' -> r ∈ cleanedData out) /\
  (cleanedCount out' <= cleanedCount out)%nat.
Proof.
  intros H H'.
  pose proof (cleanedData_NoDup _ _ _ H) as Hnd.
  pose proof (cleanedData_NoDup _ _ _ H') as Hnd'.
  pose proof (cleanedData_sublist _ _ _ H) as Hsub.
  apply cleanData_run in H as (Hstore & Hc & Hn & Hcount & Hd & _).
  apply cleanData_run in H' as (_ & Hc' & Hn' & Hcount' & Hd' & _).
  assert (Hlen : length (originalData out) = length store)
    by (rewrite Hstore; apply adjustAll_length).
  assert (Hnotin : forall r, r ∉ cleanedData out ->
                             originalData out !! r = store !! r).
  { intros r Hr. rewrite Hstore. apply adjustAll_lookup_notin.
    now rewrite <- Hc. }
  assert (Htime : forall r,
            deref (originalData out) r !! "Tiempo_ms"
            = deref store r !! "Tiempo_ms").
  { intros r. destruct (decide (r ∈ cleanedData out)) as [Hr|Hr].
    - assert (Hr' : (r < length store)%nat).
      { eapply elem_of_sublist in Hsub; [|exact Hr].
        apply elem_of_seq in Hsub. lia. }
      destruct (lookup_lt_is_Some_2 store r Hr') as [row Hrow].
      rewrite (deref_lookup _ _ _ Hrow).
      rewrite (deref_lookup _ _ (adjustAltitude (baseAltitudeOf baseInput) row)).
      + now apply adjustAltitude_other.
      + rewrite Hstore. apply adjustAll_lookup_in; [| |exact Hrow];
          now rewrite <- Hc.
    - now rewrite (deref_notin _ _ _ (Hnotin r Hr)). }
  rewrite Hlen in *.
  rewrite (filterDuplicates_ext store (originalData out)) in * by exact Htime.
  assert (Hsubset : forall r, r ∈ cleanedData out' -> r ∈ cleanedData out).
  { intros r Hr.
    destruct (decide (r ∈ cleanedData out)) as [|Hno]; [assumption|].
    rewrite Hc' in Hr. apply filterOutliers_kept_iff in Hr as [Hr1 Hr2].
    rewrite (deref_notin _ _ _ (Hnotin r Hno)) in Hr2.
    rewrite Hc. apply filterOutliers_kept_iff. now split. }
  split; [congruence|]. split; [congruence|]. split; [exact Hsubset|].
  rewrite Hcount, Hcount', <- Hc, <- Hc'.
  apply submseteq_length, NoDup_submseteq; assumption.
Qed.

Lemma cleanData_second_run_witness :
  exists out out',
    cleanData (Some Samples.scenario) "" = Some out /\
    cleanData (Some (originalData out)) "" = Some out' /\
    duplicatesRemoved out' = duplicatesRemoved out /\
    (cleanedCount out' <= cleanedCount out)%nat.
Proof.
  eexists. eexists. split; [reflexivity|]. split; [reflexivity|].
  destruct (cleanData_second_run Samples.scenario "" "" _ _ eq_refl eq_refl)
    as (_ & H1 & _ & H2).
  split; [exact H1|exact H2].
Defined.

(** *** No numeric resistance *)

Lemma numericColumn_none (csvData : list Row) column :
  Forall (fun row : Row => isNaN (parseFloat (row !! column)) = true) csvData ->
  numericColumn csvData column = [].
Proof.
  unfold numericColumn. induction 1 as [|row csvData Hrow _ IH]; [reflexivity|].
  cbn [map]. rewrite filter_cons.
  destruct (decide _) as [E|_]; [congruence|exact IH].
Qed.

(** X22.  When the resistance column holds no number at all,
    [generateAirQualityAnalysis] still goes through: the chart is empty,
    nothing is classified, the average resistance is NaN, the maximum
    [-Infinity], the minimum [Infinity], and the predominant quality is
    the last tier, [veryPoor], with a share of NaN. *)
Theorem generateAirQualityAnalysis_without_readings (rows : list Row)
    (csvHeaders : list string) (interval : string) (a : Analysis) :
  generateAirQualityAnalysis (Some rows) csvHeaders interval = Some a ->
  Forall (fun row : Row =>
            isNaN (parseFloat (row !! "Resistencia_kOhms")) = true) rows ->
  chartPoints a = [] /\
  totalData (qualityAnalysis a) = 0%nat /\
  metrics a = {| avgResistance := NaN;
                 maxResistance := S754_infinity true;
                 minResistance := Infinity;
                 predominant := Some veryPoor;
                 predominantPercent := Some NaN |}.
Proof.
  intros H Hall. unfold generateAirQualityAnalysis in H.
  destruct (includes csvHeaders "Resistencia_kOhms"); [|discriminate].
  rewrite (numericColumn_none _ _ Hall) in H. injection H as <-.
  cbn [chartPoints qualityAnalysis metrics].
  split; [|split; reflexivity].
  unfold processAltitudeData. now destruct (String.eqb interval "all").
Qed.

Lemma generateAirQualityAnalysis_without_readings_witness :
  exists a,
    generateAirQualityAnalysis
      (Some [csvRow [("Resistencia_kOhms", "sin dato")]])
      ["Resistencia_kOhms"] "all" = Some a /\
    predominant (metrics a) = Some veryPoor /\
    avgResistance (metrics a) = NaN.
Proof.
  eexists. split; [reflexivity|].
  assert (Hall : Forall (fun row : Row =>
                   isNaN (parseFloat (row !! "Resistencia_kOhms")) = true)
                 [csvRow [("Resistencia_kOhms", "sin dato")]])
    by (repeat constructor).
  destruct (generateAirQualityAnalysis_without_readings
              [csvRow [("Resistencia_kOhms", "sin dato")]]
              ["Resistencia_kOhms"] "all" _ eq_refl Hall)
    as (_ & _ & H).
  split; [exact (f_equal predominant H)|exact (f_equal avgResistance H)].
Defined.

End SessionEdges.

